(** * open-mem: session processing orchestrator

    A shallow embedding of the worker service (src/services/worker-service.ts)
    and of the Codex extraction agent (src/services/worker/CodexAgent.ts),
    followed by the properties of the specification that concern them.

    Conventions of the embedding:
    - JavaScript strings are [string] (ASCII); numbers that the code only uses
      as integers are [Z];
    - an object shared by reference (an [ActiveSession]) lives in a heap
      indexed by locations, the registry maps session ids to locations;
    - code outside the repository sources (the agents other than Codex, the
      SQLite stores, the SDK) is a parameter of the model;
    - logging is left out: it has no effect on control flow;
    - what the code does to its collaborators is recorded, in order, in a
      log of events, on which the properties about order are stated;
    - a loop that may run for ever takes a fuel argument. *)

From Stdlib Require Import ZArith String Ascii List Bool Lia DecimalString.
From stdpp Require Import base option list gmap strings.

Local Open Scope string_scope.
Local Open Scope Z_scope.

(* ===================================================================== *)
(** * Part I: definitions *)
(* ===================================================================== *)

(** ** JavaScript strings and numbers *)

Module Js.

(** [s.includes(pat)]: [pat] occurs in [s] as a contiguous substring. *)
Fixpoint includes (s pat : string) : bool :=
  String.prefix pat s ||
  match s with
  | EmptyString => false
  | String _ s' => includes s' pat
  end.

Definition lowerAscii (c : ascii) : ascii :=
  let n := nat_of_ascii c in
  if Nat.leb 65 n && Nat.leb n 90 then ascii_of_nat (n + 32) else c.

(** [s.toLowerCase()] on ASCII text. *)
Fixpoint toLowerCase (s : string) : string :=
  match s with
  | EmptyString => EmptyString
  | String c s' => String (lowerAscii c) (toLowerCase s')
  end.

(** [patterns.some(p => s.includes(p))] *)
Definition someIncludes (patterns : list string) (s : string) : bool :=
  existsb (includes s) patterns.

(** A JavaScript number as far as [parseInt] produces it: [None] is NaN.
    The loss of precision of doubles above 2^53 is not modelled. *)
Definition number := option Z.

Definition isWhiteSpace (c : ascii) : bool :=
  let n := nat_of_ascii c in
  Nat.eqb n 32 || (Nat.leb 9 n && Nat.leb n 13).

Fixpoint trimStart (s : string) : string :=
  match s with
  | EmptyString => EmptyString
  | String c s' => if isWhiteSpace c then trimStart s' else s
  end.

Definition digitValue (radix : Z) (c : ascii) : option Z :=
  let n := Z.of_nat (nat_of_ascii c) in
  let v := if (48 <=? n) && (n <=? 57) then n - 48
           else if (97 <=? n) && (n <=? 122) then n - 87
           else if (65 <=? n) && (n <=? 90) then n - 55
           else 99 in
  if v <? radix then Some v else None.

(** Longest prefix of digits of [s] in [radix]; [acc] is the value read
    so far, [None] when no digit has been read. *)
Fixpoint readDigits (radix : Z) (s : string) (acc : option Z) : option Z :=
  match s with
  | EmptyString => acc
  | String c s' =>
      match digitValue radix c with
      | Some d => readDigits radix s' (Some (radix * default 0 acc + d))
      | None => acc
      end
  end.

(** [parseInt(s)] with no radix argument: leading white space, a sign,
    an optional [0x] prefix, then the digits. *)
Definition parseIntString (s : string) : number :=
  let s1 := trimStart s in
  let '(negative, s2) :=
    match s1 with
    | String "-" r => (true, r)
    | String "+" r => (false, r)
    | _ => (false, s1)
    end in
  let '(radix, s3) :=
    match s2 with
    | String "0" (String "x" r) => (16, r)
    | String "0" (String "X" r) => (16, r)
    | _ => (10, s2)
    end in
  match readDigits radix s3 None with
  | None => None
  | Some v => Some (if negative then - v else v)
  end.

(** [parseInt(v)] where [v] is a string or [undefined] (a property the
    object does not have); [String(undefined)] has no digit. *)
Definition parseInt (v : option string) : number :=
  match v with
  | None => None
  | Some s => parseIntString s
  end.

(** [n || d] on numbers: NaN and 0 are falsy. *)
Definition orDefault (n : number) (d : Z) : Z :=
  match n with
  | None => d
  | Some v => if v =? 0 then d else v
  end.

(** A thrown value: an [Error] object with its [name] and [message]; a
    value without a [message] property (a string, a number, [null], a
    bare object), of which only [String(v)] is observed; or an object that
    is not an [Error] and carries a [message] string, with its
    [String(v)]. *)
Inductive value :=
| Error (name message : string)
| Thrown (repr : string)
| ThrownObject (message repr : string).

(** [(error as Error)?.message || '']: the cast does not test the class
    of the value. *)
Definition messageOrEmpty (e : value) : string :=
  match e with
  | Error _ m => m
  | Thrown _ => ""
  | ThrownObject m _ => m
  end.

(** [error instanceof Error ? error.message : String(error)] *)
Definition messageOrString (e : value) : string :=
  match e with
  | Error _ m => m
  | Thrown r => r
  | ThrownObject _ r => r
  end.

End Js.

(** ** worker-service.ts: [buildStatusOutput] *)

Module StatusOutput.

Inductive Status := ready | error.

(** [StatusOutput]; an absent [message] key is [None]. *)
Record t := {
  continue : bool;
  suppressOutput : bool;
  status : Status;
  message : option string
}.

(** The spread [...(message && { message })]: [undefined] and the empty
    string are falsy and spread to no property. *)
Definition spreadMessage (message : option string) : option string :=
  match message with
  | None => None
  | Some EmptyString => None
  | Some m => Some m
  end.

Definition buildStatusOutput (status : Status) (message : option string) : t :=
  {| continue := true;
     suppressOutput := true;
     status := status;
     message := spreadMessage message |}.

End StatusOutput.

(** ** CodexAgent.ts: history truncation *)

Inductive Role := user | assistant.

Record ConversationMessage := {
  role : Role;
  content : string
}.

Module History.

Definition DEFAULT_MAX_CONTEXT_MESSAGES : Z := 20.
Definition DEFAULT_MAX_ESTIMATED_TOKENS : Z := 100000.
Definition CHARS_PER_TOKEN_ESTIMATE : Z := 4.

(** The two settings [truncateHistory] reads; [None] when the settings
    object has no such key. *)
Record Settings := {
  CLAUDE_MEM_CODEX_MAX_CONTEXT_MESSAGES : option string;
  CLAUDE_MEM_CODEX_MAX_TOKENS : option string
}.

(** [Math.ceil(text.length / CHARS_PER_TOKEN_ESTIMATE)] *)
Definition estimateTokens (text : string) : Z :=
  (Z.of_nat (String.length text) + (CHARS_PER_TOKEN_ESTIMATE - 1))
    / CHARS_PER_TOKEN_ESTIMATE.

Definition maxMessages (settings : Settings) : Z :=
  Js.orDefault (Js.parseInt (CLAUDE_MEM_CODEX_MAX_CONTEXT_MESSAGES settings))
               DEFAULT_MAX_CONTEXT_MESSAGES.

Definition maxTokens (settings : Settings) : Z :=
  Js.orDefault (Js.parseInt (CLAUDE_MEM_CODEX_MAX_TOKENS settings))
               DEFAULT_MAX_ESTIMATED_TOKENS.

(** [history.reduce((sum, m) => sum + estimateTokens(m.content), 0)] *)
Definition totalTokens (history : list ConversationMessage) : Z :=
  fold_left (fun sum m => sum + estimateTokens (content m)) history 0.

(** The loop [for (i = history.length - 1; i >= 0; i--)], on the messages
    still to visit, newest first; [unshift] is a cons. *)
Fixpoint truncateLoop (maxMessages maxTokens : Z)
    (newestFirst truncated : list ConversationMessage) (tokenCount : Z)
    : list ConversationMessage :=
  match newestFirst with
  | [] => truncated
  | msg :: older =>
      let msgTokens := estimateTokens (content msg) in
      if (Z.of_nat (length truncated) >=? maxMessages)
         || (tokenCount + msgTokens >? maxTokens)
      then truncated
      else truncateLoop maxMessages maxTokens older
             (msg :: truncated) (tokenCount + msgTokens)
  end.

Definition truncateHistory (settings : Settings)
    (history : list ConversationMessage) : list ConversationMessage :=
  let maxMessages := maxMessages settings in
  let maxTokens := maxTokens settings in
  if (Z.of_nat (length history) <=? maxMessages)
     && (totalTokens history <=? maxTokens)
  then history
  else truncateLoop maxMessages maxTokens (rev history) [] 0.

End History.

(** ** SettingsDefaultsManager.ts: [loadFromFile] *)

Module SettingsDefaultsManager.

(** The keys of [DEFAULTS]. *)
Definition DEFAULT_KEYS : list string :=
  [ "CLAUDE_MEM_MODEL"; "CLAUDE_MEM_CONTEXT_OBSERVATIONS";
    "CLAUDE_MEM_WORKER_PORT"; "CLAUDE_MEM_WORKER_HOST"; "CLAUDE_MEM_SKIP_TOOLS";
    "CLAUDE_MEM_PROVIDER"; "CLAUDE_MEM_CLAUDE_AUTH_METHOD";
    "CLAUDE_MEM_GEMINI_API_KEY"; "CLAUDE_MEM_GEMINI_MODEL";
    "CLAUDE_MEM_GEMINI_RATE_LIMITING_ENABLED";
    "CLAUDE_MEM_OPENROUTER_API_KEY"; "CLAUDE_MEM_OPENROUTER_MODEL";
    "CLAUDE_MEM_OPENROUTER_SITE_URL"; "CLAUDE_MEM_OPENROUTER_APP_NAME";
    "CLAUDE_MEM_OPENROUTER_MAX_CONTEXT_MESSAGES"; "CLAUDE_MEM_OPENROUTER_MAX_TOKENS";
    "CLAUDE_MEM_DATA_DIR"; "CLAUDE_MEM_LOG_LEVEL"; "CLAUDE_MEM_PYTHON_VERSION";
    "CLAUDE_CODE_PATH"; "CLAUDE_MEM_MODE";
    "CLAUDE_MEM_CONTEXT_SHOW_READ_TOKENS"; "CLAUDE_MEM_CONTEXT_SHOW_WORK_TOKENS";
    "CLAUDE_MEM_CONTEXT_SHOW_SAVINGS_AMOUNT"; "CLAUDE_MEM_CONTEXT_SHOW_SAVINGS_PERCENT";
    "CLAUDE_MEM_CONTEXT_OBSERVATION_TYPES"; "CLAUDE_MEM_CONTEXT_OBSERVATION_CONCEPTS";
    "CLAUDE_MEM_CONTEXT_FULL_COUNT"; "CLAUDE_MEM_CONTEXT_FULL_FIELD";
    "CLAUDE_MEM_CONTEXT_SESSION_COUNT";
    "CLAUDE_MEM_CONTEXT_SHOW_LAST_SUMMARY"; "CLAUDE_MEM_CONTEXT_SHOW_LAST_MESSAGE";
    "CLAUDE_MEM_FOLDER_CLAUDEMD_ENABLED";
    "CLAUDE_MEM_EXCLUDED_PROJECTS"; "CLAUDE_MEM_FOLDER_MD_EXCLUDE" ].

(** An object with string values: [None] for a key it does not have. *)
Definition object := string -> option string.

(** [loadFromFile]: for each key of [DEFAULTS], the environment variable
    if it is set, else the value of the (flat) settings file if it has
    one, else the default.  [file] is [None] when the file is missing or
    cannot be parsed; [defaults] gives the values of [DEFAULTS]. *)
Definition loadFromFile (defaults : string -> string) (file : option object)
    (env : object) : object :=
  fun key =>
    if existsb (String.eqb key) DEFAULT_KEYS then
      match env key with
      | Some v => Some v
      | None =>
          match file with
          | Some flatSettings =>
              match flatSettings key with
              | Some v => Some v
              | None => Some (defaults key)
              end
          | None => Some (defaults key)
          end
      end
    else None.

(** The two properties [truncateHistory] reads off the settings object. *)
Definition codexLimits (settings : object) : History.Settings :=
  {| History.CLAUDE_MEM_CODEX_MAX_CONTEXT_MESSAGES :=
       settings "CLAUDE_MEM_CODEX_MAX_CONTEXT_MESSAGES";
     History.CLAUDE_MEM_CODEX_MAX_TOKENS :=
       settings "CLAUDE_MEM_CODEX_MAX_TOKENS" |}.

End SettingsDefaultsManager.

(** ** Data model shared by the orchestrator and the agents *)

(** An object reference: the address of an [ActiveSession] in the heap. *)
Definition loc := nat.

Record AbortController := {
  controllerId : nat;
  aborted : bool        (* [signal.aborted] *)
}.

(** The in-memory session context ([ActiveSession] of worker-types).  The
    cumulative token counters and the start time are left out: they are
    floating-point bookkeeping that no branch of the code reads. *)
Record ActiveSession := {
  sessionDbId : Z;
  contentSessionId : string;
  project : string;
  userPrompt : string;
  memorySessionId : option string;
  forceInit : bool;
  lastPromptNumber : Z;
  abortController : AbortController;
  generatorPromise : bool;      (* [true]: a promise is attached, [false]: null *)
  conversationHistory : list ConversationMessage;
  processingMessageIds : list Z;
  earliestPendingTimestamp : option Z
}.

Definition set_memorySessionId (v : option string) (s : ActiveSession) :=
  {| sessionDbId := sessionDbId s; contentSessionId := contentSessionId s;
     project := project s; userPrompt := userPrompt s;
     memorySessionId := v; forceInit := forceInit s;
     lastPromptNumber := lastPromptNumber s;
     abortController := abortController s;
     generatorPromise := generatorPromise s;
     conversationHistory := conversationHistory s;
     processingMessageIds := processingMessageIds s;
     earliestPendingTimestamp := earliestPendingTimestamp s |}.

Definition set_forceInit (v : bool) (s : ActiveSession) :=
  {| sessionDbId := sessionDbId s; contentSessionId := contentSessionId s;
     project := project s; userPrompt := userPrompt s;
     memorySessionId := memorySessionId s; forceInit := v;
     lastPromptNumber := lastPromptNumber s;
     abortController := abortController s;
     generatorPromise := generatorPromise s;
     conversationHistory := conversationHistory s;
     processingMessageIds := processingMessageIds s;
     earliestPendingTimestamp := earliestPendingTimestamp s |}.

Definition set_lastPromptNumber (v : Z) (s : ActiveSession) :=
  {| sessionDbId := sessionDbId s; contentSessionId := contentSessionId s;
     project := project s; userPrompt := userPrompt s;
     memorySessionId := memorySessionId s; forceInit := forceInit s;
     lastPromptNumber := v;
     abortController := abortController s;
     generatorPromise := generatorPromise s;
     conversationHistory := conversationHistory s;
     processingMessageIds := processingMessageIds s;
     earliestPendingTimestamp := earliestPendingTimestamp s |}.

Definition set_abortController (v : AbortController) (s : ActiveSession) :=
  {| sessionDbId := sessionDbId s; contentSessionId := contentSessionId s;
     project := project s; userPrompt := userPrompt s;
     memorySessionId := memorySessionId s; forceInit := forceInit s;
     lastPromptNumber := lastPromptNumber s;
     abortController := v;
     generatorPromise := generatorPromise s;
     conversationHistory := conversationHistory s;
     processingMessageIds := processingMessageIds s;
     earliestPendingTimestamp := earliestPendingTimestamp s |}.

Definition set_generatorPromise (v : bool) (s : ActiveSession) :=
  {| sessionDbId := sessionDbId s; contentSessionId := contentSessionId s;
     project := project s; userPrompt := userPrompt s;
     memorySessionId := memorySessionId s; forceInit := forceInit s;
     lastPromptNumber := lastPromptNumber s;
     abortController := abortController s;
     generatorPromise := v;
     conversationHistory := conversationHistory s;
     processingMessageIds := processingMessageIds s;
     earliestPendingTimestamp := earliestPendingTimestamp s |}.

Definition set_conversationHistory (v : list ConversationMessage) (s : ActiveSession) :=
  {| sessionDbId := sessionDbId s; contentSessionId := contentSessionId s;
     project := project s; userPrompt := userPrompt s;
     memorySessionId := memorySessionId s; forceInit := forceInit s;
     lastPromptNumber := lastPromptNumber s;
     abortController := abortController s;
     generatorPromise := generatorPromise s;
     conversationHistory := v;
     processingMessageIds := processingMessageIds s;
     earliestPendingTimestamp := earliestPendingTimestamp s |}.

Definition set_processingMessageIds (v : list Z) (s : ActiveSession) :=
  {| sessionDbId := sessionDbId s; contentSessionId := contentSessionId s;
     project := project s; userPrompt := userPrompt s;
     memorySessionId := memorySessionId s; forceInit := forceInit s;
     lastPromptNumber := lastPromptNumber s;
     abortController := abortController s;
     generatorPromise := generatorPromise s;
     conversationHistory := conversationHistory s;
     processingMessageIds := v;
     earliestPendingTimestamp := earliestPendingTimestamp s |}.

(** Truthiness of [session.memorySessionId]: neither null nor empty. *)
Definition truthy (v : option string) : bool :=
  match v with
  | None => false
  | Some EmptyString => false
  | Some _ => true
  end.

(** Rows of the [sdk_sessions] table. *)
Inductive SessionStatus := s_active | s_completed | s_failed.

Record SdkSession := {
  id : Z;
  status : SessionStatus;
  started_at_epoch : Z;
  completed_at_epoch : option Z;
  memory_session_id : option string
}.

(** Rows of the [pending_messages] table (payload columns left out). *)
Inductive MessageStatus := m_pending | m_processing | m_processed | m_failed.

Record PendingMessage := {
  message_id : Z;
  session_db_id : Z;
  message_status : MessageStatus;
  started_processing_at_epoch : option Z;
  failed_at_epoch : option Z
}.

Definition SessionStatus_eqb (a b : SessionStatus) : bool :=
  match a, b with
  | s_active, s_active | s_completed, s_completed | s_failed, s_failed => true
  | _, _ => false
  end.

Definition MessageStatus_eqb (a b : MessageStatus) : bool :=
  match a, b with
  | m_pending, m_pending | m_processing, m_processing
  | m_processed, m_processed | m_failed, m_failed => true
  | _, _ => false
  end.

(** Everything the worker process and its collaborators share: the heap of
    session objects, the registry [SessionManager.sessions], the two
    tables, the allocator of abort controllers and of objects, and the
    clock read by [Date.now()]. *)
Record Store := {
  heap : gmap loc ActiveSession;
  sessions : gmap Z loc;
  sdk_sessions : list SdkSession;
  pending_messages : list PendingMessage;
  nextController : nat;
  nextLoc : loc;
  now : Z
}.

Definition set_heap (v : gmap loc ActiveSession) (st : Store) :=
  {| heap := v; sessions := sessions st; sdk_sessions := sdk_sessions st;
     pending_messages := pending_messages st;
     nextController := nextController st; nextLoc := nextLoc st; now := now st |}.

Definition set_sessions (v : gmap Z loc) (st : Store) :=
  {| heap := heap st; sessions := v; sdk_sessions := sdk_sessions st;
     pending_messages := pending_messages st;
     nextController := nextController st; nextLoc := nextLoc st; now := now st |}.

Definition set_sdk_sessions (v : list SdkSession) (st : Store) :=
  {| heap := heap st; sessions := sessions st; sdk_sessions := v;
     pending_messages := pending_messages st;
     nextController := nextController st; nextLoc := nextLoc st; now := now st |}.

Definition set_pending_messages (v : list PendingMessage) (st : Store) :=
  {| heap := heap st; sessions := sessions st; sdk_sessions := sdk_sessions st;
     pending_messages := v;
     nextController := nextController st; nextLoc := nextLoc st; now := now st |}.

Definition set_nextController (v : nat) (st : Store) :=
  {| heap := heap st; sessions := sessions st; sdk_sessions := sdk_sessions st;
     pending_messages := pending_messages st;
     nextController := v; nextLoc := nextLoc st; now := now st |}.

Definition set_nextLoc (v : loc) (st : Store) :=
  {| heap := heap st; sessions := sessions st; sdk_sessions := sdk_sessions st;
     pending_messages := pending_messages st;
     nextController := nextController st; nextLoc := v; now := now st |}.

(** [session.field = v] on the object at [l]. *)
Definition updateSession (l : loc) (f : ActiveSession -> ActiveSession)
    (st : Store) : Store :=
  set_heap (alter f l (heap st)) st.

(** ** The stores behind the orchestrator

    [PendingMessageStore], [SessionStore] and [SessionManager] are not part
    of the sources at hand; the operations the orchestrator calls are
    modelled after section 4 of the specification. *)

Module Stores.

Definition messageOf (sessionDbId : Z) (m : PendingMessage) : bool :=
  session_db_id m =? sessionDbId.

Definition hasStatus (v : MessageStatus) (m : PendingMessage) : bool :=
  MessageStatus_eqb (message_status m) v.

(** Modelled from the spec: [PendingMessageStore.getPendingCount] is
    missing; "pendingCount(sessionId): read-only", the number of messages
    of the session still in [pending] status. *)
Definition getPendingCount (sessionDbId : Z) (st : Store) : Z :=
  Z.of_nat (length (List.filter
    (fun m => messageOf sessionDbId m && hasStatus m_pending m)
    (pending_messages st))).

Definition abandon (at_epoch : Z) (m : PendingMessage) : PendingMessage :=
  {| message_id := message_id m; session_db_id := session_db_id m;
     message_status := m_failed;
     started_processing_at_epoch := started_processing_at_epoch m;
     failed_at_epoch := Some at_epoch |}.

Definition isOpen (m : PendingMessage) : bool :=
  hasStatus m_pending m || hasStatus m_processing m.

(** Modelled from the spec: [markAllSessionMessagesAbandoned] is missing;
    "markAllAbandoned(sessionId) -> count: terminal status for all
    remaining pending/processing messages of a session being retired".
    The terminal status of the data model is [failed]. *)
Definition markAllSessionMessagesAbandoned (sessionDbId : Z) (st : Store)
    : Z * Store :=
  let hit m := messageOf sessionDbId m && isOpen m in
  (Z.of_nat (length (List.filter hit (pending_messages st))),
   set_pending_messages
     (map (fun m => if hit m then abandon (now st) m else m)
          (pending_messages st)) st).

Definition demote (m : PendingMessage) : PendingMessage :=
  {| message_id := message_id m; session_db_id := session_db_id m;
     message_status := m_pending;
     started_processing_at_epoch := None;
     failed_at_epoch := failed_at_epoch m |}.

Definition startedBefore (cutoff : Z) (m : PendingMessage) : bool :=
  match started_processing_at_epoch m with
  | Some t => t <? cutoff
  | None => false
  end.

(** Modelled from the spec: [resetStaleProcessingMessages] is missing;
    "resetStaleProcessing(olderThanMs): bulk-transitions processing ->
    pending for messages whose start timestamp is older than the
    threshold (0 means all)". *)
Definition resetStaleProcessingMessages (thresholdMs : Z) (st : Store)
    : Z * Store :=
  let hit m :=
    hasStatus m_processing m
    && ((thresholdMs =? 0) || startedBefore (now st - thresholdMs) m) in
  (Z.of_nat (length (List.filter hit (pending_messages st))),
   set_pending_messages
     (map (fun m => if hit m then demote m else m) (pending_messages st)) st).

Fixpoint distinct (ids : list Z) : list Z :=
  match ids with
  | [] => []
  | i :: rest =>
      i :: List.filter (fun j => negb (j =? i)) (distinct rest)
  end.

(** Modelled from the spec: [getSessionsWithPendingMessages] is missing;
    "sessionsWithPendingWork() -> [sessionId]: read-only", the sessions
    owning a message in [pending] status, each once. *)
Definition getSessionsWithPendingMessages (st : Store) : list Z :=
  distinct (map session_db_id
    (List.filter (hasStatus m_pending) (pending_messages st))).

(** Modelled from the spec: [SessionStore.updateMemorySessionId] is
    missing; it persists the memory-session identifier of a session row. *)
Definition updateMemorySessionId (sessionDbId : Z) (v : option string)
    (st : Store) : Store :=
  set_sdk_sessions
    (map (fun r =>
            if id r =? sessionDbId
            then {| id := id r; status := status r;
                    started_at_epoch := started_at_epoch r;
                    completed_at_epoch := completed_at_epoch r;
                    memory_session_id := v |}
            else r)
         (sdk_sessions st)) st.

(** [sessionManager.getSession(sessionDbId)] *)
Definition getSession (sessionDbId : Z) (st : Store) : option loc :=
  sessions st !! sessionDbId.

(** Modelled from the spec: [SessionManager.removeSessionImmediate] is
    missing; "remove(sessionDbId): drops the in-memory context; does not
    touch persisted rows".  The object itself stays in the heap for those
    who still hold a reference to it. *)
Definition removeSessionImmediate (sessionDbId : Z) (st : Store) : Store :=
  set_sessions (delete sessionDbId (sessions st)) st.

Definition freshSession (r : SdkSession) (c : AbortController) : ActiveSession :=
  {| sessionDbId := id r; contentSessionId := ""; project := "";
     userPrompt := ""; memorySessionId := memory_session_id r;
     forceInit := false; lastPromptNumber := 1;
     abortController := c; generatorPromise := false;
     conversationHistory := []; processingMessageIds := [];
     earliestPendingTimestamp := None |}.

(** Modelled from the spec: [SessionManager.initializeSession] is missing;
    "getOrCreate: looks up an existing live context or constructs one,
    loading session metadata from storage"; it fails when the session
    has no row. *)
Definition initializeSession (sessionDbId : Z) (st : Store)
    : option (loc * Store) :=
  match sessions st !! sessionDbId with
  | Some l => Some (l, st)
  | None =>
      match List.find (fun r => id r =? sessionDbId) (sdk_sessions st) with
      | None => None
      | Some r =>
          let l := nextLoc st in
          let c := {| controllerId := nextController st; aborted := false |} in
          Some (l,
                set_sessions (<[sessionDbId := l]> (sessions st))
                  (set_heap (<[l := freshSession r c]> (heap st))
                     (set_nextLoc (S l)
                        (set_nextController (S (nextController st)) st))))
      end
  end.

End Stores.

(** ** worker-service.ts: the session processor *)

Module Worker.

(** The three agents the worker service holds ([agent.constructor.name]). *)
Inductive AgentKind := SDKAgent | GeminiAgent | OpenRouterAgent.

(** What the orchestrator does to its collaborators, in order. *)
Inductive Event :=
| EvStartGenerator (l : loc) (agent : AgentKind) (source : string)
    (* [agent.startSession(session, this)] in [startSessionProcessor] *)
| EvFallbackStart (l : loc) (agent : AgentKind)
    (* [startSession] called by [runFallbackForTerminatedSession] *)
| EvFallbackFailed (l : loc) (agent : AgentKind)
    (* the [catch] clause of that call: the fallback agent has failed *)
| EvNewAbortController (l : loc) (controller : nat)
| EvUpdateMemorySessionId (sessionDbId : Z) (v : option string)
| EvMarkAbandoned (sessionDbId : Z) (abandoned : Z)
| EvRemoveSession (sessionDbId : Z)
| EvSessionCompleted (sessionDbId : Z)
| EvProcessingStatus
| EvResetStaleProcessing (thresholdMs : Z) (resetCount : Z)
| EvStaleSessionsFailed (ids : list Z)
| EvRouteHandler
| EvInitializationComplete.

Record World := {
  store : Store;
  log : list Event        (* oldest first *)
}.

Definition emit (e : Event) (w : World) : World :=
  {| store := store w; log := log w ++ [e] |}.

Definition onStore (f : Store -> Store) (w : World) : World :=
  {| store := f (store w); log := log w |}.

(** How a promise settles. *)
Inductive Settled :=
| Resolved
| Rejected (error : Js.value).

(** The collaborators that are not in the sources: what a call of
    [startSession] of each agent does to the shared store until its
    promise settles.  An agent does not write the orchestrator's log. *)
Record Agents := {
  startSession : AgentKind -> loc -> Store -> Settled * Store
}.

(** Settings and availability checks read by the orchestrator:
    [settings.CLAUDE_MEM_PROVIDER], [isGeminiAvailable()] and
    [isOpenRouterAvailable()], taken as fixed during a run. *)
Record Env := {
  CLAUDE_MEM_PROVIDER : string;
  isGeminiAvailable : bool;
  isOpenRouterAvailable : bool
}.

Definition getActiveAgent (env : Env) : AgentKind :=
  let provider := CLAUDE_MEM_PROVIDER env in
  if String.eqb provider "openrouter" then
    if isOpenRouterAvailable env then OpenRouterAgent else SDKAgent
  else if String.eqb provider "gemini" then
    if isGeminiAvailable env then GeminiAgent else SDKAgent
  else if String.eqb provider "auto" then
    if isOpenRouterAvailable env then OpenRouterAgent
    else if isGeminiAvailable env then GeminiAgent
    else SDKAgent
  else SDKAgent.

(** [session.abortController = new AbortController()] *)
Definition newAbortController (l : loc) (w : World) : World :=
  let c := {| controllerId := nextController (store w); aborted := false |} in
  emit (EvNewAbortController l (controllerId c))
    (onStore (fun st =>
                updateSession l (set_abortController c)
                  (set_nextController (S (nextController st)) st)) w).

(** [broadcastProcessingStatus()] *)
Definition broadcastProcessingStatus (w : World) : World :=
  emit EvProcessingStatus w.

(** [removeSessionImmediate] with the [onSessionDeleted] callback set in
    the constructor. *)
Definition removeSession (sessionDbId : Z) (w : World) : World :=
  broadcastProcessingStatus
    (emit (EvRemoveSession sessionDbId)
       (onStore (Stores.removeSessionImmediate sessionDbId) w)).

(** The synchronous part of [startSessionProcessor]: choose the agent,
    replace an aborted controller, call [agent.startSession] and attach
    the promise.  The run of the agent itself is accounted for when its
    promise settles ([settleGenerator]). *)
Definition beginGenerator (env : Env) (l : loc) (source : string)
    (w : World) : World * AgentKind :=
  let agent := getActiveAgent env in
  match heap (store w) !! l with
  | None => (w, agent)
  | Some session =>
      let w1 := if aborted (abortController session)
                then newAbortController l w else w in
      let w2 := emit (EvStartGenerator l agent source) w1 in
      (onStore (updateSession l (set_generatorPromise true)) w2, agent)
  end.

Definition unrecoverablePatterns : list string :=
  [ "Claude executable not found"; "CLAUDE_CODE_PATH"; "ENOENT"; "spawn" ].

Definition isUnrecoverableError (error : Js.value) : bool :=
  Js.someIncludes unrecoverablePatterns (Js.messageOrEmpty error).

Definition isSessionTerminatedError (error : Js.value) : bool :=
  let normalized := Js.toLowerCase (Js.messageOrString error) in
  Js.includes normalized "process aborted by user"
  || Js.includes normalized "processtransport"
  || Js.includes normalized "not ready for writing"
  || Js.includes normalized "session generator failed"
  || Js.includes normalized "claude code process".

Definition isStaleResumeMessage (errorMessage : string) : bool :=
  Js.includes errorMessage "aborted by user"
  || Js.includes errorMessage "No conversation found".

(** [`fallback-${sessionDbId}-${Date.now()}`] *)
Definition numberToString (n : Z) : string :=
  DecimalString.NilZero.string_of_int (Z.to_int n).

Definition fallbackSyntheticId (sessionDbId at_epoch : Z) : string :=
  "fallback-" ++ numberToString sessionDbId ++ "-" ++ numberToString at_epoch.

(** One step of the fallback chain: [try { await agent.startSession(..);
    return } catch (e) { warn }].  The result tells whether the chain
    returned. *)
Definition tryFallback (agents : Agents) (agent : AgentKind) (l : loc)
    (w : World) : bool * World :=
  let w1 := emit (EvFallbackStart l agent) w in
  let '(settled, st) := startSession agents agent l (store w1) in
  let w2 := {| store := st; log := log w1 |} in
  match settled with
  | Resolved => (true, w2)
  | Rejected _ => (false, emit (EvFallbackFailed l agent) w2)
  end.

(** The end of [runFallbackForTerminatedSession]: "no fallback or both
    failed: mark messages abandoned and remove session". *)
Definition abandonSession (sessionDbId : Z) (w : World) : World :=
  let '(abandoned, st) :=
    Stores.markAllSessionMessagesAbandoned sessionDbId (store w) in
  let w1 := emit (EvMarkAbandoned sessionDbId abandoned)
              {| store := st; log := log w |} in
  emit (EvSessionCompleted sessionDbId) (removeSession sessionDbId w1).

Definition runFallbackForTerminatedSession (agents : Agents) (env : Env)
    (session : option loc) (w : World) : World :=
  match session with
  | None => w
  | Some l =>
    match heap (store w) !! l with
    | None => w
    | Some s =>
      let sessionDbId := sessionDbId s in
      let w1 :=
        if negb (truthy (memorySessionId s)) then
          let syntheticId := fallbackSyntheticId sessionDbId (now (store w)) in
          emit (EvUpdateMemorySessionId sessionDbId (Some syntheticId))
            (onStore (fun st =>
               Stores.updateMemorySessionId sessionDbId (Some syntheticId)
                 (updateSession l (set_memorySessionId (Some syntheticId)) st)) w)
        else w in
      let '(returned, w2) :=
        if isGeminiAvailable env then tryFallback agents GeminiAgent l w1
        else (false, w1) in
      if returned then w2 else
      let '(returned, w3) :=
        if isOpenRouterAvailable env then tryFallback agents OpenRouterAgent l w2
        else (false, w2) in
      if returned then w3 else abandonSession sessionDbId w3
    end
  end.

(** The [.catch] handler of the generator promise.  It yields the flag
    [hadUnrecoverableError] and the way the promise settles after it. *)
Definition onGeneratorError (agents : Agents) (env : Env) (l : loc)
    (error : Js.value) (w : World) : bool * Settled * World :=
  let errorMessage := Js.messageOrEmpty error in
  if Js.someIncludes unrecoverablePatterns errorMessage then
    (true, Resolved, w)
  else if isSessionTerminatedError error then
    (false, Resolved, runFallbackForTerminatedSession agents env (Some l) w)
  else
    match heap (store w) !! l with
    | None => (false, Rejected error, w)
    | Some session =>
        let w1 :=
          if isStaleResumeMessage errorMessage
             && truthy (memorySessionId session)
          then
            emit (EvUpdateMemorySessionId (sessionDbId session) None)
              (onStore (fun st =>
                 updateSession l (set_forceInit true)
                   (updateSession l (set_memorySessionId None)
                      (Stores.updateMemorySessionId (sessionDbId session) None st)))
                 w)
          else w in
        (false, Rejected error, w1)
    end.

(** [promise.catch(handler)]: the handler runs on a rejection only. *)
Definition catchGenerator (agents : Agents) (env : Env) (l : loc)
    (outcome : Settled) (w : World) : bool * Settled * World :=
  match outcome with
  | Resolved => (false, Resolved, w)
  | Rejected error => onGeneratorError agents env l error w
  end.

(** The [.finally] handler.  It yields the agent of the generator it has
    restarted, if any. *)
Definition onGeneratorFinally (env : Env) (l : loc)
    (hadUnrecoverableError : bool) (w : World) : World * option AgentKind :=
  let w1 := onStore (updateSession l (set_generatorPromise false)) w in
  if hadUnrecoverableError then (broadcastProcessingStatus w1, None)
  else
    match heap (store w1) !! l with
    | None => (broadcastProcessingStatus w1, None)
    | Some session =>
        let pendingCount := Stores.getPendingCount (sessionDbId session) (store w1) in
        if pendingCount >? 0 then
          let w2 := newAbortController l w1 in
          let '(w3, agent) := beginGenerator env l "pending-work-restart" w2 in
          (broadcastProcessingStatus w3, Some agent)
        else (broadcastProcessingStatus w1, None)
    end.

(** The generator promise of the session at [l], run by [agent], settles:
    the agent's effects, then the [catch] and [finally] handlers. *)
Definition settleGenerator (agents : Agents) (env : Env) (l : loc)
    (agent : AgentKind) (w : World) : Settled * option AgentKind * World :=
  let '(outcome, st) := startSession agents agent l (store w) in
  let '(hadUnrecoverableError, settled, w2) :=
    catchGenerator agents env l outcome {| store := st; log := log w |} in
  let '(w3, restarted) := onGeneratorFinally env l hadUnrecoverableError w2 in
  (settled, restarted, w3).

(** The chain of generators of one session: each restart is settled in
    turn, for at most [fuel] generators. *)
Fixpoint runGenerators (fuel : nat) (agents : Agents) (env : Env) (l : loc)
    (agent : AgentKind) (w : World) : World :=
  match fuel with
  | O => w
  | S fuel' =>
      let '(_, restarted, w') := settleGenerator agents env l agent w in
      match restarted with
      | Some agent' => runGenerators fuel' agents env l agent' w'
      | None => w'
      end
  end.

Definition startSessionProcessor (fuel : nat) (agents : Agents) (env : Env)
    (session : option loc) (source : string) (w : World) : World :=
  match session with
  | None => w
  | Some l =>
      let '(w1, agent) := beginGenerator env l source w in
      runGenerators fuel agents env l agent w1
  end.

Definition isRestart (e : Event) : bool :=
  match e with
  | EvStartGenerator _ _ source => String.eqb source "pending-work-restart"
  | _ => false
  end.

(** The number of times the processor has restarted itself. *)
Definition restarts (events : list Event) : nat :=
  length (List.filter isRestart events).

(** The log [b] continues the log [a]. *)
Definition extends (a b : list Event) : Prop :=
  exists added, b = (a ++ added)%list.

End Worker.

(** ** worker-service.ts: recovery and start-up *)

Module Recovery.

Import Worker.

Definition STALE_SESSION_THRESHOLD_MS : Z := 6 * 60 * 60 * 1000.

(** [WHERE status = 'active' AND started_at_epoch < ?] *)
Definition isStaleSession (staleThreshold : Z) (r : SdkSession) : bool :=
  SessionStatus_eqb (status r) s_active && (started_at_epoch r <? staleThreshold).

(** [x IN (ids)] *)
Definition inIds (ids : list Z) (x : Z) : bool := existsb (Z.eqb x) ids.

Definition failSession (at_epoch : Z) (r : SdkSession) : SdkSession :=
  {| id := id r; status := s_failed;
     started_at_epoch := started_at_epoch r;
     completed_at_epoch := Some at_epoch;
     memory_session_id := memory_session_id r |}.

Definition failMessage (at_epoch : Z) (m : PendingMessage) : PendingMessage :=
  {| message_id := message_id m; session_db_id := session_db_id m;
     message_status := m_failed;
     started_processing_at_epoch := started_processing_at_epoch m;
     failed_at_epoch := Some at_epoch |}.

Definition staleSessionIds (st : Store) : list Z :=
  map id (List.filter
            (isStaleSession (now st - STALE_SESSION_THRESHOLD_MS))
            (sdk_sessions st)).

(** The first block of [processPendingQueues]: the SELECT of the stale
    sessions and the two UPDATEs.  The statements are taken not to throw
    (the [catch] clause only logs), and the three calls of [Date.now()]
    read the same millisecond. *)
Definition failStaleSessions (w : World) : World :=
  let st := store w in
  let ids := staleSessionIds st in
  if (0 <? length ids)%nat then
    let st1 :=
      set_sdk_sessions
        (map (fun r => if inIds ids (id r) then failSession (now st) r else r)
             (sdk_sessions st)) st in
    let st2 :=
      set_pending_messages
        (map (fun m =>
                if Stores.hasStatus m_pending m && inIds ids (session_db_id m)
                then failMessage (now st) m else m)
             (pending_messages st1)) st1 in
    emit (EvStaleSessionsFailed ids) {| store := st2; log := log w |}
  else w.

Record RecoveryResult := {
  totalPendingSessions : nat;
  sessionsStarted : Z;
  sessionsSkipped : Z;
  startedSessionIds : list Z
}.

Definition hasGenerator (st : Store) (sessionDbId : Z) : bool :=
  match Stores.getSession sessionDbId st with
  | Some l =>
      match heap st !! l with
      | Some session => generatorPromise session
      | None => false
      end
  | None => false
  end.

Definition skipped (r : RecoveryResult) : RecoveryResult :=
  {| totalPendingSessions := totalPendingSessions r;
     sessionsStarted := sessionsStarted r;
     sessionsSkipped := sessionsSkipped r + 1;
     startedSessionIds := startedSessionIds r |}.

Definition started (sessionDbId : Z) (r : RecoveryResult) : RecoveryResult :=
  {| totalPendingSessions := totalPendingSessions r;
     sessionsStarted := sessionsStarted r + 1;
     sessionsSkipped := sessionsSkipped r;
     startedSessionIds := startedSessionIds r ++ [sessionDbId] |}.

(** The loop [for (const sessionDbId of orphanedSessionIds)].  Besides
    the result it yields the generators it has started, which settle
    later; the 100 ms pause between two starts is left out. *)
Fixpoint recoverSessions (env : Env) (sessionLimit : Z) (ids : list Z)
    (result : RecoveryResult) (generators : list (loc * AgentKind))
    (w : World) : RecoveryResult * list (loc * AgentKind) * World :=
  match ids with
  | [] => (result, generators, w)
  | sessionDbId :: rest =>
      if sessionsStarted result >=? sessionLimit then (result, generators, w)
      else if hasGenerator (store w) sessionDbId then
        recoverSessions env sessionLimit rest (skipped result) generators w
      else
        match Stores.initializeSession sessionDbId (store w) with
        | None =>
            recoverSessions env sessionLimit rest (skipped result) generators w
        | Some (l, st) =>
            let '(w1, agent) :=
              beginGenerator env l "startup-recovery"
                {| store := st; log := log w |} in
            recoverSessions env sessionLimit rest
              (started sessionDbId result) (generators ++ [(l, agent)]) w1
        end
  end.

Definition processPendingQueues (env : Env) (sessionLimit : Z) (w : World)
    : RecoveryResult * list (loc * AgentKind) * World :=
  let w1 := failStaleSessions w in
  let orphanedSessionIds := Stores.getSessionsWithPendingMessages (store w1) in
  let result :=
    {| totalPendingSessions := length orphanedSessionIds;
       sessionsStarted := 0; sessionsSkipped := 0;
       startedSessionIds := [] |} in
  recoverSessions env sessionLimit orphanedSessionIds result [] w1.

(** *** The worker process from [start()] on

    [initializeBackground] runs concurrently with the HTTP server, which
    listens first.  The process is a machine whose inputs are the events
    of the event loop. *)

Inductive InitPhase :=
| AwaitCleanup        (* [await cleanupOrphanedProcesses()] *)
| AwaitDatabase       (* [await this.dbManager.initialize()] *)
| AwaitMcp            (* [await Promise.race([mcpConnectionPromise, timeoutPromise])] *)
| Initialized
| InitializationFailed.

Record Server := {
  world : World;
  phase : InitPhase;
  initializationCompleteFlag : bool;
  parkedRequests : nat;     (* requests awaiting [initializationComplete] in the guard *)
  generators : list (loc * AgentKind)    (* generator promises not yet settled *)
}.

Inductive Input :=
| AwaitReturns (ok : bool)   (* the call awaited by [initializeBackground] resolves or throws *)
| ApiRequest                 (* a request under [/api] reaches the guard middleware *)
| GuardTimeout               (* the 30 s timer of a parked request fires: 503 *)
| GeneratorSettles (n : nat) (* the [n]-th unsettled generator promise settles *).

(** The route handlers are not in the sources: a handler changes the store
    and may start generators of its own. *)
Definition RouteHandler := Store -> Store * list (loc * AgentKind).

Definition startedByRoute (w : World) (g : loc * AgentKind) : World :=
  emit (EvStartGenerator (fst g) (snd g) "route") w.

(** [next()] past the guard: the route handler runs. *)
Definition runRoute (handler : RouteHandler) (s : Server) : Server :=
  let w := emit EvRouteHandler (world s) in
  let '(st, gs) := handler (store w) in
  {| world := fold_left startedByRoute gs {| store := st; log := log w |};
     phase := phase s;
     initializationCompleteFlag := initializationCompleteFlag s;
     parkedRequests := parkedRequests s;
     generators := generators s ++ gs |}.

Definition releaseParked (handler : RouteHandler) (s : Server) : Server :=
  let s' := Nat.iter (parkedRequests s) (runRoute handler) s in
  {| world := world s'; phase := phase s';
     initializationCompleteFlag := initializationCompleteFlag s';
     parkedRequests := 0; generators := generators s' |}.

Definition withPhase (p : InitPhase) (w : World) (s : Server) : Server :=
  {| world := w; phase := p;
     initializationCompleteFlag := initializationCompleteFlag s;
     parkedRequests := parkedRequests s; generators := generators s |}.

(** [initializeBackground] resumes after an [await]. *)
Definition resumeInitialization (env : Env) (handler : RouteHandler)
    (ok : bool) (s : Server) : Server :=
  match phase s with
  | AwaitCleanup =>
      if ok then withPhase AwaitDatabase (world s) s
      else withPhase InitializationFailed (world s) s
  | AwaitDatabase =>
      if ok then
        let '(resetCount, st) :=
          Stores.resetStaleProcessingMessages 0 (store (world s)) in
        withPhase AwaitMcp
          (emit (EvResetStaleProcessing 0 resetCount)
             {| store := st; log := log (world s) |}) s
      else withPhase InitializationFailed (world s) s
  | AwaitMcp =>
      if ok then
        let s1 :=
          {| world := emit EvInitializationComplete (world s);
             phase := Initialized;
             initializationCompleteFlag := true;
             parkedRequests := parkedRequests s;
             generators := generators s |} in
        let s2 := releaseParked handler s1 in
        let '(_, gs, w) := processPendingQueues env 50 (world s2) in
        {| world := w; phase := Initialized;
           initializationCompleteFlag := true;
           parkedRequests := 0; generators := generators s2 ++ gs |}
      else withPhase InitializationFailed (world s) s
  | Initialized | InitializationFailed => s
  end.

(** The guard [this.server.app.use('/api', ...)]. *)
Definition guardApiRequest (handler : RouteHandler) (s : Server) : Server :=
  if initializationCompleteFlag s then runRoute handler s
  else
    {| world := world s; phase := phase s;
       initializationCompleteFlag := initializationCompleteFlag s;
       parkedRequests := S (parkedRequests s); generators := generators s |}.

Definition guardTimeout (s : Server) : Server :=
  {| world := world s; phase := phase s;
     initializationCompleteFlag := initializationCompleteFlag s;
     parkedRequests := pred (parkedRequests s); generators := generators s |}.

Definition settleNth (agents : Agents) (env : Env) (n : nat) (s : Server)
    : Server :=
  match generators s !! n with
  | None => s
  | Some (l, agent) =>
      let '(_, restarted, w) := settleGenerator agents env l agent (world s) in
      {| world := w; phase := phase s;
         initializationCompleteFlag := initializationCompleteFlag s;
         parkedRequests := parkedRequests s;
         generators :=
           match restarted with
           | Some agent' => <[n := (l, agent')]> (generators s)
           | None => take n (generators s) ++ drop (S n) (generators s)
           end |}
  end.

Definition step (agents : Agents) (env : Env) (handler : RouteHandler)
    (i : Input) (s : Server) : Server :=
  match i with
  | AwaitReturns ok => resumeInitialization env handler ok s
  | ApiRequest => guardApiRequest handler s
  | GuardTimeout => guardTimeout s
  | GeneratorSettles n => settleNth agents env n s
  end.

Definition run (agents : Agents) (env : Env) (handler : RouteHandler)
    (inputs : list Input) (s : Server) : Server :=
  fold_left (fun s i => step agents env handler i s) inputs s.

(** The process right after [start()]: the constructor has created an
    empty session manager; the tables are those left by the previous
    run. *)
Definition atStart (sessionRows : list SdkSession)
    (messageRows : list PendingMessage) (at_epoch : Z) : Server :=
  {| world :=
       {| store := {| heap := ∅; sessions := ∅;
                      sdk_sessions := sessionRows;
                      pending_messages := messageRows;
                      nextController := 0%nat; nextLoc := 0%nat; now := at_epoch |};
          log := [] |};
     phase := AwaitCleanup;
     initializationCompleteFlag := false;
     parkedRequests := 0;
     generators := [] |}.

(** The events by which a processor is started or work is claimed. *)
Definition isProcessorEvent (e : Event) : bool :=
  match e with
  | EvStartGenerator _ _ _ | EvFallbackStart _ _ | EvRouteHandler => true
  | _ => false
  end.

Definition isResetAll (e : Event) : bool :=
  match e with
  | EvResetStaleProcessing threshold _ => threshold =? 0
  | _ => false
  end.

(** Every processor event of the log comes after a reset of all the
    messages in [processing] status; [seenReset] tells whether one has
    come before. *)
Fixpoint resetFirst (seenReset : bool) (events : list Event) : bool :=
  match events with
  | [] => true
  | e :: rest =>
      (negb (isProcessorEvent e) || seenReset)
      && resetFirst (seenReset || isResetAll e) rest
  end.

(** What holds of the worker process at any moment. *)
Definition startupInvariant (s : Server) : Prop :=
  resetFirst false (log (world s)) = true
  /\ (existsb isResetAll (log (world s)) = true
      \/ (initializationCompleteFlag s = false
          /\ generators s = []
          /\ phase s <> AwaitMcp /\ phase s <> Initialized)).

End Recovery.

(** ** CodexAgent.ts: [startSession] *)

Module Codex.

Inductive MessageType := observation | summarize.

(** A message yielded by [sessionManager.getMessageIterator]. *)
Record QueuedMessage := {
  _persistentId : Z;
  type : MessageType;
  tool_name : string;
  tool_input : string;          (* [JSON.stringify(message.tool_input)] *)
  tool_response : string;       (* [JSON.stringify(message.tool_response)] *)
  prompt_number : option Z;
  cwd : option string;
  last_assistant_message : option string
}.

(** What the agent does to its collaborators, in order. *)
Inductive Event :=
| EvPersistMemorySessionId (sessionDbId : Z) (memorySessionId : string)
    (* [getSessionStore().updateMemorySessionId(..)] *)
| EvQueryCodex (prompt : string)
| EvProcessAgentResponse (sessionDbId : Z) (text : string)
    (* the call that stores the observations and the summary *)
| EvFallbackToClaude (l : loc).

Record State := {
  store : Store;
  log : list Event        (* oldest first *)
}.

Inductive IterStep :=
| Yield (message : QueuedMessage)
| Done.

(** The collaborators of the agent that are not in the sources.  A call
    that is awaited may observe a store changed by the other tasks, and
    returns it. *)
Class Collaborators := {
  settings : History.Settings;
  findCodexExecutable : Store -> Js.value + string;
  buildInitPrompt : string -> string -> string -> string;
  buildContinuationPrompt : string -> Z -> string -> string;
  buildObservationPrompt : string -> string -> string -> Z -> option string -> string;
  buildSummaryPrompt : Z -> string -> string -> string -> string -> string;
  runCodex : string -> string -> Store -> (Js.value + string) * Store;
  processAgentResponse :
    string -> loc -> option Z -> option string -> Store -> (Js.value + unit) * Store;
  nextMessage : Z -> Store -> (Js.value + IterStep) * Store;
  isAbortError : Js.value -> bool;
  shouldFallbackToClaude : Js.value -> bool;
  fallbackAgent : option (loc -> Store -> (Js.value + unit) * Store)
}.

(** Computations of the agent: they read and write the state and may
    throw, or be still suspended when the fuel of the model runs out. *)
Inductive Result (A : Type) :=
| Returns (a : A)
| Throws (error : Js.value)
| Suspended.
Arguments Returns {A} a.
Arguments Throws {A} error.
Arguments Suspended {A}.

Definition M (A : Type) := State -> Result A * State.

Definition ret {A} (a : A) : M A := fun s => (Returns a, s).

Definition bind {A B} (m : M A) (k : A -> M B) : M B :=
  fun s =>
    match m s with
    | (Returns a, s') => k a s'
    | (Throws e, s') => (Throws e, s')
    | (Suspended, s') => (Suspended, s')
    end.

Definition throw {A} (e : Js.value) : M A := fun s => (Throws e, s).

Definition emit (e : Event) : M unit :=
  fun s => (Returns tt, {| store := store s; log := log s ++ [e] |}).

Definition getStore : M Store := fun s => (Returns (store s), s).

Definition modifyStore (f : Store -> Store) : M unit :=
  fun s => (Returns tt, {| store := f (store s); log := log s |}).

(** An awaited call to a collaborator. *)
Definition await {A} (call : Store -> (Js.value + A) * Store) : M A :=
  fun s =>
    match call (store s) with
    | (inr a, st) => (Returns a, {| store := st; log := log s |})
    | (inl e, st) => (Throws e, {| store := st; log := log s |})
    end.

Declare Scope codex_scope.
Delimit Scope codex_scope with codex.
Notation "x <- m ;; k" := (bind m (fun x => k))
  (at level 100, m at next level, right associativity) : codex_scope.
Notation "m ;; k" := (bind m (fun _ => k))
  (at level 100, right associativity) : codex_scope.
Local Open Scope codex_scope.

Section Agent.

Context `{Collaborators}.

(** The session object; a dangling reference does not occur. *)
Definition getSessionObject (l : loc) : M ActiveSession :=
  fun s =>
    match heap (store s) !! l with
    | Some session => (Returns session, s)
    | None => (Suspended, s)
    end.

Definition assign (l : loc) (f : ActiveSession -> ActiveSession) : M unit :=
  modifyStore (updateSession l f).

(** [session.conversationHistory.push(m)] *)
Definition pushHistory (l : loc) (m : ConversationMessage) : M unit :=
  assign l (fun session =>
    set_conversationHistory (conversationHistory session ++ [m]) session).

Definition roleLabel (r : Role) : string :=
  match r with assistant => "Assistant" | user => "User" end.

Definition newline : string := String (ascii_of_nat 10) EmptyString.

Definition formatHistoryForPrompt (history : list ConversationMessage) : string :=
  String.concat (newline ++ newline)
    (map (fun msg => roleLabel (role msg) ++ ":" ++ newline ++ content msg)
         history).

Definition queryCodexWithHistory (codexPath : string) (l : loc) : M string :=
  session <- getSessionObject l ;;
  let truncatedHistory :=
    History.truncateHistory settings (conversationHistory session) in
  let prompt := formatHistoryForPrompt truncatedHistory in
  emit (EvQueryCodex prompt) ;;
  await (runCodex codexPath prompt).

(** [`codex-${session.contentSessionId}-${Date.now()}`] *)
Definition syntheticMemorySessionId (session : ActiveSession) (at_epoch : Z)
    : string :=
  "codex-" ++ contentSessionId session ++ "-" ++ Worker.numberToString at_epoch.

Definition callProcessAgentResponse (text : string) (l : loc)
    (originalTimestamp : option Z) (lastCwd : option string) : M unit :=
  session <- getSessionObject l ;;
  emit (EvProcessAgentResponse (sessionDbId session) text) ;;
  await (processAgentResponse text l originalTimestamp lastCwd).

(** A string in a condition: the empty string is falsy. *)
Definition nonEmpty (text : string) : bool :=
  match text with EmptyString => false | _ => true end.

Definition noMemorySessionId (what : string) : Js.value :=
  Js.Error "Error"
    ("Cannot process " ++ what ++
     ": memorySessionId not yet captured. This session may need to be reinitialized.").

(** The body of the loop for one message; it yields the new [lastCwd]. *)
Definition processMessage (codexPath : string) (l : loc)
    (message : QueuedMessage) (lastCwd : option string) : M (option string) :=
  assign l (fun session =>
    set_processingMessageIds
      (processingMessageIds session ++ [_persistentId message]) session) ;;
  let lastCwd := if truthy (cwd message) then cwd message else lastCwd in
  session <- getSessionObject l ;;
  let originalTimestamp := earliestPendingTimestamp session in
  match type message with
  | observation =>
      (match prompt_number message with
       | Some n => assign l (set_lastPromptNumber n)
       | None => ret tt
       end) ;;
      session <- getSessionObject l ;;
      (if truthy (memorySessionId session) then ret tt
       else throw (noMemorySessionId "observations")) ;;
      st <- getStore ;;
      let obsPrompt :=
        buildObservationPrompt (tool_name message) (tool_input message)
          (tool_response message)
          (default (now st) originalTimestamp) (cwd message) in
      pushHistory l {| role := user; content := obsPrompt |} ;;
      obsResponse <- queryCodexWithHistory codexPath l ;;
      (if nonEmpty obsResponse
       then pushHistory l {| role := assistant; content := obsResponse |}
       else ret tt) ;;
      callProcessAgentResponse obsResponse l originalTimestamp lastCwd ;;
      ret lastCwd
  | summarize =>
      (if truthy (memorySessionId session) then ret tt
       else throw (noMemorySessionId "summary")) ;;
      let summaryPrompt :=
        buildSummaryPrompt (sessionDbId session)
          (default "" (memorySessionId session)) (project session)
          (userPrompt session)
          (default "" (last_assistant_message message)) in
      pushHistory l {| role := user; content := summaryPrompt |} ;;
      summaryResponse <- queryCodexWithHistory codexPath l ;;
      (if nonEmpty summaryResponse
       then pushHistory l {| role := assistant; content := summaryResponse |}
       else ret tt) ;;
      callProcessAgentResponse summaryResponse l originalTimestamp lastCwd ;;
      ret lastCwd
  end.

(** [for await (const message of getMessageIterator(sessionDbId))]; the
    agent is still suspended on the iterator when the fuel runs out. *)
Fixpoint consumeMessages (fuel : nat) (codexPath : string) (l : loc)
    (sessionDbId : Z) (lastCwd : option string) : M unit :=
  match fuel with
  | O => fun s => (Suspended, s)
  | S fuel' =>
      next <- await (nextMessage sessionDbId) ;;
      match next with
      | Done => ret tt
      | Yield message =>
          lastCwd' <- processMessage codexPath l message lastCwd ;;
          consumeMessages fuel' codexPath l sessionDbId lastCwd'
      end
  end.

(** "Generate synthetic memorySessionId (Codex CLI is stateless)". *)
Definition ensureMemorySessionId (l : loc) : M unit :=
  session <- getSessionObject l ;;
  if negb (truthy (memorySessionId session)) then
    st <- getStore ;;
    let syntheticId := syntheticMemorySessionId session (now st) in
    assign l (set_memorySessionId (Some syntheticId)) ;;
    modifyStore (Stores.updateMemorySessionId (sessionDbId session) (Some syntheticId)) ;;
    emit (EvPersistMemorySessionId (sessionDbId session) syntheticId)
  else ret tt.

(** The initial prompt and the loop over the queue. *)
Definition converse (fuel : nat) (codexPath : string) (l : loc) : M unit :=
  session <- getSessionObject l ;;
  let initPrompt :=
    if lastPromptNumber session =? 1
    then buildInitPrompt (project session) (contentSessionId session)
           (userPrompt session)
    else buildContinuationPrompt (userPrompt session)
           (lastPromptNumber session) (contentSessionId session) in
  pushHistory l {| role := user; content := initPrompt |} ;;
  initResponse <- queryCodexWithHistory codexPath l ;;
  (if nonEmpty initResponse then
     pushHistory l {| role := assistant; content := initResponse |} ;;
     callProcessAgentResponse initResponse l None None
   else ret tt) ;;
  consumeMessages fuel codexPath l (sessionDbId session) None.

(** The [try] block of [startSession]. *)
Definition startSessionBody (fuel : nat) (l : loc) : M unit :=
  codexPath <- await (fun st => (findCodexExecutable st, st)) ;;
  ensureMemorySessionId l ;;
  converse fuel codexPath l.

(** [startSession]: the body and its [catch] clause. *)
Definition startSession (fuel : nat) (l : loc) : M unit :=
  fun s =>
    match startSessionBody fuel l s with
    | (Throws error, s') =>
        if isAbortError error then (Throws error, s')
        else
          match shouldFallbackToClaude error, fallbackAgent with
          | true, Some claude =>
              (emit (EvFallbackToClaude l) ;; await (claude l)) s'
          | _, _ => (Throws error, s')
          end
    | r => r
    end.

End Agent.

(** A computation only appends to the log. *)
Definition grows {A} (m : M A) : Prop :=
  forall s, exists added, log (snd (m s)) = (log s ++ added)%list.

(** Modelled from the spec: [isAbortError] (agents/index.js) is missing;
    the "cancelled" class of section 4.3 is the abort of the session's
    cancellation token, which JavaScript reports as an error named
    [AbortError]. *)
Definition isAbortErrorByName (e : Js.value) : bool :=
  match e with
  | Js.Error name _ => String.eqb name "AbortError"
  | Js.Thrown _ | Js.ThrownObject _ _ => false
  end.

Definition isPersist (sessionDbId : Z) (e : Event) : bool :=
  match e with
  | EvPersistMemorySessionId sid v => (sid =? sessionDbId) && nonEmpty v
  | _ => false
  end.

Definition isInsert (e : Event) : bool :=
  match e with
  | EvProcessAgentResponse _ _ => true
  | _ => false
  end.

End Codex.

(** ** Contracts of the collaborators *)

Module Contracts.

Import Worker.

(** The session object at [l] carries the memory-session identifier [m]. *)
Definition holdsId (l : loc) (m : string) (st : Store) : Prop :=
  exists session, heap st !! l = Some session /\ memorySessionId session = Some m.

(** An agent leaves a memory-session identifier that is set alone
    (section 4.3: it mints one only for a session that lacks it). *)
Definition keepsMemorySessionId (agents : Agents) (l : loc) : Prop :=
  forall agent st settled st' m,
    startSession agents agent l st = (settled, st') ->
    m <> "" -> holdsId l m st -> holdsId l m st'.

(** Every row of the session [sid] carries [v] as its memory-session
    identifier. *)
Definition persistedAs (sid : Z) (v : option string) (st : Store) : Prop :=
  List.Forall (fun r => id r = sid -> memory_session_id r = v) (sdk_sessions st).



End Contracts.

(** ** The states in which an identifier has been minted *)

Module Minted.

(** The state of the Codex agent once it has minted the identifier of a
    session that lacked one, written it to the session object and to the
    rows of the session, and recorded the write. *)
Definition byCodex (l : loc) (session : ActiveSession) (s : Codex.State)
    : Codex.State :=
  let v := Codex.syntheticMemorySessionId session (now (Codex.store s)) in
  {| Codex.store :=
       Stores.updateMemorySessionId (sessionDbId session) (Some v)
         (updateSession l (set_memorySessionId (Some v)) (Codex.store s));
     Codex.log :=
       Codex.log s ++ [Codex.EvPersistMemorySessionId (sessionDbId session) v] |}.

(** The same for the orchestrator, before it invokes a fallback agent. *)
Definition forFallback (l : loc) (session : ActiveSession) (w : Worker.World)
    : Worker.World :=
  let v := Worker.fallbackSyntheticId (sessionDbId session) (now (Worker.store w)) in
  {| Worker.store :=
       Stores.updateMemorySessionId (sessionDbId session) (Some v)
         (updateSession l (set_memorySessionId (Some v)) (Worker.store w));
     Worker.log :=
       Worker.log w
       ++ [Worker.EvUpdateMemorySessionId (sessionDbId session) (Some v)] |}.

End Minted.

(** ** Sample data *)

Module Samples.

Import Worker.

Definition sampleSettings : History.Settings :=
  {| History.CLAUDE_MEM_CODEX_MAX_CONTEXT_MESSAGES := Some "2";
     History.CLAUDE_MEM_CODEX_MAX_TOKENS := None |}.

Definition sampleHistory : list ConversationMessage :=
  [ {| role := user; content := "first prompt" |};
    {| role := assistant; content := "first answer" |};
    {| role := user; content := "second prompt" |} ].

(** A negative limit in the settings file. *)
Definition negativeSettings : History.Settings :=
  {| History.CLAUDE_MEM_CODEX_MAX_CONTEXT_MESSAGES := Some "-1";
     History.CLAUDE_MEM_CODEX_MAX_TOKENS := None |}.

Definition session7 : ActiveSession :=
  {| sessionDbId := 7; contentSessionId := "content-7"; project := "open-mem";
     userPrompt := "fix the bug"; memorySessionId := Some "mem-7";
     forceInit := false; lastPromptNumber := 1;
     abortController := {| controllerId := 0%nat; aborted := false |};
     generatorPromise := true; conversationHistory := [];
     processingMessageIds := []; earliestPendingTimestamp := None |}.

Definition message1 : PendingMessage :=
  {| message_id := 1; session_db_id := 7; message_status := m_pending;
     started_processing_at_epoch := None; failed_at_epoch := None |}.

Definition row7 : SdkSession :=
  {| id := 7; status := s_active; started_at_epoch := 1000;
     completed_at_epoch := None; memory_session_id := Some "mem-7" |}.

(** One live session with one pending message. *)
Definition store7 : Store :=
  {| heap := {[ 0%nat := session7 ]}; sessions := {[ 7 := 0%nat ]};
     sdk_sessions := [row7]; pending_messages := [message1];
     nextController := 1%nat; nextLoc := 1%nat; now := 5000 |}.

Definition world7 : World :=
  {| store := store7; log := [EvStartGenerator 0%nat SDKAgent "init"] |}.

(** No fallback provider is configured. *)
Definition claudeOnly : Env :=
  {| CLAUDE_MEM_PROVIDER := "claude";
     isGeminiAvailable := false; isOpenRouterAvailable := false |}.


(** Every agent fails with [error] and leaves the store as it is. *)
Definition failingWith (error : Js.value) : Agents :=
  {| startSession := fun _ _ st => (Rejected error, st) |}.

(** Every agent returns at once and leaves the store as it is. *)
Definition quietAgents : Agents :=
  {| startSession := fun _ _ st => (Resolved, st) |}.

Definition spawnError : Js.value := Js.Error "Error" "spawn claude ENOENT".
Definition networkError : Js.value := Js.Error "Error" "socket hang up".

(** After an unclean shutdown: a message left in [processing] status and
    a pending one, of a recent session. *)
Definition crashedRows : list SdkSession :=
  [ {| id := 7; status := s_active; started_at_epoch := 4000;
       completed_at_epoch := None; memory_session_id := Some "mem-7" |} ].

Definition crashedMessages : list PendingMessage :=
  [ {| message_id := 1; session_db_id := 7; message_status := m_processing;
       started_processing_at_epoch := Some 4500; failed_at_epoch := None |};
    {| message_id := 2; session_db_id := 7; message_status := m_pending;
       started_processing_at_epoch := None; failed_at_epoch := None |} ].

(** A route handler that starts nothing and leaves the store alone. *)
Definition idleRoute : Recovery.RouteHandler := fun st => (st, []).

(** A request arrives while the database is still being opened. *)
Definition earlyRequest : list Recovery.Input :=
  [ Recovery.AwaitReturns true; Recovery.ApiRequest;
    Recovery.AwaitReturns true; Recovery.AwaitReturns true ].

(** Scenario 3 of the specification: a session idle for seven hours with
    one pending message. *)
Definition idleRow : SdkSession :=
  {| id := 3; status := s_active; started_at_epoch := 0;
     completed_at_epoch := None; memory_session_id := None |}.

Definition idleMessage : PendingMessage :=
  {| message_id := 11; session_db_id := 3; message_status := m_pending;
     started_processing_at_epoch := None; failed_at_epoch := None |}.

Definition idleWorld : World :=
  {| store := {| heap := ∅; sessions := ∅; sdk_sessions := [idleRow];
                 pending_messages := [idleMessage];
                 nextController := 0%nat; nextLoc := 0%nat;
                 now := 7 * 60 * 60 * 1000 |};
     log := [] |}.

(** A session that has no memory-session identifier yet. *)
Definition newSession : ActiveSession :=
  {| sessionDbId := 7; contentSessionId := "content-7"; project := "open-mem";
     userPrompt := "fix the bug"; memorySessionId := None;
     forceInit := false; lastPromptNumber := 1;
     abortController := {| controllerId := 0%nat; aborted := false |};
     generatorPromise := true; conversationHistory := [];
     processingMessageIds := []; earliestPendingTimestamp := None |}.

Definition newStore : Store :=
  {| heap := {[ 0%nat := newSession ]}; sessions := {[ 7 := 0%nat ]};
     sdk_sessions := [ {| id := 7; status := s_active; started_at_epoch := 1000;
                          completed_at_epoch := None; memory_session_id := None |} ];
     pending_messages := [message1];
     nextController := 1%nat; nextLoc := 1%nat; now := 5000 |}.

Definition toolUse : Codex.QueuedMessage :=
  {| Codex._persistentId := 1; Codex.type := Codex.observation;
     Codex.tool_name := "Read"; Codex.tool_input := "{}";
     Codex.tool_response := "{}"; Codex.prompt_number := Some 1;
     Codex.cwd := Some "/repo"; Codex.last_assistant_message := None |}.

(** Collaborators of the Codex agent: the executable is found, the CLI
    answers every prompt, the queue yields one observation. *)
Definition sampleCollaborators : Codex.Collaborators :=
  {| Codex.settings := sampleSettings;
     Codex.findCodexExecutable := fun _ => inr "/usr/bin/codex";
     Codex.buildInitPrompt := fun _ _ prompt => "init: " ++ prompt;
     Codex.buildContinuationPrompt := fun prompt _ _ => "continue: " ++ prompt;
     Codex.buildObservationPrompt := fun tool _ _ _ _ => "observed: " ++ tool;
     Codex.buildSummaryPrompt := fun _ _ _ _ _ => "summarize";
     Codex.runCodex := fun _ _ st => (inr "<observation/>", st);
     Codex.processAgentResponse := fun _ _ _ _ st => (inr tt, st);
     Codex.nextMessage :=
       fun _ st =>
         (inr match heap st !! 0%nat with
              | Some session =>
                  match processingMessageIds session with
                  | [] => Codex.Yield toolUse
                  | _ => Codex.Done
                  end
              | None => Codex.Done
              end, st);
     Codex.isAbortError := Codex.isAbortErrorByName;
     Codex.shouldFallbackToClaude := fun _ => false;
     Codex.fallbackAgent := None |}.

Definition codexRun : Codex.State :=
  snd (@Codex.startSession sampleCollaborators 3 0%nat
         {| Codex.store := newStore; Codex.log := [] |}).



End Samples.

(** ** More of JavaScript's strings *)

Module Text.

(** [s.startsWith(p)] *)
Definition startsWith (s p : string) : bool := String.prefix p s.

(** [s.endsWith(p)] *)
Fixpoint endsWith (s p : string) : bool :=
  String.eqb s p ||
  match s with
  | EmptyString => false
  | String _ s' => endsWith s' p
  end.

(** [s.split(sep)] for a separator of one character: the pieces between
    the separators, at least one. *)
Fixpoint split (sep : ascii) (s : string) : list string :=
  match s with
  | EmptyString => [EmptyString]
  | String c s' =>
      if Ascii.eqb c sep then EmptyString :: split sep s'
      else
        match split sep s' with
        | piece :: pieces => String c piece :: pieces
        | [] => [String c EmptyString]
        end
  end.

(** [pieces.join(sep)] *)
Definition join (sep : ascii) (pieces : list string) : string :=
  String.concat (String sep EmptyString) pieces.

(** [!s.trim()]: nothing but white space. *)
Fixpoint isBlank (s : string) : bool :=
  match s with
  | EmptyString => true
  | String c s' => Js.isWhiteSpace c && isBlank s'
  end.

(** A string in a condition: the empty string is falsy. *)
Definition nonEmpty (s : string) : bool :=
  match s with EmptyString => false | _ => true end.

(** [v || d] on strings that may be undefined or null. *)
Definition orElse (v : option string) (d : string) : string :=
  match v with
  | Some s => if nonEmpty s then s else d
  | None => d
  end.

Definition lineFeed : ascii := ascii_of_nat 10.

(** The character [c] does not occur in [s]. *)
Fixpoint lacks (c : ascii) (s : string) : bool :=
  match s with
  | EmptyString => true
  | String d s' => negb (Ascii.eqb d c) && lacks c s'
  end.

End Text.

(** ** scripts/ingest-codex-jsonl.mjs: the command line *)

Module Args.

(** [args.indexOf(name)] *)
Fixpoint indexOf (name : string) (args : list string) : option nat :=
  match args with
  | [] => None
  | arg :: rest =>
      if String.eqb arg name then Some O
      else option_map S (indexOf name rest)
  end.

(** [getArgValue]: [name=value] first, else the argument after [name]. *)
Definition getArgValue (args : list string) (name : string) : option string :=
  match List.find (fun arg => Text.startsWith arg (name ++ "=")) args with
  | Some direct =>
      if Text.nonEmpty direct
      then Some (Text.join "=" (List.tl (Text.split "=" direct)))
      else
        match indexOf name args with
        | Some idx => nth_error args (S idx)
        | None => None
        end
  | None =>
      match indexOf name args with
      | Some idx => nth_error args (S idx)
      | None => None
      end
  end.

(** [hasFlag] *)
Definition hasFlag (args : list string) (name : string) : bool :=
  existsb (fun arg => String.eqb arg name) args.

End Args.

(** ** scripts/ingest-codex-jsonl.mjs: the watcher of a Codex session file

    The file is a string of bytes; sizes and offsets count bytes.  The
    bytes of one read are turned into text by [Buffer.toString('utf8')],
    a parameter, as are [JSON.parse], [basename] and the regular
    expression of [extractSessionId]; the text kept in [state.buffer] and
    the lines are decoded text.  The two POST requests are recorded as
    they are attempted (their failure is caught and only logged). *)

Module Ingest.

(** A JSON value as far as the script tells values apart. *)
Inductive Json :=
| JString (s : string)
| JParsed (text : string)      (* the value of [JSON.parse(text)] *)
| JOther (repr : string).

(** The properties of [entry.payload] the script reads; [None] when the
    property is absent. *)
Record Payload := {
  p_type : option string;
  p_cwd : option string;
  p_message : option string;
  p_call_id : option string;
  p_name : option string;
  p_arguments : option Json;
  p_output : option Json
}.

Record Entry := {
  e_type : option string;
  e_payload : option Payload
}.

(** The result of [JSON.parse(line)]: a syntax error, [null] (whose
    properties cannot be read), or a value. *)
Inductive Parsed :=
| SyntaxError
| Null
| Value (entry : Entry).

Record PendingCall := {
  tool_name : option string;
  tool_input : option Json
}.

(** The requests sent to the worker. *)
Inductive Post :=
| PostInit (contentSessionId project prompt : string)
| PostObservation (contentSessionId : string) (call : PendingCall)
    (tool_response : option Json) (cwd : option string).

(** [state], [pendingCalls] and the requests made so far. *)
Record State := {
  filePath : option string;
  offset : nat;
  buffer : string;
  contentSessionId : option string;
  cwd : option string;
  pendingCalls : gmap string PendingCall;
  posts : list Post          (* oldest first *)
}.

Definition initialState : State :=
  {| filePath := None; offset := 0; buffer := ""; contentSessionId := None;
     cwd := None; pendingCalls := ∅; posts := [] |}.

Definition set_cwd (v : option string) (st : State) : State :=
  {| filePath := filePath st; offset := offset st; buffer := buffer st;
     contentSessionId := contentSessionId st; cwd := v;
     pendingCalls := pendingCalls st; posts := posts st |}.

Definition set_pendingCalls (v : gmap string PendingCall) (st : State) : State :=
  {| filePath := filePath st; offset := offset st; buffer := buffer st;
     contentSessionId := contentSessionId st; cwd := cwd st;
     pendingCalls := v; posts := posts st |}.

Definition post (r : Post) (st : State) : State :=
  {| filePath := filePath st; offset := offset st; buffer := buffer st;
     contentSessionId := contentSessionId st; cwd := cwd st;
     pendingCalls := pendingCalls st; posts := posts st ++ [r] |}.

Definition set_reading (o : nat) (b : string) (st : State) : State :=
  {| filePath := filePath st; offset := o; buffer := b;
     contentSessionId := contentSessionId st; cwd := cwd st;
     pendingCalls := pendingCalls st; posts := posts st |}.

Definition equals (v : option string) (expected : string) : bool :=
  match v with
  | Some s => String.eqb s expected
  | None => false
  end.

Definition truthyString (v : option string) : option string :=
  match v with
  | Some s => if Text.nonEmpty s then Some s else None
  | None => None
  end.

(** [entry.payload?.field] *)
Definition payloadField {A} (field : Payload -> option A) (entry : Entry) : option A :=
  match e_payload entry with
  | Some payload => field payload
  | None => None
  end.

Section Watcher.

Variable parse : string -> Parsed.          (* [JSON.parse] *)
Variable basename : string -> string.       (* [path.basename] *)
Variable extractSessionId : string -> string.
Variable fromStart : bool.                  (* [hasFlag('--from-start')] *)
Variable decode : string -> string.         (* [buffer.toString('utf8')] *)

(** The arguments of a function call: a string is parsed if it can be. *)
Definition toolInputOf (arguments : option Json) : option Json :=
  match arguments with
  | Some (JString text) =>
      match parse text with
      | SyntaxError => Some (JString text)
      | _ => Some (JParsed text)
      end
  | other => other
  end.

(** [processLine] on an entry that has been parsed. *)
Definition processEntry (entry : Entry) (st : State) : State :=
  if equals (e_type entry) "turn_context"
     && bool_decide (is_Some (truthyString (payloadField p_cwd entry)))
  then set_cwd (payloadField p_cwd entry) st
  else if equals (e_type entry) "event_msg"
          && equals (payloadField p_type entry) "user_message"
  then
    match truthyString (contentSessionId st) with
    | None => st
    | Some sessionId =>
        let prompt := Text.orElse (payloadField p_message entry) "" in
        if Text.isBlank prompt then st
        else
          let project :=
            match truthyString (cwd st) with
            | Some dir => basename dir
            | None => "unknown"
            end in
          post (PostInit sessionId project prompt) st
    end
  else if equals (e_type entry) "response_item"
          && equals (payloadField p_type entry) "function_call"
  then
    match truthyString (payloadField p_call_id entry) with
    | None => st
    | Some callId =>
        set_pendingCalls
          (<[callId := {| tool_name := payloadField p_name entry;
                          tool_input := toolInputOf (payloadField p_arguments entry) |}]>
             (pendingCalls st)) st
    end
  else if equals (e_type entry) "response_item"
          && equals (payloadField p_type entry) "function_call_output"
  then
    match truthyString (payloadField p_call_id entry) with
    | None => st
    | Some callId =>
        match pendingCalls st !! callId, truthyString (contentSessionId st) with
        | Some pending, Some sessionId =>
            post (PostObservation sessionId pending
                    (payloadField p_output entry) (cwd st))
              (set_pendingCalls (delete callId (pendingCalls st)) st)
        | _, _ => st
        end
    end
  else st.

(** [processLine]; [None] when it throws (reading a property of [null]). *)
Definition processLine (line : string) (st : State) : option State :=
  if Text.isBlank line then Some st
  else
    match parse line with
    | SyntaxError => Some st
    | Null => None
    | Value entry => Some (processEntry entry st)
    end.

(** [for (const line of lines) await processLine(line)]; the flag tells
    whether the loop has been left by an exception. *)
Fixpoint processLines (lines : list string) (st : State) : State * bool :=
  match lines with
  | [] => (st, false)
  | line :: rest =>
      match processLine line st with
      | Some st' => processLines rest st'
      | None => (st, true)
      end
  end.

(** The [try] block of [readNewLines] once the new bytes [chunk] have
    been read: they are decoded on their own and appended to the text
    kept, the complete lines are processed, the rest is kept. *)
Definition consume (size : nat) (chunk : string) (st : State) : State * bool :=
  let text := buffer st ++ decode chunk in
  let lines := Text.split Text.lineFeed text in
  processLines (removelast lines) (set_reading size (List.last lines "") st).

(** [readNewLines]; [file] is the content of [state.filePath], [None]
    when [stat] fails.  Once [stat] has succeeded, [open] and [read] are
    taken to succeed and to give the bytes up to the size found. *)
Definition readNewLines (file : option string) (st : State) : State * bool :=
  match filePath st with
  | None => (st, false)
  | Some _ =>
      match file with
      | None => (st, false)
      | Some content =>
          let size := String.length content in
          let st1 := if (size <? offset st)%nat then set_reading 0 "" st else st in
          if (size =? offset st1)%nat then (st1, false)
          else
            consume size
              (String.substring (offset st1) (size - offset st1) content) st1
      end
  end.

(** [switchFile]; [size] is the size of the file, [None] when [stat]
    throws (the state has been changed by then, the offset has not). *)
Definition switchFile (path : string) (size : option nat) (st : State)
    : State * bool :=
  if bool_decide (filePath st = Some path) then (st, false)
  else
    let st1 :=
      {| filePath := Some path; offset := offset st; buffer := "";
         contentSessionId := Some ("codex-" ++ extractSessionId path);
         cwd := cwd st; pendingCalls := ∅; posts := posts st |} in
    match size with
    | None => (st1, true)
    | Some n => (set_reading (if fromStart then 0 else n) "" st1, false)
    end.

End Watcher.

(** *** [findLatestFile] *)

(** A directory entry: a file with its [mtimeMs] ([None] when [stat]
    fails), a directory with its entries ([None] when [readdir] fails),
    or something else. *)
#[warnings="-register-all"]
Inductive Node :=
| File (name : string) (mtimeMs : option Z)
| Directory (name : string) (entries : option (list Node))
| Special (name : string).

(** [isCodexRollout] *)
Definition isCodexRollout (name : string) : bool :=
  Text.startsWith name "rollout-" && Text.endsWith name ".jsonl".

(** [latestFile] and [latestMtime]. *)
Definition Latest : Type := option string * Z.

(** The test [stats.mtimeMs > latestMtime] on one rollout file and the two
    assignments that follow it. *)
Definition pick (latest : Latest) (file : string * Z) : Latest :=
  if snd file >? snd latest then (Some (fst file), snd file) else latest.

Section Scan.

Variable pathJoin : string -> string -> string.     (* [path.join] *)

(** The body of the loop of [scan] for one entry of [dir]. *)
Fixpoint visit (dir : string) (entry : Node) (latest : Latest) : Latest :=
  match entry with
  | Directory name entries =>
      match entries with
      | Some nodes =>
          fold_left (fun acc node => visit (pathJoin dir name) node acc) nodes latest
      | None => latest
      end
  | File name mtimeMs =>
      if isCodexRollout name then
        match mtimeMs with
        | Some t => if t >? snd latest then (Some (pathJoin dir name), t) else latest
        | None => latest
        end
      else latest
  | Special _ => latest
  end.

(** [scan(dir)] on the entries [readdir] has returned. *)
Definition scan (dir : string) (entries : list Node) (latest : Latest) : Latest :=
  fold_left (fun acc node => visit dir node acc) entries latest.

(** [findLatestFile]; [root] is what [readdir(rootDir)] returns. *)
Definition findLatestFile (rootDir : string) (root : option (list Node))
    : option string :=
  match root with
  | Some entries => fst (scan rootDir entries (None, 0))
  | None => None
  end.

(** The rollout files under a directory that can be examined, in the order
    of the scan, with their times. *)
Fixpoint rolloutsOf (dir : string) (entry : Node) : list (string * Z) :=
  match entry with
  | Directory name (Some nodes) =>
      flat_map (rolloutsOf (pathJoin dir name)) nodes
  | File name (Some t) =>
      if isCodexRollout name then [(pathJoin dir name, t)] else []
  | _ => []
  end.

Definition rollouts (dir : string) (entries : list Node) : list (string * Z) :=
  flat_map (rolloutsOf dir) entries.

End Scan.

(** *** What a run of the watcher has read and sent *)

Definition isObservation (p : Post) : bool :=
  match p with
  | PostObservation _ _ _ _ => true
  | PostInit _ _ _ => false
  end.

(** The number of observations sent so far. *)
Definition observations (st : State) : nat :=
  length (List.filter isObservation (posts st)).

(** The line is a [function_call] response item. *)
Definition isFunctionCall (parse : string -> Parsed) (line : string) : bool :=
  negb (Text.isBlank line) &&
  match parse line with
  | Value entry =>
      equals (e_type entry) "response_item"
      && equals (payloadField p_type entry) "function_call"
  | _ => false
  end.

Definition functionCalls (parse : string -> Parsed) (lines : list string) : nat :=
  length (List.filter (isFunctionCall parse) lines).

(** The two response items of a tool call, as Codex writes them. *)
Definition functionCall (callId name : string) (arguments : option Json) : Entry :=
  {| e_type := Some "response_item";
     e_payload := Some {| p_type := Some "function_call"; p_cwd := None;
                          p_message := None; p_call_id := Some callId;
                          p_name := Some name; p_arguments := arguments;
                          p_output := None |} |}.

Definition functionCallOutput (callId : string) (output : option Json) : Entry :=
  {| e_type := Some "response_item";
     e_payload := Some {| p_type := Some "function_call_output"; p_cwd := None;
                          p_message := None; p_call_id := Some callId;
                          p_name := None; p_arguments := None;
                          p_output := output |} |}.

End Ingest.

(** Fixtures of the watcher. *)

Module IngestSamples.

Import Ingest.

(** A parser of four lines. *)
Definition parse (line : string) : Parsed :=
  if String.eqb line "null" then Null
  else if String.eqb line "call"
  then Value (functionCall "call_1" "shell" (Some (JString "ls")))
  else if String.eqb line "output"
  then Value (functionCallOutput "call_1" (Some (JString "README.md")))
  else SyntaxError.

Definition basename (path : string) : string :=
  List.last (Text.split "/" path) "".

Definition extractSessionId (path : string) : string := basename path.

(** The bytes of ASCII text are its characters. *)
Definition decode (bytes : string) : string := bytes.

(** A session file as it grows: one line, then a second line and the
    first bytes of a third. *)
Definition firstLine : string := "call" ++ String Text.lineFeed "".

Definition moreLines : string := "output" ++ String Text.lineFeed "ca".

(** The two bytes of a character, and a decoder that gives [e] for the
    pair and the replacement [?] for a byte on its own. *)
Definition twoBytes : string :=
  String (ascii_of_nat 195) (String (ascii_of_nat 169) "").

Definition lossy (bytes : string) : string :=
  if String.eqb bytes twoBytes then "e"
  else if (String.length bytes =? 1)%nat then "?"
  else bytes.

(** Three lines, the first of which is the JSON value [null]. *)
Definition poisoned : string :=
  "null" ++ String Text.lineFeed
    ("call" ++ String Text.lineFeed ("output" ++ String Text.lineFeed "")).

Definition watching : State :=
  fst (switchFile extractSessionId true "/sessions/rollout-1.jsonl" (Some 0%nat)
         initialState).

(** The watcher after the call of the first line, and far into a file
    that has since been replaced by a shorter one. *)
Definition called : State :=
  processEntry parse basename (functionCall "call_1" "shell" None) watching.

Definition farAhead : State := set_reading 100 "ca" watching.

(** A tree with two rollout files and a file that is none. *)
Definition tree : list Node :=
  [ Directory "2025" (Some [ File "rollout-a.jsonl" (Some 10);
                             File "notes.txt" (Some 99) ]);
    File "rollout-b.jsonl" (Some 20);
    Directory "locked" None ].

Definition pathJoin (dir name : string) : string := dir ++ "/" ++ name.

End IngestSamples.

(** ** Conditions on the worker process *)

Module Conditions.

Import Worker Recovery.

(** Nothing has been served yet: the guard is closed, no generator is
    running, and neither a route handler nor a processor has started. *)
Definition notServing (s : Server) : Prop :=
  initializationCompleteFlag s = false
  /\ generators s = []
  /\ existsb isProcessorEvent (log (world s)) = false.

End Conditions.

(** More fixtures. *)

Module Fixtures.

(** A limit of two tokens, that is eight characters. *)
Definition tightSettings : History.Settings :=
  {| History.CLAUDE_MEM_CODEX_MAX_CONTEXT_MESSAGES := None;
     History.CLAUDE_MEM_CODEX_MAX_TOKENS := Some "2" |}.

(** The database fails to open. *)
Definition databaseFails : list Recovery.Input :=
  [Recovery.AwaitReturns true; Recovery.AwaitReturns false].

End Fixtures.

(** ** worker-service.ts: starting the worker daemon *)

Module Startup.

Definition WINDOWS_SPAWN_COOLDOWN_MS : Z := 2 * 60 * 1000.

(** The file [.worker-start-attempted] of the data directory: absent, or
    present with its [mtimeMs] ([None] when [statSync] throws). *)
Inductive LockFile :=
| Absent
| Present (mtimeMs : option Z).

Record Host := {
  win32 : bool;             (* [process.platform === 'win32'] *)
  dataDirWritable : bool    (* [writeFileSync] and [unlinkSync] succeed there *)
}.

Definition shouldSkipSpawnOnWindows (host : Host) (now : Z) (lock : LockFile) : bool :=
  if negb (win32 host) then false
  else
    match lock with
    | Absent => false
    | Present (Some modifiedTimeMs) => now - modifiedTimeMs <? WINDOWS_SPAWN_COOLDOWN_MS
    | Present None => false
    end.

(** The file system stamps the file with the time of [Date.now()]. *)
Definition markWorkerSpawnAttempted (host : Host) (now : Z) (lock : LockFile) : LockFile :=
  if negb (win32 host) then lock
  else if dataDirWritable host then Present (Some now)
  else lock.

Definition clearWorkerSpawnAttempted (host : Host) (lock : LockFile) : LockFile :=
  if negb (win32 host) then lock
  else
    match lock with
    | Absent => lock
    | Present _ => if dataDirWritable host then Absent else lock
    end.

(** What the calls of [ensureWorkerStarted] to the outside return. *)
Record Probes := {
  healthyAtOnce : bool;        (* [waitForHealth(port, 1000)] *)
  versionMatches : bool;       (* [checkVersionMatch(port).matches] *)
  portFreed : bool;            (* [waitForPortFree] after [httpShutdown] *)
  portInUse : bool;            (* [isPortInUse(port)] *)
  healthyWhileInUse : bool;    (* [waitForHealth(port, getPlatformTimeout(15000))] *)
  spawnDaemon : option Z;      (* the pid, or undefined *)
  healthyAfterSpawn : bool     (* [waitForHealth(port, getPlatformTimeout(30000))] *)
}.

Inductive Action :=
| HttpShutdown
| RemovePidFile
| SpawnDaemon.

(** [ensureWorkerStarted]: the result, the lock file it leaves and what it
    has done, in order.  [now] is the time at which the lock is examined
    and written. *)
Definition ensureWorkerStarted (host : Host) (probes : Probes) (now : Z)
    (lock : LockFile) : bool * LockFile * list Action :=
  if healthyAtOnce probes && versionMatches probes then (true, lock, [])
  else if healthyAtOnce probes && negb (portFreed probes)
  then (false, lock, [HttpShutdown])
  else
    let done := if healthyAtOnce probes then [HttpShutdown; RemovePidFile] else [] in
    if portInUse probes then (healthyWhileInUse probes, lock, done)
    else if shouldSkipSpawnOnWindows host now lock then (false, lock, done)
    else
      let lock1 := markWorkerSpawnAttempted host now lock in
      match spawnDaemon probes with
      | None => (false, lock1, (done ++ [SpawnDaemon])%list)
      | Some _ =>
          if healthyAfterSpawn probes
          then (true, clearWorkerSpawnAttempted host lock1, (done ++ [SpawnDaemon])%list)
          else (false, lock1, (done ++ [SpawnDaemon; RemovePidFile])%list)
      end.

Definition spawned (actions : list Action) : bool :=
  existsb (fun a => match a with SpawnDaemon => true | _ => false end) actions.

End Startup.

(** Fixtures of the start. *)

Module StartupSamples.

Import Startup.

Definition windows : Host := {| win32 := true; dataDirWritable := true |}.

Definition linux : Host := {| win32 := false; dataDirWritable := true |}.

(** No worker answers, the port is free, the daemon starts but never
    becomes healthy. *)
Definition neverHealthy : Probes :=
  {| healthyAtOnce := false; versionMatches := false; portFreed := false;
     portInUse := false; healthyWhileInUse := false;
     spawnDaemon := Some 4242; healthyAfterSpawn := false |}.

(** The daemon starts and answers. *)
Definition startsWell : Probes :=
  {| healthyAtOnce := false; versionMatches := false; portFreed := false;
     portInUse := false; healthyWhileInUse := false;
     spawnDaemon := Some 4242; healthyAfterSpawn := true |}.

End StartupSamples.

(** ** CodexAgent.ts: finding the Codex executable *)

Module Executable.

(** The file system and [path], as far as the search reads them. *)
Record FileSystem := {
  existsSync : string -> bool;
  readFileSync : string -> option string;      (* [None]: it throws *)
  resolve : string -> string;                  (* [path.resolve] *)
  join : string -> string -> string;           (* [path.join] *)
  dirname : string -> string                   (* [path.dirname] *)
}.

Record Process := {
  PATH : option string;         (* [process.env.PATH] *)
  HOME : option string;         (* [process.env.HOME] *)
  USER : option string;         (* [process.env.USER] *)
  delimiter : ascii;            (* [path.delimiter] *)
  win32 : bool
}.

Section Search.

Variable fs : FileSystem.
Variable proc : Process.

Definition executableName : string :=
  if win32 proc then "codex.exe" else "codex".

(** [pathVar.split(path.delimiter).filter(Boolean)] *)
Definition pathDirectories : list string :=
  List.filter Text.nonEmpty (Text.split (delimiter proc) (Text.orElse (PATH proc) "")).

Definition excluded (excludeDir : option string) (dir : string) : bool :=
  match Ingest.truthyString excludeDir with
  | Some other => String.eqb (resolve fs dir) (resolve fs other)
  | None => false
  end.

(** The loop of [findCodexOnPath]. *)
Fixpoint firstCandidate (excludeDir : option string) (dirs : list string)
    : option string :=
  match dirs with
  | [] => None
  | dir :: rest =>
      if excluded excludeDir dir then firstCandidate excludeDir rest
      else
        let candidate := join fs dir executableName in
        if existsSync fs candidate then Some candidate
        else firstCandidate excludeDir rest
  end.

Definition findCodexOnPath (excludeDir : option string) : option string :=
  firstCandidate excludeDir pathDirectories.

Definition isWrapperCodex (candidate : string) : bool :=
  match readFileSync fs candidate with
  | Some content =>
      Js.includes content "start-worker-if-needed.sh"
      || Js.includes content "start-codex-ingest-if-needed.sh"
  | None => false
  end.

(** [resolveCodexExecutable]; [configured] is
    [settings.CLAUDE_MEM_CODEX_PATH]. *)
Definition resolveCodexExecutable (configured : option string) : option string :=
  match Ingest.truthyString configured with
  | Some codexPath => if existsSync fs codexPath then Some codexPath else None
  | None =>
      match Ingest.truthyString (findCodexOnPath None) with
      | None => None
      | Some found =>
          if isWrapperCodex found then
            let wrapperDir := dirname fs found in
            match Ingest.truthyString (findCodexOnPath (Some wrapperDir)) with
            | Some alt => if negb (String.eqb alt found) then Some alt else Some found
            | None => Some found
            end
          else Some found
      end
  end.

Definition isCodexAvailable (configured : option string) : bool :=
  match resolveCodexExecutable configured with
  | Some _ => true
  | None => false
  end.

Definition missingConfigured (codexPath : string) : Js.value :=
  Js.Error "Error"
    ("CLAUDE_MEM_CODEX_PATH is set to " ++ String (ascii_of_nat 34) codexPath
       ++ String (ascii_of_nat 34) " but the file does not exist.").

Definition notFound : Js.value :=
  Js.Error "Error"
    ("Codex executable not found. Please either:" ++ String Text.lineFeed
       ("1. Add " ++ String (ascii_of_nat 34) ("codex" ++ String (ascii_of_nat 34)
       (" to your system PATH, or" ++ String Text.lineFeed
       "2. Set CLAUDE_MEM_CODEX_PATH in ~/.claude-mem/settings.json")))).

(** [findCodexExecutable]: the path, or the error it throws. *)
Definition findCodexExecutable (configured : option string) : Js.value + string :=
  match Ingest.truthyString configured with
  | Some codexPath =>
      if negb (existsSync fs codexPath) then inl (missingConfigured codexPath)
      else inr codexPath
  | None =>
      match Ingest.truthyString (resolveCodexExecutable configured) with
      | Some resolved => inr resolved
      | None => inl notFound
      end
  end.

(** [resolveCodexHome] *)
Definition hasCodex (home : string) : bool :=
  existsSync fs (join fs home ".codex").

Definition resolveCodexHome : option string :=
  let envHome := Ingest.truthyString (HOME proc) in
  if match envHome with Some home => hasCodex home | None => false end
  then envHome
  else
    let userHome :=
      match Ingest.truthyString (USER proc) with
      | Some name =>
          if hasCodex (join fs "/home" name) then Some (join fs "/home" name)
          else None
      | None => None
      end in
    match userHome with
    | Some home => Some home
    | None =>
        if existsSync fs "/home/ubuntu/.codex" then Some "/home/ubuntu"
        else envHome
    end.

End Search.

End Executable.

(** Fixtures of the search. *)

Module ExecutableSamples.

Import Executable.

(** Two directories on the path: the first holds the wrapper script of
    the plugin, the second the Codex binary. *)
Definition wrapped : FileSystem :=
  {| existsSync := fun p =>
       String.eqb p "/plugin/bin/codex" || String.eqb p "/usr/bin/codex";
     readFileSync := fun p =>
       if String.eqb p "/plugin/bin/codex"
       then Some "exec start-worker-if-needed.sh" else Some "ELF";
     resolve := fun p => p;
     join := fun dir name => dir ++ "/" ++ name;
     dirname := fun p =>
       if String.eqb p "/plugin/bin/codex" then "/plugin/bin" else "/usr/bin" |}.

Definition shell : Process :=
  {| PATH := Some "/plugin/bin:/usr/bin"; HOME := Some "/root"; USER := None;
     delimiter := ":"; win32 := false |}.

End ExecutableSamples.

(** ** SettingsDefaultsManager.ts: [loadFromFile] and the settings file *)

Module SettingsFile.

Import SettingsDefaultsManager.

(** A JSON value as far as [loadFromFile] tells values apart: a string,
    an object (or array) with its properties, or another value that is
    not [null] at the top (a number, a boolean, [null] as a property). *)
#[warnings="-register-all"]
Inductive Value :=
| VString (s : string)
| VObject (properties : string -> option Value)
| VOther (repr : string).

(** The settings file as [loadFromFile] finds it: missing, unreadable
    (no permission, not JSON, the value [null]), or the value it holds.
    [JSON.parse] gives back what [JSON.stringify] has written. *)
Inductive File :=
| Missing
| Unreadable
| Parsed (settings : Value).

(** A settings object: its values are whatever the file holds. *)
Definition settingsObject := string -> option Value.

(** [v[key]] *)
Definition property (v : Value) (key : string) : option Value :=
  match v with
  | VObject properties => properties key
  | VString _ | VOther _ => None
  end.

Definition isDefaultKey (key : string) : bool :=
  existsb (String.eqb key) DEFAULT_KEYS.

(** [getAllDefaults] *)
Definition getAllDefaults (defaults : string -> string) : settingsObject :=
  fun key => if isDefaultKey key then Some (VString (defaults key)) else None.

(** [applyEnvOverrides] *)
Definition applyEnvOverrides (env : object) (settings : settingsObject)
    : settingsObject :=
  fun key =>
    if isDefaultKey key then
      match env key with
      | Some v => Some (VString v)
      | None => settings key
      end
    else settings key.

(** The merge of the file settings with the defaults. *)
Definition mergeWithDefaults (defaults : string -> string) (flatSettings : Value)
    : settingsObject :=
  fun key =>
    if isDefaultKey key then
      match property flatSettings key with
      | Some v => Some v
      | None => Some (VString (defaults key))
      end
    else None.

(** [settings.env && typeof settings.env === 'object'] *)
Definition nestedEnv (settings : Value) : option Value :=
  match property settings "env" with
  | Some (VObject properties) => Some (VObject properties)
  | _ => None
  end.

(** [loadFromFile]: the settings and the file it leaves; [writable] tells
    whether [mkdirSync] and [writeFileSync] succeed. *)
Definition loadFromFile (defaults : string -> string) (writable : bool)
    (env : object) (file : File) : settingsObject * File :=
  match file with
  | Missing =>
      (applyEnvOverrides env (getAllDefaults defaults),
       if writable then Parsed (VObject (getAllDefaults defaults)) else Missing)
  | Unreadable => (applyEnvOverrides env (getAllDefaults defaults), Unreadable)
  | Parsed settings =>
      match nestedEnv settings with
      | Some flatSettings =>
          (applyEnvOverrides env (mergeWithDefaults defaults flatSettings),
           if writable then Parsed flatSettings else file)
      | None =>
          (applyEnvOverrides env (mergeWithDefaults defaults settings), file)
      end
  end.

(** The settings object [loadFromFile] reads in the file, if it can be
    read: the value of [env] in the nested schema, else the value itself. *)
Definition contentOf (file : File) : option Value :=
  match file with
  | Missing | Unreadable => None
  | Parsed settings =>
      Some (match nestedEnv settings with
            | Some flatSettings => flatSettings
            | None => settings
            end)
  end.


(** A file with string values, flat. *)
Definition flatFile (settings : object) : File :=
  Parsed (VObject (fun key =>
    if String.eqb key "env" then None else VString <$> settings key)).

End SettingsFile.

(** Fixtures of the settings. *)

Module SettingsSamples.

Import SettingsFile.

Definition defaults (key : string) : string :=
  if String.eqb key "CLAUDE_MEM_MODE" then "code" else "".

Definition noEnv : SettingsDefaultsManager.object := fun _ => None.

Definition only (key : string) (v : Value) : Value :=
  VObject (fun k => if String.eqb k key then Some v else None).

(** [{"env": {"env": {"CLAUDE_MEM_MODE": "email"}}}] *)
Definition nestedTwice : File :=
  Parsed (only "env" (only "env" (only "CLAUDE_MEM_MODE" (VString "email")))).

(** [{"env": {"CLAUDE_MEM_MODE": "email"}}] *)
Definition oldSchema : File :=
  Parsed (only "env" (only "CLAUDE_MEM_MODE" (VString "email"))).

End SettingsSamples.

(* ===================================================================== *)
(** * Part II: properties *)
(* ===================================================================== *)

Example includes_spawn : Js.includes "spawn claude ENOENT" "ENOENT" = true.
Proof. reflexivity. Qed.

Example parseInt_samples :
  Js.parseInt (Some "  42px") = Some 42 /\ Js.parseInt (Some "-7") = Some (-7)
  /\ Js.parseInt (Some "0x1f") = Some 31 /\ Js.parseInt (Some "abc") = None
  /\ Js.parseInt None = None.
Proof. repeat split; reflexivity. Qed.

(** ** [buildStatusOutput] *)

Section StatusOutputFacts.

Import StatusOutput.

Example buildStatusOutput_ready :
  buildStatusOutput ready None
  = {| continue := true; suppressOutput := true; status := ready; message := None |}.
Proof. reflexivity. Qed.

Example buildStatusOutput_error :
  message (buildStatusOutput error (Some "Failed to start worker"))
  = Some "Failed to start worker".
Proof. reflexivity. Qed.

(** C10.  For either status and any optional message, [buildStatusOutput]
    returns an object with [continue] and [suppressOutput] true and the
    given status; the [message] field is present exactly when the argument
    is a non-empty string, and then it is that string. *)
Theorem buildStatusOutput_fields (st : Status) (msg : option string) :
  let out := buildStatusOutput st msg in
  continue out = true
  /\ suppressOutput out = true
  /\ status out = st
  /\ (is_Some (message out) <-> exists m, msg = Some m /\ m <> "")
  /\ (forall m, message out = Some m -> msg = Some m).
Proof.
  cbn. repeat split; trivial.
  - intros [m Hm]. destruct msg as [[|c r]|]; cbn in Hm; try discriminate.
    exists (String c r). split; [reflexivity | discriminate].
  - intros (m & -> & Hne). destruct m; [congruence | cbn; eauto].
  - intros m Hm. destruct msg as [[|c r]|]; cbn in Hm; congruence.
Qed.

End StatusOutputFacts.

(** ** History truncation *)

Section HistoryFacts.

Import History.

Lemma fold_tokens_shift (l : list ConversationMessage) (a : Z) :
  fold_left (fun sum m => sum + estimateTokens (content m)) l a
  = a + totalTokens l.
Proof.
  unfold totalTokens. revert a.
  induction l as [|m l IH]; intros a; cbn [fold_left].
  - lia.
  - rewrite (IH (a + estimateTokens (content m))),
      (IH (0 + estimateTokens (content m))). lia.
Qed.

Lemma totalTokens_cons (m : ConversationMessage) (l : list ConversationMessage) :
  totalTokens (m :: l) = estimateTokens (content m) + totalTokens l.
Proof. unfold totalTokens at 1. cbn. apply fold_tokens_shift. Qed.

(** [estimateTokens] is the ceiling of a quarter of the length. *)
Lemma estimateTokens_ceil (text : string) :
  let n := Z.of_nat (String.length text) in
  4 * (estimateTokens text - 1) < n <= 4 * estimateTokens text.
Proof.
  unfold estimateTokens, CHARS_PER_TOKEN_ESTIMATE. cbn zeta.
  set (n := Z.of_nat (String.length text)).
  pose proof (Z.div_mod (n + (4 - 1)) 4 ltac:(lia)).
  pose proof (Z.mod_pos_bound (n + (4 - 1)) 4 ltac:(lia)).
  lia.
Qed.

(** The loop keeps a suffix of what it has been given, within the limits
    as long as it started within them. *)
Lemma truncateLoop_invariant (N T : Z) (newestFirst truncated : list ConversationMessage) :
  Z.of_nat (length truncated) <= N ->
  totalTokens truncated <= T ->
  let kept := truncateLoop N T newestFirst truncated (totalTokens truncated) in
  (exists evicted, (rev newestFirst ++ truncated = evicted ++ kept)%list)
  /\ Z.of_nat (length kept) <= N
  /\ totalTokens kept <= T.
Proof.
  revert truncated.
  induction newestFirst as [|msg older IH]; intros truncated HN HT; cbn.
  - split; [exists []; reflexivity | split; assumption].
  - destruct (Z.geb_spec (Z.of_nat (length truncated)) N) as [Hfull|Hroom]; cbn.
    + split; [eexists; reflexivity | split; assumption].
    + destruct (Z.gtb_spec (totalTokens truncated + estimateTokens (content msg)) T)
        as [Hover|Hfits].
      * split; [eexists; reflexivity | split; assumption].
      * specialize (IH (msg :: truncated)).
        rewrite totalTokens_cons in IH.
        replace (estimateTokens (content msg) + totalTokens truncated)
          with (totalTokens truncated + estimateTokens (content msg)) in IH by lia.
        destruct IH as ((evicted & Hev) & Hlen & Htok).
        { cbn [length]. lia. }
        { lia. }
        split; [|split; assumption].
        exists evicted. rewrite <- Hev, <- app_assoc. reflexivity.
Qed.

(** With positive limits the truncated history is a suffix within both
    limits, and a history within both limits is returned as it is. *)
Lemma truncateHistory_within_positive_limits
    (settings : Settings) (history : list ConversationMessage) :
  let N := maxMessages settings in
  let T := maxTokens settings in
  let kept := truncateHistory settings history in
  0 < N -> 0 < T ->
  (exists evicted, history = (evicted ++ kept)%list)
  /\ Z.of_nat (length kept) <= N
  /\ totalTokens kept <= T
  /\ (Z.of_nat (length history) <= N -> totalTokens history <= T -> kept = history).
Proof.
  intros N T kept HN HT. subst kept. unfold truncateHistory.
  fold N T.
  destruct (Z.leb_spec (Z.of_nat (length history)) N) as [Hlen|Hlen];
    [destruct (Z.leb_spec (totalTokens history) T) as [Htok|Htok]|]; cbn [andb].
  - repeat split; try assumption. exists []. reflexivity.
  - destruct (truncateLoop_invariant N T (rev history) []) as ((ev & Hev) & Hl & Ht).
    { cbn. lia. } { cbn. lia. }
    rewrite rev_involutive, app_nil_r in Hev.
    change (totalTokens []) with 0 in *.
    repeat split; try assumption.
    + exists ev. exact Hev.
    + intros _ Hcontra. lia.
  - destruct (truncateLoop_invariant N T (rev history) []) as ((ev & Hev) & Hl & Ht).
    { cbn. lia. } { cbn. lia. }
    rewrite rev_involutive, app_nil_r in Hev.
    change (totalTokens []) with 0 in *.
    repeat split; try assumption.
    + exists ev. exact Hev.
    + intros Hcontra. lia.
Qed.

(** A setting that is absent, not a number or zero gives the default. *)
Lemma orDefault_falsy (n : Js.number) (d : Z) :
  Js.orDefault n 0 = 0 -> Js.orDefault n d = d.
Proof.
  destruct n as [v|]; cbn; [|reflexivity].
  destruct (Z.eqb_spec v 0); [reflexivity | intros; contradiction].
Qed.

(** The settings object that [loadFromFile] returns has the keys of
    [DEFAULTS] only, which do not include the two limits of the Codex
    agent: whatever the file and the environment hold, the limits are the
    defaults. *)
Lemma loadFromFile_codex_limits (defaults : string -> string)
    (file : option SettingsDefaultsManager.object)
    (env : SettingsDefaultsManager.object) :
  let settings :=
    SettingsDefaultsManager.codexLimits
      (SettingsDefaultsManager.loadFromFile defaults file env) in
  maxMessages settings = 20 /\ maxTokens settings = 100000.
Proof. split; reflexivity. Qed.

Example truncateHistory_sample :
  truncateHistory Samples.sampleSettings Samples.sampleHistory
  = [ {| role := assistant; content := "first answer" |};
      {| role := user; content := "second prompt" |} ].
Proof. reflexivity. Qed.

(** C9.  For every conversation history, the truncated history sent to
    the model is a contiguous suffix of the history (the oldest messages
    are the ones evicted) with at most N messages and at most T estimated
    tokens, and a history within both limits is returned unchanged.  The
    estimate of a message is the ceiling of a quarter of its length.  N
    and T are read from the settings with the defaults 20 and 100000; the
    settings object of [loadFromFile] always yields these defaults, and
    the same bounds hold for any settings with positive limits. *)
Theorem truncateHistory_suffix_within_limits
    (defaults : string -> string)
    (file : option SettingsDefaultsManager.object)
    (env : SettingsDefaultsManager.object)
    (history : list ConversationMessage) :
  let settings :=
    SettingsDefaultsManager.codexLimits
      (SettingsDefaultsManager.loadFromFile defaults file env) in
  let N := maxMessages settings in
  let T := maxTokens settings in
  let kept := truncateHistory settings history in
  (exists evicted, history = (evicted ++ kept)%list)
  /\ Z.of_nat (length kept) <= N
  /\ totalTokens kept <= T
  /\ (Z.of_nat (length history) <= N -> totalTokens history <= T -> kept = history)
  /\ (forall text, 4 * (estimateTokens text - 1)
                     < Z.of_nat (String.length text) <= 4 * estimateTokens text)
  /\ N = 20 /\ T = 100000
  /\ (forall other : Settings,
        (Js.orDefault (Js.parseInt (CLAUDE_MEM_CODEX_MAX_CONTEXT_MESSAGES other)) 0 = 0
         -> maxMessages other = 20)
        /\ (Js.orDefault (Js.parseInt (CLAUDE_MEM_CODEX_MAX_TOKENS other)) 0 = 0
            -> maxTokens other = 100000)
        /\ (0 < maxMessages other -> 0 < maxTokens other ->
            (exists evicted, history = (evicted ++ truncateHistory other history)%list)
            /\ Z.of_nat (length (truncateHistory other history)) <= maxMessages other
            /\ totalTokens (truncateHistory other history) <= maxTokens other
            /\ (Z.of_nat (length history) <= maxMessages other ->
                totalTokens history <= maxTokens other ->
                truncateHistory other history = history))).
Proof.
  intros settings N T kept.
  destruct (loadFromFile_codex_limits defaults file env) as (HN & HT).
  fold settings in HN, HT. fold N in HN. fold T in HT.
  destruct (truncateHistory_within_positive_limits settings history)
    as (Hsuffix & Hlen & Htok & Hsame).
  { fold N. lia. } { fold T. lia. }
  split; [exact Hsuffix |]. split; [exact Hlen |]. split; [exact Htok |].
  split; [exact Hsame |]. split; [apply estimateTokens_ceil |].
  split; [exact HN |]. split; [exact HT |].
  intros other. split; [|split].
  - apply orDefault_falsy.
  - apply orDefault_falsy.
  - apply truncateHistory_within_positive_limits.
Qed.

Lemma truncateHistory_suffix_within_limits_witness :
  Z.of_nat (length (truncateHistory Samples.sampleSettings Samples.sampleHistory))
  <= maxMessages Samples.sampleSettings.
Proof.
  destruct (truncateHistory_suffix_within_limits
              (fun _ => "") None (fun _ => None) Samples.sampleHistory)
    as (_ & _ & _ & _ & _ & _ & _ & Hother).
  destruct (Hother Samples.sampleSettings) as (_ & _ & Hbounds).
  apply Hbounds; reflexivity.
Defined.

(** The function itself does not check the sign of a limit: a settings
    object with the limit [-1], which [loadFromFile] does not produce,
    empties the history. *)
Example truncateHistory_negative_limit :
  maxMessages Samples.negativeSettings = -1
  /\ truncateHistory Samples.negativeSettings Samples.sampleHistory = [].
Proof. split; reflexivity. Qed.

End HistoryFacts.

(** ** The session processor *)

Section ProcessorFacts.

Import Worker.

Lemma someIncludes_intro (patterns : list string) (s pattern : string) :
  In pattern patterns -> Js.includes s pattern = true ->
  Js.someIncludes patterns s = true.
Proof.
  intros Hin Hinc. unfold Js.someIncludes.
  apply existsb_exists. exists pattern. split; assumption.
Qed.

Lemma restarts_app (a b : list Event) :
  restarts (a ++ b) = (restarts a + restarts b)%nat.
Proof. unfold restarts. rewrite List.filter_app, length_app. reflexivity. Qed.

Lemma updateSession_lookup (l : loc) (f : ActiveSession -> ActiveSession) (st : Store) :
  heap (updateSession l f st) !! l = f <$> heap st !! l.
Proof. unfold updateSession. cbn. apply lookup_alter_eq. Qed.

Lemma updateSession_lookup_ne (l l' : loc) (f : ActiveSession -> ActiveSession) (st : Store) :
  l <> l' -> heap (updateSession l f st) !! l' = heap st !! l'.
Proof. intros Hne. unfold updateSession. cbn. apply lookup_alter_ne. exact Hne. Qed.

(** C1.  When the consumer task of a session fails with an error whose
    message contains one of the fatal-configuration patterns ('Claude
    executable not found', 'CLAUDE_CODE_PATH', 'ENOENT', 'spawn'), the
    processor is not restarted: the handlers only detach the promise and
    broadcast the status, however many messages of the session are
    pending, and the chain of generators ends there. *)
Theorem fatal_error_never_restarts
    (agents : Agents) (env : Env) (l : loc) (agent : AgentKind) (w : World)
    (error : Js.value) (st : Store) (pattern : string) :
  startSession agents agent l (store w) = (Rejected error, st) ->
  In pattern unrecoverablePatterns ->
  Js.includes (Js.messageOrEmpty error) pattern = true ->
  let stopped :=
    emit EvProcessingStatus
      {| store := updateSession l (set_generatorPromise false) st;
         log := log w |} in
  settleGenerator agents env l agent w = (Resolved, None, stopped)
  /\ (forall fuel, runGenerators (S fuel) agents env l agent w = stopped)
  /\ restarts (log stopped) = restarts (log w)
  /\ ~ In (EvStartGenerator l (getActiveAgent env) "pending-work-restart")
          (drop (length (log w)) (log stopped)).
Proof.
  intros Hrun Hin Hinc stopped.
  assert (Hfatal : Js.someIncludes unrecoverablePatterns (Js.messageOrEmpty error) = true)
    by (eapply someIncludes_intro; eassumption).
  assert (Hsettle : settleGenerator agents env l agent w = (Resolved, None, stopped)).
  { unfold settleGenerator. rewrite Hrun. cbn [catchGenerator].
    unfold onGeneratorError. rewrite Hfatal. reflexivity. }
  split; [exact Hsettle |]. split; [|split].
  - intros fuel. cbn [runGenerators]. rewrite Hsettle. reflexivity.
  - subst stopped. cbn [emit log]. rewrite restarts_app. cbn. lia.
  - subst stopped. cbn [emit log]. rewrite drop_app_length. cbn.
    intros [H|[]]. discriminate.
Qed.

Lemma getPendingCount_pending_messages (sid : Z) (st st' : Store) :
  pending_messages st' = pending_messages st ->
  Stores.getPendingCount sid st' = Stores.getPendingCount sid st.
Proof. intros E. unfold Stores.getPendingCount. rewrite E. reflexivity. Qed.

Lemma newAbortController_spec (l : loc) (w : World) (session : ActiveSession) :
  heap (store w) !! l = Some session ->
  let w' := newAbortController l w in
  heap (store w') !! l
  = Some (set_abortController
            {| controllerId := nextController (store w); aborted := false |} session)
  /\ log w' = (log w ++ [EvNewAbortController l (nextController (store w))])%list
  /\ pending_messages (store w') = pending_messages (store w)
  /\ nextController (store w') = S (nextController (store w))
  /\ sessions (store w') = sessions (store w).
Proof.
  intros Hl. unfold newAbortController. cbn [emit onStore store log controllerId].
  rewrite updateSession_lookup. cbn [set_nextController heap]. rewrite Hl.
  repeat split.
Qed.

Lemma beginGenerator_spec (env : Env) (l : loc) (source : string) (w : World)
    (session : ActiveSession) :
  heap (store w) !! l = Some session ->
  aborted (abortController session) = false ->
  let w' := fst (beginGenerator env l source w) in
  snd (beginGenerator env l source w) = getActiveAgent env
  /\ heap (store w') !! l = Some (set_generatorPromise true session)
  /\ log w' = (log w ++ [EvStartGenerator l (getActiveAgent env) source])%list
  /\ pending_messages (store w') = pending_messages (store w)
  /\ nextController (store w') = nextController (store w)
  /\ sessions (store w') = sessions (store w).
Proof.
  intros Hl Hlive. unfold beginGenerator. rewrite Hl, Hlive.
  cbn [fst snd emit onStore store log].
  rewrite updateSession_lookup, Hl. repeat split.
Qed.

(** The [finally] handler with work pending: a new controller, a new
    generator, then the broadcast. *)
Lemma finally_restarts (env : Env) (l : loc) (w : World) (session : ActiveSession) :
  heap (store w) !! l = Some session ->
  Stores.getPendingCount (sessionDbId session) (store w) > 0 ->
  exists w3,
    onGeneratorFinally env l false w = (w3, Some (getActiveAgent env))
    /\ heap (store w3) !! l
       = Some (set_generatorPromise true
                 (set_abortController
                    {| controllerId := nextController (store w); aborted := false |}
                    (set_generatorPromise false session)))
    /\ log w3
       = (log w ++ [ EvNewAbortController l (nextController (store w));
                     EvStartGenerator l (getActiveAgent env) "pending-work-restart";
                     EvProcessingStatus ])%list
    /\ pending_messages (store w3) = pending_messages (store w)
    /\ nextController (store w3) = S (nextController (store w))
    /\ sessions (store w3) = sessions (store w).
Proof.
  intros Hl Hpending. unfold onGeneratorFinally.
  set (w1 := onStore (updateSession l (set_generatorPromise false)) w).
  assert (Hl1 : heap (store w1) !! l = Some (set_generatorPromise false session)).
  { subst w1. cbn [onStore store]. rewrite updateSession_lookup, Hl. reflexivity. }
  rewrite Hl1. cbn [set_generatorPromise sessionDbId].
  rewrite (getPendingCount_pending_messages _ (store w) (store w1)) by reflexivity.
  destruct (Z.gtb_spec (Stores.getPendingCount (sessionDbId session) (store w)) 0)
    as [_|Hno]; [|lia].
  destruct (newAbortController_spec l w1 _ Hl1) as (Hl2 & Hlog2 & Hpm2 & Hnc2 & Hs2).
  set (w2 := newAbortController l w1) in *.
  destruct (beginGenerator_spec env l "pending-work-restart" w2 _ Hl2 eq_refl)
    as (Hag & Hl3 & Hlog3 & Hpm3 & Hnc3 & Hs3).
  destruct (beginGenerator env l "pending-work-restart" w2) as [w3 agent].
  cbn [fst snd] in *. subst agent.
  eexists. split; [reflexivity |].
  cbn [broadcastProcessingStatus emit store log].
  rewrite Hl3, Hlog3, Hlog2, Hpm3, Hpm2, Hnc3, Hnc2, Hs3, Hs2.
  repeat split. rewrite <- !app_assoc. reflexivity.
Qed.

Lemma finally_idle (env : Env) (l : loc) (w : World) (session : ActiveSession) :
  heap (store w) !! l = Some session ->
  Stores.getPendingCount (sessionDbId session) (store w) <= 0 ->
  onGeneratorFinally env l false w
  = (emit EvProcessingStatus
       (onStore (updateSession l (set_generatorPromise false)) w), None).
Proof.
  intros Hl Hpending. unfold onGeneratorFinally.
  cbn [onStore store]. rewrite updateSession_lookup, Hl. cbn [fmap option_fmap option_map].
  cbn [set_generatorPromise sessionDbId].
  rewrite (getPendingCount_pending_messages _ (store w)) by reflexivity.
  destruct (Z.gtb_spec (Stores.getPendingCount (sessionDbId session) (store w)) 0)
    as [Hyes|_]; [lia | reflexivity].
Qed.

Lemma quiet_agents_restart_forever (env : Env) (l : loc) (n : nat) :
  forall (agent : AgentKind) (w : World) (session : ActiveSession),
    heap (store w) !! l = Some session ->
    Stores.getPendingCount (sessionDbId session) (store w) > 0 ->
    restarts (log (runGenerators n Samples.quietAgents env l agent w))
    = (restarts (log w) + n)%nat.
Proof.
  induction n as [|n IH]; intros agent w session Hl Hpending; cbn [runGenerators].
  - lia.
  - unfold settleGenerator. cbn [Samples.quietAgents startSession catchGenerator].
    destruct (finally_restarts env l {| store := store w; log := log w |} session Hl Hpending)
      as (w3 & -> & Hl3 & Hlog3 & Hpm3 & _).
    rewrite (IH _ w3 _ Hl3).
    + rewrite Hlog3. cbn [log]. rewrite restarts_app. cbn. lia.
    + cbn [set_generatorPromise set_abortController sessionDbId].
      rewrite (getPendingCount_pending_messages _ (store w) (store w3)); assumption.
Qed.

(** C4.  After the consumer task of a session has terminated, by returning
    or with an error that is not a fatal-configuration error, and the
    pending count read by the [finally] handler is positive, the
    processor allocates a new, unaborted cancellation token, distinct
    from every token allocated before, and restarts the consumer task.
    No counter bounds these restarts: for every number there is a run
    with that many restarts. *)
Theorem pending_work_restarts_with_fresh_token
    (agents : Agents) (env : Env) (l : loc) (agent : AgentKind) (w w2 : World)
    (outcome settled : Settled) (st : Store) (had : bool) (session : ActiveSession) :
  startSession agents agent l (store w) = (outcome, st) ->
  catchGenerator agents env l outcome {| store := st; log := log w |}
    = (had, settled, w2) ->
  (forall error, outcome = Rejected error -> isUnrecoverableError error = false) ->
  heap (store w2) !! l = Some session ->
  Stores.getPendingCount (sessionDbId session) (store w2) > 0 ->
  (exists w3 session',
     settleGenerator agents env l agent w = (settled, Some (getActiveAgent env), w3)
     /\ heap (store w3) !! l = Some session'
     /\ abortController session'
        = {| controllerId := nextController (store w2); aborted := false |}
     /\ ((controllerId (abortController session) < nextController (store w2))%nat
         -> abortController session' <> abortController session)
     /\ generatorPromise session' = true
     /\ log w3
        = (log w2 ++ [ EvNewAbortController l (nextController (store w2));
                       EvStartGenerator l (getActiveAgent env) "pending-work-restart";
                       EvProcessingStatus ])%list)
  /\ (forall n, exists agents' w0,
        restarts (log (startSessionProcessor n agents' env (Some 0%nat) "init" w0)) = n).
Proof.
  intros Hrun Hcatch Hnotfatal Hl Hpending. split.
  - assert (Hhad : had = false).
    { destruct outcome as [|error]; cbn in Hcatch.
      - congruence.
      - specialize (Hnotfatal error eq_refl).
        unfold isUnrecoverableError in Hnotfatal.
        unfold onGeneratorError in Hcatch. rewrite Hnotfatal in Hcatch.
        destruct (isSessionTerminatedError error); [congruence |].
        cbn [store] in Hcatch. destruct (heap st !! l); congruence. }
    subst had.
    destruct (finally_restarts env l w2 session Hl Hpending)
      as (w3 & Hfin & Hl3 & Hlog3 & _).
    exists w3. eexists. unfold settleGenerator. rewrite Hrun, Hcatch, Hfin.
    split; [reflexivity |]. split; [exact Hl3 |]. cbn.
    repeat split; try assumption.
    intros Hlt Heq. rewrite <- Heq in Hlt. cbn in Hlt. lia.
  - intros n. exists Samples.quietAgents, Samples.world7.
    unfold startSessionProcessor.
    destruct (beginGenerator_spec env 0%nat "init" Samples.world7 Samples.session7
                eq_refl eq_refl) as (_ & Hl1 & Hlog1 & Hpm1 & _).
    destruct (beginGenerator env 0%nat "init" Samples.world7) as [w1 agent1].
    cbn [fst] in *.
    rewrite (quiet_agents_restart_forever env 0%nat n agent1 w1 _ Hl1).
    + rewrite Hlog1, restarts_app. reflexivity.
    + cbn [set_generatorPromise sessionDbId].
      rewrite (getPendingCount_pending_messages _ Samples.store7 (store w1) Hpm1).
      reflexivity.
Qed.

Lemma fatal_error_never_restarts_witness :
  Stores.getPendingCount 7 Samples.store7 = 1
  /\ restarts (log (runGenerators 5 (Samples.failingWith Samples.spawnError)
                      Samples.claudeOnly 0%nat SDKAgent Samples.world7))
     = 0%nat.
Proof.
  split; [reflexivity |].
  destruct (fatal_error_never_restarts
              (Samples.failingWith Samples.spawnError) Samples.claudeOnly
              0%nat SDKAgent Samples.world7 Samples.spawnError Samples.store7
              "ENOENT" eq_refl ltac:(cbn; tauto) eq_refl)
    as (_ & Hchain & Hcount & _).
  rewrite (Hchain 4%nat), Hcount. reflexivity.
Defined.

Lemma pending_work_restarts_with_fresh_token_witness :
  exists w3 session',
    settleGenerator (Samples.failingWith Samples.networkError) Samples.claudeOnly
      0%nat SDKAgent Samples.world7
    = (Rejected Samples.networkError, Some SDKAgent, w3)
    /\ heap (store w3) !! 0%nat = Some session'
    /\ abortController session' = {| controllerId := 1; aborted := false |}.
Proof.
  destruct (pending_work_restarts_with_fresh_token
              (Samples.failingWith Samples.networkError) Samples.claudeOnly
              0%nat SDKAgent Samples.world7 Samples.world7
              (Rejected Samples.networkError) (Rejected Samples.networkError)
              Samples.store7 false Samples.session7)
    as ((w3 & session' & Hsettle & Hl & Hc & _) & _).
  - reflexivity.
  - reflexivity.
  - intros error [= <-]. reflexivity.
  - reflexivity.
  - reflexivity.
  - exists w3, session'. split; [exact Hsettle | split; [exact Hl | exact Hc]].
Defined.


Section Cancellation.

Context `{collaborators : Codex.Collaborators}.


End Cancellation.


Section MemorySessionId.

Import Contracts.




Lemma finally_memorySessionId (env : Env) (l : loc) (had : bool) (w : World)
    (session : ActiveSession) :
  heap (store w) !! l = Some session ->
  exists session',
    heap (store (fst (onGeneratorFinally env l had w))) !! l = Some session'
    /\ memorySessionId session' = memorySessionId session.
Proof.
  intros Hl.
  assert (Hoff : heap (store (onStore (updateSession l (set_generatorPromise false)) w)) !! l
                 = Some (set_generatorPromise false session)).
  { cbn [onStore store]. rewrite updateSession_lookup, Hl. reflexivity. }
  destruct had.
  - unfold onGeneratorFinally. cbn [fst broadcastProcessingStatus emit store].
    eexists. split; [exact Hoff | reflexivity].
  - destruct (Z.ltb_spec 0 (Stores.getPendingCount (sessionDbId session) (store w)))
      as [Hpos|Hzero].
    + destruct (finally_restarts env l w session Hl ltac:(lia)) as (w3 & -> & Hl3 & _).
      eexists. split; [exact Hl3 | reflexivity].
    + rewrite (finally_idle env l w session Hl Hzero).
      cbn [fst emit store]. eexists. split; [exact Hoff | reflexivity].
Qed.

Lemma quietAgents_keep (l : loc) : keepsMemorySessionId Samples.quietAgents l.
Proof. intros agent st settled st' m [= _ <-] _ Hid. exact Hid. Qed.



End MemorySessionId.

Section Fallback.












End Fallback.

End ProcessorFacts.

(** ** Recovery *)

Section RecoveryFacts.

Import Worker Recovery.

Lemma inIds_true (ids : list Z) (x : Z) : In x ids -> inIds ids x = true.
Proof.
  intros Hin. unfold inIds. apply existsb_exists. exists x.
  split; [exact Hin | apply Z.eqb_refl].
Qed.

Lemma stale_in_ids (st : Store) (r : SdkSession) :
  In r (sdk_sessions st) ->
  isStaleSession (now st - STALE_SESSION_THRESHOLD_MS) r = true ->
  In (id r) (staleSessionIds st).
Proof.
  intros Hin Hstale. unfold staleSessionIds. apply in_map.
  apply filter_In. split; assumption.
Qed.

Lemma failStaleSessions_rows (w : World) (i : nat) (r : SdkSession) :
  sdk_sessions (store w) !! i = Some r ->
  isStaleSession (now (store w) - STALE_SESSION_THRESHOLD_MS) r = true ->
  sdk_sessions (store (failStaleSessions w)) !! i
  = Some (failSession (now (store w)) r).
Proof.
  intros Hi Hstale.
  assert (Hin : In (id r) (staleSessionIds (store w))).
  { apply stale_in_ids; [|exact Hstale].
    apply list_elem_of_In, list_elem_of_lookup. exists i. exact Hi. }
  assert (Hlen : (0 <? length (staleSessionIds (store w)))%nat = true)
    by (destruct (staleSessionIds (store w)); [destruct Hin | reflexivity]).
  unfold failStaleSessions. rewrite Hlen.
  cbn [emit store set_pending_messages set_sdk_sessions sdk_sessions].
  rewrite list_lookup_fmap, Hi. cbn [fmap option_fmap option_map].
  rewrite (inIds_true _ _ Hin). reflexivity.
Qed.

Lemma failStaleSessions_messages (w : World) (j : nat) (m : PendingMessage)
    (r : SdkSession) :
  pending_messages (store w) !! j = Some m ->
  message_status m = m_pending ->
  In r (sdk_sessions (store w)) ->
  isStaleSession (now (store w) - STALE_SESSION_THRESHOLD_MS) r = true ->
  session_db_id m = id r ->
  pending_messages (store (failStaleSessions w)) !! j
  = Some (failMessage (now (store w)) m).
Proof.
  intros Hj Hpending Hr Hstale Hsid.
  assert (Hin : In (id r) (staleSessionIds (store w)))
    by (apply stale_in_ids; assumption).
  assert (Hlen : (0 <? length (staleSessionIds (store w)))%nat = true)
    by (destruct (staleSessionIds (store w)); [destruct Hin | reflexivity]).
  unfold failStaleSessions. rewrite Hlen.
  cbn [emit store set_pending_messages set_sdk_sessions pending_messages].
  rewrite list_lookup_fmap, Hj. cbn [fmap option_fmap option_map].
  unfold Stores.hasStatus. rewrite Hpending, Hsid, (inIds_true _ _ Hin).
  reflexivity.
Qed.

(** Starting the processors of the orphaned queues leaves both tables as
    they are. *)
Lemma beginGenerator_tables (env : Env) (l : loc) (source : string) (w : World) :
  sdk_sessions (store (fst (beginGenerator env l source w))) = sdk_sessions (store w)
  /\ pending_messages (store (fst (beginGenerator env l source w)))
     = pending_messages (store w).
Proof.
  unfold beginGenerator. destruct (heap (store w) !! l) as [session|]; [|split; reflexivity].
  destruct (aborted (abortController session)); split; reflexivity.
Qed.

Lemma initializeSession_tables (sid : Z) (st st' : Store) (l : loc) :
  Stores.initializeSession sid st = Some (l, st') ->
  sdk_sessions st' = sdk_sessions st /\ pending_messages st' = pending_messages st.
Proof.
  unfold Stores.initializeSession.
  destruct (sessions st !! sid); [intros [= _ <-]; split; reflexivity |].
  destruct (List.find _ _); [|discriminate].
  intros [= _ <-]. split; reflexivity.
Qed.

Lemma recoverSessions_tables (env : Env) (sessionLimit : Z) (ids : list Z) :
  forall (result : RecoveryResult) (gs : list (loc * AgentKind)) (w : World),
    let w' := snd (recoverSessions env sessionLimit ids result gs w) in
    sdk_sessions (store w') = sdk_sessions (store w)
    /\ pending_messages (store w') = pending_messages (store w).
Proof.
  induction ids as [|sid ids IH]; intros result gs w; cbn [recoverSessions].
  - split; reflexivity.
  - destruct (sessionsStarted result >=? sessionLimit); [split; reflexivity |].
    destruct (hasGenerator (store w) sid); [apply IH |].
    destruct (Stores.initializeSession sid (store w)) as [[l st]|] eqn:Hinit; [|apply IH].
    destruct (initializeSession_tables _ _ _ _ Hinit) as (Hs & Hp).
    pose proof (beginGenerator_tables env l "startup-recovery"
                  {| store := st; log := log w |}) as (Hs1 & Hp1).
    destruct (beginGenerator env l "startup-recovery" {| store := st; log := log w |})
      as [w1 agent].
    cbn [fst store] in *. cbv zeta.
    destruct (IH (started sid result) (gs ++ [(l, agent)])%list w1) as (Hs2 & Hp2).
    split; congruence.
Qed.

(** C7.  In a recovery pass, a session in [active] status whose start time
    is more than six hours (21 600 000 ms) before the time of the pass is
    set to [failed], and each message of that session that is still
    [pending] is set to [failed]: it is not reclaimed. *)
Theorem stale_session_and_its_pending_messages_fail
    (env : Env) (sessionLimit : Z) (w : World) (i : nat) (r : SdkSession) :
  let st := store w in
  let st' := store (snd (processPendingQueues env sessionLimit w)) in
  sdk_sessions st !! i = Some r ->
  status r = s_active ->
  started_at_epoch r < now st - 21600000 ->
  (exists r', sdk_sessions st' !! i = Some r'
              /\ id r' = id r /\ status r' = s_failed)
  /\ (forall (j : nat) (m : PendingMessage),
        pending_messages st !! j = Some m ->
        session_db_id m = id r ->
        message_status m = m_pending ->
        exists m', pending_messages st' !! j = Some m'
                   /\ message_id m' = message_id m
                   /\ message_status m' = m_failed
                   /\ message_status m' <> m_pending).
Proof.
  intros st st' Hi Hactive Hold.
  assert (Hstale : isStaleSession (now st - STALE_SESSION_THRESHOLD_MS) r = true).
  { unfold isStaleSession. rewrite Hactive. cbn [SessionStatus_eqb andb].
    apply Z.ltb_lt. exact Hold. }
  subst st'. unfold processPendingQueues.
  destruct (recoverSessions_tables env sessionLimit
              (Stores.getSessionsWithPendingMessages (store (failStaleSessions w)))
              {| totalPendingSessions :=
                   length (Stores.getSessionsWithPendingMessages
                             (store (failStaleSessions w)));
                 sessionsStarted := 0; sessionsSkipped := 0;
                 startedSessionIds := [] |} [] (failStaleSessions w))
    as (Hs & Hp).
  cbv zeta in Hs, Hp. rewrite Hs, Hp. split.
  - rewrite (failStaleSessions_rows w i r Hi Hstale).
    eexists. split; [reflexivity | split; reflexivity].
  - intros j m Hj Hsid Hpending.
    rewrite (failStaleSessions_messages w j m r Hj Hpending).
    + eexists. split; [reflexivity |]. repeat split. discriminate.
    + apply list_elem_of_In, list_elem_of_lookup. exists i. exact Hi.
    + exact Hstale.
    + exact Hsid.
Qed.

Lemma stale_session_and_its_pending_messages_fail_witness :
  let st' := store (snd (processPendingQueues Samples.claudeOnly 50 Samples.idleWorld)) in
  (exists r', sdk_sessions st' !! 0%nat = Some r' /\ id r' = 3 /\ status r' = s_failed)
  /\ exists m', pending_messages st' !! 0%nat = Some m'
                /\ message_id m' = 11 /\ message_status m' = m_failed
                /\ message_status m' <> m_pending.
Proof.
  destruct (stale_session_and_its_pending_messages_fail
              Samples.claudeOnly 50 Samples.idleWorld 0%nat Samples.idleRow
              eq_refl eq_refl ltac:(reflexivity)) as (Hrow & Hmsg).
  split; [exact Hrow |].
  exact (Hmsg 0%nat Samples.idleMessage eq_refl eq_refl eq_refl).
Defined.

(** *** Start-up order *)

Lemma extends_refl (a : list Event) : extends a a.
Proof. exists []. now rewrite app_nil_r. Qed.

Lemma extends_trans (a b c : list Event) : extends a b -> extends b c -> extends a c.
Proof. intros [x ->] [y ->]. exists (x ++ y)%list. now rewrite app_assoc. Qed.

Lemma extends_emit (e : Event) (w : World) : extends (log w) (log (emit e w)).
Proof. exists [e]. reflexivity. Qed.

Lemma newAbortController_extends (l : loc) (w : World) :
  extends (log w) (log (newAbortController l w)).
Proof. eexists. reflexivity. Qed.

Lemma beginGenerator_extends (env : Env) (l : loc) (source : string) (w : World) :
  extends (log w) (log (fst (beginGenerator env l source w))).
Proof.
  unfold beginGenerator. destruct (heap (store w) !! l) as [session|]; [|apply extends_refl].
  destruct (aborted (abortController session)); cbn [fst onStore log].
  - eapply extends_trans; [apply newAbortController_extends | apply extends_emit].
  - apply extends_emit.
Qed.

Lemma tryFallback_extends (agents : Agents) (agent : AgentKind) (l : loc) (w : World) :
  extends (log w) (log (snd (tryFallback agents agent l w))).
Proof.
  unfold tryFallback.
  destruct (startSession agents agent l _) as [[|e] st]; cbn [snd].
  - apply extends_emit.
  - eexists. cbn [emit log]. rewrite <- app_assoc. reflexivity.
Qed.

Lemma abandonSession_extends (sid : Z) (w : World) :
  extends (log w) (log (abandonSession sid w)).
Proof.
  unfold abandonSession.
  destruct (Stores.markAllSessionMessagesAbandoned sid (store w)) as [n st].
  cbn [removeSession broadcastProcessingStatus emit onStore log].
  eexists. rewrite <- !app_assoc. reflexivity.
Qed.

Lemma runFallback_extends (agents : Agents) (env : Env) (session : option loc) (w : World) :
  extends (log w) (log (runFallbackForTerminatedSession agents env session w)).
Proof.
  unfold runFallbackForTerminatedSession.
  destruct session as [l|]; [|apply extends_refl].
  destruct (heap (store w) !! l) as [s|]; [|apply extends_refl].
  set (w1 := if negb (truthy (memorySessionId s)) then _ else w).
  assert (H1 : extends (log w) (log w1)).
  { subst w1. destruct (negb _); [eexists; reflexivity | apply extends_refl]. }
  clearbody w1.
  assert (H2 : extends (log w1) (log (snd
            (if isGeminiAvailable env then tryFallback agents GeminiAgent l w1
             else (false, w1))))).
  { destruct (isGeminiAvailable env); [apply tryFallback_extends | apply extends_refl]. }
  destruct (if isGeminiAvailable env then tryFallback agents GeminiAgent l w1
            else (false, w1)) as [returned w2].
  cbn [snd] in H2.
  destruct returned; [eapply extends_trans; eassumption |].
  assert (H3 : extends (log w2) (log (snd
            (if isOpenRouterAvailable env then tryFallback agents OpenRouterAgent l w2
             else (false, w2))))).
  { destruct (isOpenRouterAvailable env); [apply tryFallback_extends | apply extends_refl]. }
  destruct (if isOpenRouterAvailable env then tryFallback agents OpenRouterAgent l w2
            else (false, w2)) as [returned w3].
  cbn [snd] in H3.
  destruct returned.
  - eapply extends_trans; [eassumption |]. eapply extends_trans; eassumption.
  - eapply extends_trans; [eassumption |]. eapply extends_trans; [eassumption |].
    eapply extends_trans; [eassumption | apply abandonSession_extends].
Qed.

Lemma catchGenerator_extends (agents : Agents) (env : Env) (l : loc)
    (outcome : Settled) (w : World) :
  extends (log w) (log (snd (catchGenerator agents env l outcome w))).
Proof.
  destruct outcome as [|error]; cbn [catchGenerator snd]; [apply extends_refl |].
  unfold onGeneratorError.
  destruct (Js.someIncludes _ _); [apply extends_refl |].
  destruct (isSessionTerminatedError error); [apply runFallback_extends |].
  destruct (heap (store w) !! l) as [s|]; [|apply extends_refl].
  cbn [snd]. destruct (_ && _); [eexists; reflexivity | apply extends_refl].
Qed.

Lemma finally_extends (env : Env) (l : loc) (had : bool) (w : World) :
  extends (log w) (log (fst (onGeneratorFinally env l had w))).
Proof.
  unfold onGeneratorFinally.
  set (w1 := onStore (updateSession l (set_generatorPromise false)) w).
  assert (H1 : extends (log w) (log w1)) by apply extends_refl.
  destruct had; [eapply extends_trans; [exact H1 | apply extends_emit] |].
  destruct (heap (store w1) !! l) as [s|];
    [|eapply extends_trans; [exact H1 | apply extends_emit]].
  destruct (_ >? 0); [|eapply extends_trans; [exact H1 | apply extends_emit]].
  pose proof (beginGenerator_extends env l "pending-work-restart"
                (newAbortController l w1)) as H3.
  destruct (beginGenerator env l "pending-work-restart" (newAbortController l w1))
    as [w3 agent].
  cbn [fst] in *.
  eapply extends_trans; [exact H1 |].
  eapply extends_trans; [apply newAbortController_extends |].
  eapply extends_trans; [exact H3 | apply extends_emit].
Qed.

Lemma settleGenerator_extends (agents : Agents) (env : Env) (l : loc)
    (agent : AgentKind) (w : World) :
  extends (log w) (log (snd (settleGenerator agents env l agent w))).
Proof.
  unfold settleGenerator.
  destruct (startSession agents agent l (store w)) as [outcome st].
  pose proof (catchGenerator_extends agents env l outcome
                {| store := st; log := log w |}) as H1.
  destruct (catchGenerator agents env l outcome _) as [[had settled] w2].
  pose proof (finally_extends env l had w2) as H2.
  destruct (onGeneratorFinally env l had w2) as [w3 restarted].
  cbn [fst snd log] in *. eapply extends_trans; eassumption.
Qed.

Lemma failStaleSessions_extends (w : World) :
  extends (log w) (log (failStaleSessions w)).
Proof.
  unfold failStaleSessions. destruct (0 <? _)%nat; [eexists; reflexivity | apply extends_refl].
Qed.

Lemma recoverSessions_extends (env : Env) (sessionLimit : Z) (ids : list Z) :
  forall (result : RecoveryResult) (gs : list (loc * AgentKind)) (w : World),
    extends (log w) (log (snd (recoverSessions env sessionLimit ids result gs w))).
Proof.
  induction ids as [|sid ids IH]; intros result gs w; cbn [recoverSessions].
  - apply extends_refl.
  - destruct (sessionsStarted result >=? sessionLimit); [apply extends_refl |].
    destruct (hasGenerator (store w) sid); [apply IH |].
    destruct (Stores.initializeSession sid (store w)) as [[l st]|]; [|apply IH].
    pose proof (beginGenerator_extends env l "startup-recovery"
                  {| store := st; log := log w |}) as H1.
    destruct (beginGenerator env l "startup-recovery" _) as [w1 agent].
    cbn [fst log] in H1. eapply extends_trans; [exact H1 | apply IH].
Qed.

Lemma processPendingQueues_extends (env : Env) (sessionLimit : Z) (w : World) :
  extends (log w) (log (snd (processPendingQueues env sessionLimit w))).
Proof.
  unfold processPendingQueues.
  eapply extends_trans; [apply failStaleSessions_extends | apply recoverSessions_extends].
Qed.

Lemma startedByRoute_extends (gs : list (loc * AgentKind)) :
  forall w : World, extends (log w) (log (fold_left startedByRoute gs w)).
Proof.
  induction gs as [|g gs IH]; intros w; cbn [fold_left]; [apply extends_refl |].
  eapply extends_trans; [|apply IH]. apply extends_emit.
Qed.

Lemma runRoute_extends (handler : RouteHandler) (s : Server) :
  extends (log (world s)) (log (world (runRoute handler s))).
Proof.
  unfold runRoute. destruct (handler _) as [st gs]. cbn [world].
  eapply extends_trans; [|apply startedByRoute_extends]. apply extends_emit.
Qed.

Lemma releaseParked_extends (handler : RouteHandler) (s : Server) :
  extends (log (world s)) (log (world (releaseParked handler s))).
Proof.
  unfold releaseParked. cbn [world].
  induction (parkedRequests s) as [|n IH]; cbn [Nat.iter]; [apply extends_refl |].
  eapply extends_trans; [exact IH | apply runRoute_extends].
Qed.

Lemma resetFirst_app (b : bool) (xs ys : list Event) :
  resetFirst b (xs ++ ys)
  = resetFirst b xs && resetFirst (b || existsb isResetAll xs) ys.
Proof.
  revert b. induction xs as [|x xs IH]; intros b; cbn [app resetFirst existsb].
  - now rewrite orb_false_r.
  - rewrite IH, orb_assoc, andb_assoc. reflexivity.
Qed.

Lemma resetFirst_seen (events : list Event) : resetFirst true events = true.
Proof.
  induction events as [|e rest IH]; cbn [resetFirst]; [reflexivity |].
  rewrite orb_true_r. exact IH.
Qed.

Lemma resetFirst_extends (a b : list Event) :
  resetFirst false a = true -> existsb isResetAll a = true -> extends a b ->
  resetFirst false b = true /\ existsb isResetAll b = true.
Proof.
  intros Hord Hseen [added ->]. split.
  - rewrite resetFirst_app, Hord, Hseen. apply resetFirst_seen.
  - rewrite existsb_app, Hseen. reflexivity.
Qed.

Lemma resetFirst_sound (b : bool) (pre post : list Event) (e : Event) :
  resetFirst b (pre ++ e :: post) = true ->
  isProcessorEvent e = true ->
  b || existsb isResetAll pre = true.
Proof.
  intros Hord He. rewrite resetFirst_app in Hord.
  apply andb_true_iff in Hord. destruct Hord as (_ & Hord).
  cbn [resetFirst] in Hord. rewrite He in Hord. cbn [negb orb] in Hord.
  apply andb_true_iff in Hord. tauto.
Qed.

Lemma startupInvariant_extends (s s' : Server) :
  startupInvariant s ->
  existsb isResetAll (log (world s)) = true ->
  extends (log (world s)) (log (world s')) ->
  startupInvariant s'.
Proof.
  intros (Hord & _) Hseen Hext.
  destruct (resetFirst_extends _ _ Hord Hseen Hext) as (Hord' & Hseen').
  split; [exact Hord' | left; exact Hseen'].
Qed.

Lemma step_invariant (agents : Agents) (env : Env) (handler : RouteHandler)
    (i : Input) (s : Server) :
  startupInvariant s -> startupInvariant (step agents env handler i s).
Proof.
  intros Hinv. destruct i as [ok| | |n]; cbn [step].
  - unfold resumeInitialization. destruct (phase s) eqn:Hphase.
    + destruct Hinv as (Hord & Hrest).
      destruct ok; (split; [exact Hord |]); cbn [withPhase world phase
        initializationCompleteFlag generators];
        (destruct Hrest as [Hseen|(Hflag & Hgen & _)];
         [left; exact Hseen | right; repeat split; try assumption; discriminate]).
    + destruct ok.
      * destruct (Stores.resetStaleProcessingMessages 0 (store (world s))) as [n st].
        destruct Hinv as (Hord & _). unfold startupInvariant.
        cbn [withPhase world emit log].
        rewrite resetFirst_app, existsb_app, Hord. cbn.
        rewrite !orb_true_r. split; [reflexivity | left; reflexivity].
      * destruct Hinv as (Hord & Hrest). split; [exact Hord |].
        cbn [withPhase world phase initializationCompleteFlag generators].
        destruct Hrest as [Hseen|(Hflag & Hgen & _)];
          [left; exact Hseen | right; repeat split; try assumption; discriminate].
    + assert (Hseen : existsb isResetAll (log (world s)) = true).
      { destruct Hinv as (_ & [Hseen|(_ & _ & Hne & _)]); [exact Hseen | congruence]. }
      destruct ok.
      * set (s1 := {| world := emit EvInitializationComplete (world s);
                      phase := Initialized; initializationCompleteFlag := true;
                      parkedRequests := parkedRequests s;
                      generators := generators s |}).
        pose proof (releaseParked_extends handler s1) as H2.
        pose proof (processPendingQueues_extends env 50
                      (world (releaseParked handler s1))) as H3.
        destruct (processPendingQueues env 50 (world (releaseParked handler s1)))
          as [[result gs] w3].
        cbn [snd] in H3.
        eapply startupInvariant_extends; [exact Hinv | exact Hseen |].
        cbn [world]. eapply extends_trans; [apply extends_emit |].
        eapply extends_trans; [exact H2 | exact H3].
      * eapply startupInvariant_extends; [exact Hinv | exact Hseen | apply extends_refl].
    + exact Hinv.
    + exact Hinv.
  - unfold guardApiRequest. destruct (initializationCompleteFlag s) eqn:Hflag.
    + assert (Hseen : existsb isResetAll (log (world s)) = true).
      { destruct Hinv as (_ & [Hseen|(Hf & _)]); [exact Hseen | congruence]. }
      eapply startupInvariant_extends; [exact Hinv | exact Hseen | apply runRoute_extends].
    + destruct Hinv as (Hord & Hrest). split; [exact Hord |].
      cbn [world initializationCompleteFlag generators phase].
      destruct Hrest as [Hseen|(_ & Hgen & Hp1 & Hp2)];
        [left; exact Hseen | right; repeat split; assumption].
  - destruct Hinv as (Hord & Hrest). split; [exact Hord |]. exact Hrest.
  - unfold settleNth. destruct (generators s !! n) as [[l agent]|] eqn:Hn; [|exact Hinv].
    assert (Hseen : existsb isResetAll (log (world s)) = true).
    { destruct Hinv as (_ & [Hseen|(_ & Hgen & _)]); [exact Hseen |].
      rewrite Hgen in Hn. discriminate. }
    pose proof (settleGenerator_extends agents env l agent (world s)) as H1.
    destruct (settleGenerator agents env l agent (world s)) as [[settled restarted] w'].
    eapply startupInvariant_extends; [exact Hinv | exact Hseen | exact H1].
Qed.

Lemma run_invariant (agents : Agents) (env : Env) (handler : RouteHandler)
    (inputs : list Input) :
  forall s, startupInvariant s -> startupInvariant (run agents env handler inputs s).
Proof.
  unfold run. induction inputs as [|i inputs IH]; intros s Hinv; cbn [fold_left].
  - exact Hinv.
  - apply IH, step_invariant, Hinv.
Qed.

Lemma reset_all_leaves_none_processing (st : Store) (m : PendingMessage) :
  In m (pending_messages (snd (Stores.resetStaleProcessingMessages 0 st))) ->
  message_status m <> m_processing.
Proof.
  unfold Stores.resetStaleProcessingMessages.
  cbn [snd set_pending_messages pending_messages].
  intros Hin. apply in_map_iff in Hin. destruct Hin as (m0 & <- & _).
  unfold Stores.hasStatus. cbn [Z.eqb orb]. rewrite andb_true_r.
  destruct (message_status m0) eqn:Hs; cbn; try rewrite Hs; discriminate.
Qed.

(** C6.  From the start of the process on, whatever the order in which
    the awaited calls of the initialization return, requests arrive and
    generators settle: every event that starts a session processor or
    lets a route handler run comes after the bulk reset
    [resetStaleProcessingMessages(0)], and that reset leaves no message
    in [processing] status. *)
Theorem reset_precedes_every_processor
    (agents : Agents) (env : Env) (handler : RouteHandler) (inputs : list Input)
    (sessionRows : list SdkSession) (messageRows : list PendingMessage) (t0 : Z) :
  let s := run agents env handler inputs (atStart sessionRows messageRows t0) in
  (forall pre e post,
      log (world s) = (pre ++ e :: post)%list ->
      isProcessorEvent e = true ->
      exists n, In (EvResetStaleProcessing 0 n) pre)
  /\ (forall s0 : Server,
        phase s0 = AwaitDatabase ->
        let s1 := step agents env handler (AwaitReturns true) s0 in
        phase s1 = AwaitMcp
        /\ (exists n, log (world s1)
                      = (log (world s0) ++ [EvResetStaleProcessing 0 n])%list)
        /\ forall m, In m (pending_messages (store (world s1))) ->
                     message_status m <> m_processing).
Proof.
  intros s. split.
  - intros pre e post Hlog He.
    assert (Hinv : startupInvariant s).
    { apply run_invariant. split; [reflexivity |]. right.
      repeat split; discriminate. }
    destruct Hinv as (Hord & _). rewrite Hlog in Hord.
    pose proof (resetFirst_sound false pre post e Hord He) as Hseen.
    cbn [orb] in Hseen. apply existsb_exists in Hseen.
    destruct Hseen as (r & Hin & Hr).
    destruct r; cbn in Hr; try discriminate.
    apply Z.eqb_eq in Hr. subst. eexists. exact Hin.
  - intros s0 Hphase. cbn [step]. unfold resumeInitialization. rewrite Hphase.
    pose proof (reset_all_leaves_none_processing (store (world s0))) as Hnone.
    destruct (Stores.resetStaleProcessingMessages 0 (store (world s0))) as [n st].
    cbn [withPhase phase world emit log store snd] in *.
    split; [reflexivity |]. split; [exists n; reflexivity | exact Hnone].
Qed.

Lemma reset_precedes_every_processor_witness :
  log (world (run Samples.quietAgents Samples.claudeOnly Samples.idleRoute
                Samples.earlyRequest
                (atStart Samples.crashedRows Samples.crashedMessages 5000)))
  = [ EvResetStaleProcessing 0 1; EvInitializationComplete; EvRouteHandler;
      EvStartGenerator 0%nat SDKAgent "startup-recovery" ]
  /\ exists n, In (EvResetStaleProcessing 0 n)
                 [EvResetStaleProcessing 0 1; EvInitializationComplete].
Proof.
  assert (Hlog : log (world (run Samples.quietAgents Samples.claudeOnly
                   Samples.idleRoute Samples.earlyRequest
                   (atStart Samples.crashedRows Samples.crashedMessages 5000)))
                 = [ EvResetStaleProcessing 0 1; EvInitializationComplete;
                     EvRouteHandler;
                     EvStartGenerator 0%nat SDKAgent "startup-recovery" ])
    by reflexivity.
  split; [exact Hlog |].
  exact (proj1 (reset_precedes_every_processor Samples.quietAgents
                  Samples.claudeOnly Samples.idleRoute Samples.earlyRequest
                  Samples.crashedRows Samples.crashedMessages 5000)
           [EvResetStaleProcessing 0 1; EvInitializationComplete]
           EvRouteHandler
           [EvStartGenerator 0%nat SDKAgent "startup-recovery"]
           Hlog eq_refl).
Defined.

End RecoveryFacts.

(** ** The memory-session identifier when a generator settles *)

Section MemorySessionIdReset.

Import Worker Contracts.





Lemma updateMemorySessionId_persisted (sid : Z) (v : option string) (st : Store) :
  persistedAs sid v (Stores.updateMemorySessionId sid v st).
Proof.
  unfold persistedAs, Stores.updateMemorySessionId. cbn [sdk_sessions set_sdk_sessions].
  apply List.Forall_forall. intros r' Hin. apply in_map_iff in Hin.
  destruct Hin as (r & <- & _). destruct (Z.eqb_spec (id r) sid) as [Heq|Hne].
  - intros _. reflexivity.
  - intros Hsid. contradiction.
Qed.



End MemorySessionIdReset.


(** The handlers test the identifier of the in-memory record only: when
    that is null while the row of the session holds one, the fallback
    path overwrites the row with the synthetic identifier. *)
Example fallback_overwrites_row_of_unset_session :
  let w :=
    {| Worker.store :=
         set_sdk_sessions [Samples.row7] Samples.newStore;
       Worker.log := [] |} in
  map memory_session_id (sdk_sessions (Worker.store w)) = [Some "mem-7"]
  /\ map memory_session_id
       (sdk_sessions
          (Worker.store
             (Worker.runFallbackForTerminatedSession Samples.quietAgents
                Samples.claudeOnly (Some 0%nat) w)))
     = [Some "fallback-7-5000"].
Proof. split; reflexivity. Qed.


(** ** The Codex agent *)

Section CodexFacts.

Import Codex Contracts.
Local Open Scope codex_scope.

Context `{collaborators : Collaborators}.

Lemma grows_ret {A} (a : A) : grows (ret a).
Proof. intros s. exists []. cbn. now rewrite app_nil_r. Qed.

Lemma grows_throw {A} (e : Js.value) : grows (@throw A e).
Proof. intros s. exists []. cbn. now rewrite app_nil_r. Qed.

Lemma grows_emit (e : Event) : grows (emit e).
Proof. intros s. exists [e]. reflexivity. Qed.

Lemma grows_getStore : grows getStore.
Proof. intros s. exists []. cbn. now rewrite app_nil_r. Qed.

Lemma grows_modifyStore (f : Store -> Store) : grows (modifyStore f).
Proof. intros s. exists []. cbn. now rewrite app_nil_r. Qed.

Lemma grows_await {A} (call : Store -> (Js.value + A) * Store) : grows (await call).
Proof.
  intros s. exists []. unfold await.
  destruct (call (store s)) as [[e|a] st]; cbn; now rewrite app_nil_r.
Qed.

Lemma grows_getSessionObject (l : loc) : grows (getSessionObject l).
Proof.
  intros s. exists []. unfold getSessionObject.
  destruct (heap (store s) !! l); cbn; now rewrite app_nil_r.
Qed.

Lemma grows_bind {A B} (m : M A) (k : A -> M B) :
  grows m -> (forall a, grows (k a)) -> grows (bind m k).
Proof.
  intros Hm Hk s. unfold bind. destruct (Hm s) as [x Hx].
  destruct (m s) as [[a|e|] s1]; cbn [snd] in *.
  - destruct (Hk a s1) as [y Hy]. exists (x ++ y)%list.
    rewrite Hy, Hx, app_assoc. reflexivity.
  - exists x. exact Hx.
  - exists x. exact Hx.
Qed.

Ltac grows_step :=
  match goal with
  | |- grows (bind _ _) => apply grows_bind; [|intros ?]
  | |- grows (ret _) => apply grows_ret
  | |- grows (throw _) => apply grows_throw
  | |- grows (emit _) => apply grows_emit
  | |- grows getStore => apply grows_getStore
  | |- grows (modifyStore _) => apply grows_modifyStore
  | |- grows (assign _ _) => apply grows_modifyStore
  | |- grows (pushHistory _ _) => apply grows_modifyStore
  | |- grows (await _) => apply grows_await
  | |- grows (getSessionObject _) => apply grows_getSessionObject
  | |- grows (if ?b then _ else _) => destruct b
  | |- grows (match ?x with _ => _ end) => destruct x
  end.

Lemma grows_queryCodexWithHistory (codexPath : string) (l : loc) :
  grows (queryCodexWithHistory codexPath l).
Proof. unfold queryCodexWithHistory. repeat grows_step. Qed.

Lemma grows_callProcessAgentResponse (text : string) (l : loc)
    (originalTimestamp : option Z) (lastCwd : option string) :
  grows (callProcessAgentResponse text l originalTimestamp lastCwd).
Proof. unfold callProcessAgentResponse. repeat grows_step. Qed.

Lemma grows_processMessage (codexPath : string) (l : loc) (message : QueuedMessage)
    (lastCwd : option string) :
  grows (processMessage codexPath l message lastCwd).
Proof.
  unfold processMessage.
  repeat first [ apply grows_queryCodexWithHistory
               | apply grows_callProcessAgentResponse
               | grows_step ].
Qed.

Lemma grows_consumeMessages (fuel : nat) (codexPath : string) (l : loc) (sid : Z) :
  forall lastCwd, grows (consumeMessages fuel codexPath l sid lastCwd).
Proof.
  induction fuel as [|fuel IH]; intros lastCwd; cbn [consumeMessages].
  - intros s. exists []. cbn. now rewrite app_nil_r.
  - repeat first [ apply grows_processMessage | apply IH | grows_step ].
Qed.

Lemma grows_converse (fuel : nat) (codexPath : string) (l : loc) :
  grows (converse fuel codexPath l).
Proof.
  unfold converse.
  repeat first [ apply grows_queryCodexWithHistory
               | apply grows_callProcessAgentResponse
               | apply grows_consumeMessages
               | grows_step ].
Qed.

(** The [catch] clause of [startSession] adds no insertion of its own. *)
Lemma startSession_log (fuel : nat) (l : loc) (s : State) :
  log (snd (startSession fuel l s)) = log (snd (startSessionBody fuel l s))
  \/ log (snd (startSession fuel l s))
     = (log (snd (startSessionBody fuel l s)) ++ [EvFallbackToClaude l])%list.
Proof.
  unfold startSession.
  destruct (startSessionBody fuel l s) as [[a|error|] s1]; cbn [snd];
    try (left; reflexivity).
  destruct (isAbortError error); [left; reflexivity |].
  destruct (shouldFallbackToClaude error); [|left; reflexivity].
  destruct fallbackAgent as [claude|]; [|left; reflexivity].
  right. unfold bind, emit, await. cbn [store log].
  destruct (claude l (store s1)) as [[e|a] st]; reflexivity.
Qed.

Lemma syntheticMemorySessionId_nonEmpty (session : ActiveSession) (t : Z) :
  nonEmpty (syntheticMemorySessionId session t) = true.
Proof. reflexivity. Qed.

(** The log of the [try] block for a session that lacks a memory-session
    identifier: nothing when the executable is not found, and otherwise
    the persisted identifier first. *)
Lemma startSessionBody_log (fuel : nat) (l : loc) (s : State)
    (session : ActiveSession) :
  heap (store s) !! l = Some session ->
  truthy (memorySessionId session) = false ->
  match findCodexExecutable (store s) with
  | inl error => startSessionBody fuel l s = (Throws error, s)
  | inr codexPath =>
      exists added,
        log (snd (startSessionBody fuel l s))
        = (log s ++ EvPersistMemorySessionId (sessionDbId session)
                      (syntheticMemorySessionId session (now (store s)))
                    :: added)%list
  end.
Proof.
  intros Hl Hlacks. destruct s as [st lg]. cbn [store log] in *.
  unfold startSessionBody, bind, await. cbn [store log].
  destruct (findCodexExecutable st) as [error|codexPath].
  - reflexivity.
  - unfold ensureMemorySessionId, bind, getSessionObject. cbn [store log].
    rewrite Hl, Hlacks.
    cbn [negb]. unfold getStore, assign, modifyStore, emit. cbn [store log].
    match goal with
    | |- context [converse fuel codexPath l ?s1] =>
        destruct (grows_converse fuel codexPath l s1) as [added Hadded]
    end.
    exists added. rewrite Hadded. cbn [log]. rewrite <- app_assoc. reflexivity.
Qed.

Lemma startSessionBody_minted (fuel : nat) (l : loc) (s : State)
    (session : ActiveSession) (codexPath : string) :
  heap (store s) !! l = Some session ->
  truthy (memorySessionId session) = false ->
  findCodexExecutable (store s) = inr codexPath ->
  startSessionBody fuel l s = converse fuel codexPath l (Minted.byCodex l session s).
Proof.
  intros Hl Hlacks Hfound. destruct s as [st lg]. cbn [store log] in *.
  unfold startSessionBody, bind, await. cbn [store log]. rewrite Hfound.
  unfold ensureMemorySessionId, bind, getSessionObject. cbn [store log].
  rewrite Hl, Hlacks. cbn [negb].
  unfold getStore, assign, modifyStore, emit. cbn [store log].
  reflexivity.
Qed.

Lemma byCodex_state (l : loc) (session : ActiveSession) (s : State) :
  heap (store s) !! l = Some session ->
  let v := syntheticMemorySessionId session (now (store s)) in
  heap (store (Minted.byCodex l session s)) !! l = Some (set_memorySessionId (Some v) session)
  /\ persistedAs (sessionDbId session) (Some v) (store (Minted.byCodex l session s))
  /\ map id (sdk_sessions (store (Minted.byCodex l session s))) = map id (sdk_sessions (store s))
  /\ truthy (Some v) = true.
Proof.
  intros Hl v. unfold Minted.byCodex. cbn [store].
  split; [|split; [apply updateMemorySessionId_persisted |split; [|reflexivity]]].
  - cbn [Stores.updateMemorySessionId set_sdk_sessions heap].
    rewrite updateSession_lookup, Hl. reflexivity.
  - cbn [Stores.updateMemorySessionId set_sdk_sessions sdk_sessions].
    rewrite map_map. apply map_ext. intros r.
    destruct (id r =? sessionDbId session); reflexivity.
Qed.


Lemma runFallback_minted (agents : Worker.Agents) (env : Worker.Env) (l : loc)
    (session : ActiveSession) (w : Worker.World) :
  heap (Worker.store w) !! l = Some session ->
  truthy (memorySessionId session) = false ->
  let v := Worker.fallbackSyntheticId (sessionDbId session) (now (Worker.store w)) in
  Worker.runFallbackForTerminatedSession agents env (Some l) w
  = Worker.runFallbackForTerminatedSession agents env (Some l) (Minted.forFallback l session w)
  /\ heap (Worker.store (Minted.forFallback l session w)) !! l
     = Some (set_memorySessionId (Some v) session)
  /\ persistedAs (sessionDbId session) (Some v) (Worker.store (Minted.forFallback l session w))
  /\ truthy (Some v) = true.
Proof.
  intros Hl Hlacks v.
  assert (Hl1 : heap (Worker.store (Minted.forFallback l session w)) !! l
                = Some (set_memorySessionId (Some v) session)).
  { unfold Minted.forFallback. cbn [Worker.store Stores.updateMemorySessionId set_sdk_sessions heap].
    rewrite updateSession_lookup, Hl. reflexivity. }
  split; [|split; [exact Hl1 |split; [apply updateMemorySessionId_persisted | reflexivity]]].
  unfold Worker.runFallbackForTerminatedSession at 2. rewrite Hl1.
  cbn [memorySessionId set_memorySessionId sessionDbId].
  change (truthy (Some v)) with true. cbn [negb].
  unfold Worker.runFallbackForTerminatedSession. rewrite Hl, Hlacks. cbn [negb].
  reflexivity.
Qed.


(** C8.  When [startSession] of the Codex agent runs for a session that
    lacks a memory-session identifier and the executable is found, the
    agent mints an identifier, writes it to the session object and to the
    rows of the session, and only then sends its first prompt: the rest
    of the run starts from the state that holds the identifier in memory
    and in the store, and every call that stores observations or a
    summary comes after it in the log.  Likewise the orchestrator writes
    a synthetic identifier to the session object and to its rows before
    it invokes a fallback agent for such a session. *)
Theorem memory_session_id_persisted_before_any_insert
    (fuel : nat) (l : loc) (s : State) (session : ActiveSession) :
  heap (store s) !! l = Some session ->
  truthy (memorySessionId session) = false ->
  let s' := snd (startSession fuel l s) in
  let events := drop (length (log s)) (log s') in
  let sid := sessionDbId session in
  (forall pre e post,
      events = (pre ++ e :: post)%list ->
      isInsert e = true ->
      exists v, existsb (isPersist sid) pre = true
                /\ In (EvPersistMemorySessionId sid v) pre /\ v <> "")
  /\ (forall codexPath,
        findCodexExecutable (store s) = inr codexPath ->
        exists rest,
          events = EvPersistMemorySessionId sid
                     (syntheticMemorySessionId session (now (store s))) :: rest)
  /\ (forall codexPath,
        findCodexExecutable (store s) = inr codexPath ->
        let v := syntheticMemorySessionId session (now (store s)) in
        let s1 := Minted.byCodex l session s in
        startSessionBody fuel l s = converse fuel codexPath l s1
        /\ heap (store s1) !! l = Some (set_memorySessionId (Some v) session)
        /\ persistedAs sid (Some v) (store s1)
        /\ map id (sdk_sessions (store s1)) = map id (sdk_sessions (store s))
        /\ truthy (Some v) = true
        /\ log s1 = (log s ++ [EvPersistMemorySessionId sid v])%list)
  /\ (forall agents env (w : Worker.World),
        heap (Worker.store w) !! l = Some session ->
        let v := Worker.fallbackSyntheticId sid (now (Worker.store w)) in
        let w1 := Minted.forFallback l session w in
        (exists rest,
           v <> ""
           /\ drop (length (Worker.log w))
                (Worker.log (Worker.runFallbackForTerminatedSession agents env (Some l) w))
              = Worker.EvUpdateMemorySessionId sid (Some v) :: rest)
        /\ Worker.runFallbackForTerminatedSession agents env (Some l) w
           = Worker.runFallbackForTerminatedSession agents env (Some l) w1
        /\ heap (Worker.store w1) !! l = Some (set_memorySessionId (Some v) session)
        /\ persistedAs sid (Some v) (Worker.store w1)
        /\ truthy (Some v) = true).
Proof.
  intros Hl Hlacks s' events sid.
  pose proof (startSessionBody_log fuel l s session Hl Hlacks) as Hbody.
  pose proof (startSession_log fuel l s) as Hcatch.
  fold s' in Hcatch.
  assert (Hhead : forall codexPath,
             findCodexExecutable (store s) = inr codexPath ->
             exists rest,
               events = EvPersistMemorySessionId sid
                          (syntheticMemorySessionId session (now (store s))) :: rest).
  { intros codexPath Hfound. rewrite Hfound in Hbody.
    destruct Hbody as [added Hadded]. subst events.
    destruct Hcatch as [-> | ->]; rewrite Hadded.
    - rewrite drop_app_length. eexists. reflexivity.
    - rewrite <- app_assoc, drop_app_length. eexists. reflexivity. }
  split; [|split; [exact Hhead |split]].
  - intros pre e post Hlog He.
    destruct (findCodexExecutable (store s)) as [error|codexPath] eqn:Hfind.
    + rewrite Hbody in Hcatch. cbn [snd] in Hcatch. subst events.
      destruct Hcatch as [Hc | Hc]; rewrite Hc in Hlog.
      * rewrite drop_all in Hlog. destruct pre; discriminate.
      * rewrite drop_app_length in Hlog.
        destruct pre as [|x [|y pre]]; cbn in Hlog; try discriminate.
        injection Hlog as <- _. discriminate.
    + destruct (Hhead codexPath eq_refl) as [rest Hrest].
      rewrite Hrest in Hlog.
      destruct pre as [|x pre]; cbn [app] in Hlog.
      * injection Hlog as <- _. discriminate.
      * injection Hlog as <- _.
        exists (syntheticMemorySessionId session (now (store s))).
        split; [|split].
        -- cbn [existsb isPersist]. unfold sid. rewrite Z.eqb_refl. reflexivity.
        -- left. reflexivity.
        -- discriminate.
  - intros codexPath Hfound. cbv zeta.
    split; [exact (startSessionBody_minted fuel l s session codexPath Hl Hlacks Hfound) |].
    destruct (byCodex_state l session s Hl) as (Hheap & Hrows & Hids & Hset).
    split; [exact Hheap |]. split; [exact Hrows |]. split; [exact Hids |].
    split; [exact Hset | reflexivity].
  - intros agents env w Hw. cbv zeta.
    destruct (runFallback_minted agents env l session w Hw Hlacks)
      as (Hsame & Hheap & Hrows & Hset).
    split; [|split; [exact Hsame |split; [exact Hheap |split; [exact Hrows | exact Hset]]]].
    unfold Worker.runFallbackForTerminatedSession. rewrite Hw, Hlacks. cbn [negb].
    set (v := Worker.fallbackSyntheticId (sessionDbId session) (now (Worker.store w))).
    set (w1 := Worker.emit _ _).
    assert (H1 : Worker.log w1
                 = (Worker.log w ++ [Worker.EvUpdateMemorySessionId sid (Some v)])%list)
      by reflexivity.
    clearbody w1.
    assert (Hext : exists added,
               Worker.log
                 (let '(returned, w2) :=
                    if Worker.isGeminiAvailable env
                    then Worker.tryFallback agents Worker.GeminiAgent l w1
                    else (false, w1) in
                  if returned then w2
                  else
                    let '(returned0, w3) :=
                      if Worker.isOpenRouterAvailable env
                      then Worker.tryFallback agents Worker.OpenRouterAgent l w2
                      else (false, w2) in
                    if returned0 then w3
                    else Worker.abandonSession (sessionDbId session) w3)
               = (Worker.log w1 ++ added)%list).
    { assert (H2 : Worker.extends (Worker.log w1) (Worker.log (snd
                (if Worker.isGeminiAvailable env
                 then Worker.tryFallback agents Worker.GeminiAgent l w1
                 else (false, w1))))).
      { destruct (Worker.isGeminiAvailable env);
          [apply tryFallback_extends | apply extends_refl]. }
      destruct (if Worker.isGeminiAvailable env
                then Worker.tryFallback agents Worker.GeminiAgent l w1
                else (false, w1)) as [returned w2].
      cbn [snd] in H2. destruct returned; [exact H2 |].
      assert (H3 : Worker.extends (Worker.log w2) (Worker.log (snd
                (if Worker.isOpenRouterAvailable env
                 then Worker.tryFallback agents Worker.OpenRouterAgent l w2
                 else (false, w2))))).
      { destruct (Worker.isOpenRouterAvailable env);
          [apply tryFallback_extends | apply extends_refl]. }
      destruct (if Worker.isOpenRouterAvailable env
                then Worker.tryFallback agents Worker.OpenRouterAgent l w2
                else (false, w2)) as [returned w3].
      cbn [snd] in H3. destruct returned.
      - eapply extends_trans; eassumption.
      - eapply extends_trans; [eassumption |].
        eapply extends_trans; [eassumption | apply abandonSession_extends]. }
    destruct Hext as [added Hadded].
    exists added. split; [discriminate |].
    rewrite Hadded, H1, <- app_assoc, drop_app_length. reflexivity.
Qed.

End CodexFacts.

Example codexRun_log :
  map Codex.isInsert (Codex.log Samples.codexRun) = [false; false; true; false; true]
  /\ hd_error (Codex.log Samples.codexRun)
     = Some (Codex.EvPersistMemorySessionId 7 "codex-content-7-5000").
Proof. split; reflexivity. Qed.

Lemma memory_session_id_persisted_before_any_insert_witness :
  (exists rest,
     Codex.log Samples.codexRun
     = Codex.EvPersistMemorySessionId 7 "codex-content-7-5000" :: rest)
  /\ heap (Codex.store
             (Minted.byCodex 0%nat Samples.newSession
                {| Codex.store := Samples.newStore; Codex.log := [] |})) !! 0%nat
     = Some (set_memorySessionId (Some "codex-content-7-5000") Samples.newSession)
  /\ Contracts.persistedAs 7 (Some "codex-content-7-5000")
       (Codex.store
          (Minted.byCodex 0%nat Samples.newSession
             {| Codex.store := Samples.newStore; Codex.log := [] |})).
Proof.
  destruct (@memory_session_id_persisted_before_any_insert Samples.sampleCollaborators
              3%nat 0%nat {| Codex.store := Samples.newStore; Codex.log := [] |}
              Samples.newSession eq_refl eq_refl)
    as (_ & Hfirst & Hminted & _).
  split; [exact (Hfirst "/usr/bin/codex" eq_refl) |].
  destruct (Hminted "/usr/bin/codex" eq_refl) as (_ & Hheap & Hrows & _).
  split; [exact Hheap | exact Hrows].
Defined.


Lemma buildStatusOutput_fields_witness :
  StatusOutput.message
    (StatusOutput.buildStatusOutput StatusOutput.error (Some "Failed to start worker"))
  = Some "Failed to start worker"
  /\ Some "Failed to start worker" = Some "Failed to start worker".
Proof.
  split; [reflexivity |].
  exact (proj2 (proj2 (proj2 (proj2
    (buildStatusOutput_fields StatusOutput.error (Some "Failed to start worker")))))
    "Failed to start worker" eq_refl).
Defined.

(** ** Strings: splitting and joining *)

Section TextFacts.

Import Text.

Lemma split_cons (sep : ascii) (s : string) :
  exists piece pieces, split sep s = piece :: pieces.
Proof.
  induction s as [|c s IH]; cbn [split].
  - eexists _, _. reflexivity.
  - destruct (Ascii.eqb c sep); [eexists _, _; reflexivity |].
    destruct IH as (piece & pieces & ->). eexists _, _. reflexivity.
Qed.

(** Joining the pieces of a split gives the string back. *)
Lemma join_split (sep : ascii) (s : string) : join sep (split sep s) = s.
Proof.
  unfold join. induction s as [|c s IH]; cbn [split]; [reflexivity |].
  destruct (Ascii.eqb_spec c sep) as [->|Hne].
  - destruct (split_cons sep s) as (piece & pieces & Hs).
    rewrite Hs in *. cbn [String.concat]. cbn [String.concat] in IH.
    rewrite IH. reflexivity.
  - destruct (split_cons sep s) as (piece & pieces & Hs).
    rewrite Hs in *. cbn [String.concat] in *.
    destruct pieces; cbn [String.append] in *; rewrite <- IH; reflexivity.
Qed.

Lemma split_pieces_lack (sep : ascii) (s : string) :
  Forall (fun piece => lacks sep piece = true) (split sep s).
Proof.
  induction s as [|c s IH]; cbn [split].
  - repeat constructor.
  - destruct (Ascii.eqb c sep) eqn:Hc.
    + constructor; [reflexivity | exact IH].
    + destruct (split_cons sep s) as (piece & pieces & Hs). rewrite Hs in *.
      inversion IH as [|? ? Hp Hps]; subst. constructor; [|exact Hps].
      cbn [lacks]. rewrite Hc, Hp. reflexivity.
Qed.

Lemma append_nil_l (b : string) : ("" ++ b = b)%string.
Proof. reflexivity. Qed.

Lemma append_cons (c : ascii) (a b : string) :
  (String c a ++ b = String c (a ++ b))%string.
Proof. reflexivity. Qed.

Lemma append_assoc (a b c : string) : ((a ++ b) ++ c = a ++ (b ++ c))%string.
Proof.
  induction a as [|x a IH]; [reflexivity |].
  rewrite !append_cons, IH. reflexivity.
Qed.

Lemma append_nil_r (a : string) : (a ++ "" = a)%string.
Proof.
  induction a as [|x a IH]; [reflexivity |]. rewrite append_cons, IH. reflexivity.
Qed.

Lemma split_lacks_append (sep : ascii) (a b : string) :
  lacks sep a = true ->
  split sep (a ++ String sep b) = a :: split sep b.
Proof.
  induction a as [|c a IH]; cbn [lacks]; intros Ha.
  - rewrite append_nil_l. cbn [split]. rewrite Ascii.eqb_refl. reflexivity.
  - apply andb_true_iff in Ha. destruct Ha as (Hc & Ha).
    apply negb_true_iff in Hc. rewrite append_cons. cbn [split].
    rewrite Hc, (IH Ha). reflexivity.
Qed.

(** Splitting a text read in two parts: the lines of the first part but
    the last, then the lines of what is left followed by the second. *)
Lemma split_append (sep : ascii) (a b : string) :
  split sep (a ++ b)
  = (removelast (split sep a) ++ split sep (List.last (split sep a) "" ++ b))%list.
Proof.
  induction a as [|c a IH].
  - reflexivity.
  - rewrite append_cons. cbn [split].
    destruct (split_cons sep a) as (piece & pieces & Ha).
    destruct (Ascii.eqb c sep) eqn:Hc.
    + rewrite IH, Ha. reflexivity.
    + rewrite IH, Ha.
      destruct pieces as [|q pieces].
      * cbn [removelast List.last app]. rewrite append_cons. cbn [split].
        rewrite Hc.
        destruct (split_cons sep (piece ++ b)) as (x & xs & ->). reflexivity.
      * cbn [removelast List.last app]. reflexivity.
Qed.

Lemma startsWith_append (a b : string) : startsWith (a ++ b) a = true.
Proof.
  unfold startsWith. induction a as [|c a IH]; [now destruct b |].
  rewrite append_cons. cbn [String.prefix]. rewrite IH.
  destruct (ascii_dec c c); [reflexivity | contradiction].
Qed.

End TextFacts.

(** ** The command line of the ingest script *)

Section ArgsFacts.

Import Text Args.

Lemma find_first {A} (p : A -> bool) (before : list A) (x : A) (rest : list A) :
  List.Forall (fun a => p a = false) before ->
  p x = true ->
  List.find p (before ++ x :: rest)%list = Some x.
Proof.
  induction before as [|a before IH]; intros Hb Hx; cbn [app List.find].
  - rewrite Hx. reflexivity.
  - inversion Hb as [|? ? Ha Hrest]; subst. rewrite Ha. exact (IH Hrest Hx).
Qed.

Lemma find_none {A} (p : A -> bool) (l : list A) :
  List.Forall (fun a => p a = false) l -> List.find p l = None.
Proof.
  induction l as [|a l IH]; intros Hl; [reflexivity |].
  inversion Hl as [|? ? Ha Hrest]; subst. cbn [List.find]. rewrite Ha. exact (IH Hrest).
Qed.

Lemma indexOf_first (name : string) (before rest : list string) :
  ~ In name before ->
  indexOf name (before ++ name :: rest)%list = Some (length before).
Proof.
  induction before as [|a before IH]; intros Hn; cbn [app indexOf length].
  - rewrite String.eqb_refl. reflexivity.
  - destruct (String.eqb_spec a name) as [->|Hne].
    + exfalso. apply Hn. left. reflexivity.
    + rewrite IH; [reflexivity |]. intros Hin. apply Hn. right. exact Hin.
Qed.

(** X1.  [getArgValue] on [name=value]: when the name holds no [=] and no
    earlier argument starts with [name=], the value comes back whole,
    whatever it holds (further [=] signs, nothing at all), and whether or
    not the bare name occurs among the arguments as well. *)
Theorem getArgValue_direct (before rest : list string) (name value : string) :
  lacks "=" name = true ->
  List.Forall (fun arg => startsWith arg (name ++ "=") = false) before ->
  getArgValue (before ++ (name ++ "=" ++ value)%string :: rest)%list name = Some value.
Proof.
  intros Hname Hbefore. unfold getArgValue.
  assert (Harg : name ++ "=" ++ value = (name ++ "=") ++ value)
    by (rewrite append_assoc; reflexivity).
  rewrite (find_first _ before (name ++ "=" ++ value) rest Hbefore)
    by (rewrite Harg; apply startsWith_append).
  assert (Hsplit : name ++ "=" ++ value = name ++ String "=" value) by reflexivity.
  rewrite Hsplit.
  replace (nonEmpty (name ++ String "=" value)) with true
    by (destruct name; reflexivity).
  rewrite (split_lacks_append "=" name value Hname). cbn [List.tl].
  rewrite join_split. reflexivity.
Qed.

Lemma getArgValue_direct_witness :
  getArgValue ["--root"; "--api=http://host/?a=b"; "--once"] "--api"
  = Some "http://host/?a=b".
Proof.
  apply (getArgValue_direct ["--root"] ["--once"] "--api" "http://host/?a=b");
    [reflexivity | repeat constructor].
Defined.

(** X2.  [getArgValue] on [name value]: when no argument starts with
    [name=], the result is the argument that follows the first occurrence
    of the name, and null when the name comes last. *)
Theorem getArgValue_separated (before rest : list string) (name : string) :
  List.Forall (fun arg => startsWith arg (name ++ "=") = false)
    (before ++ name :: rest)%list ->
  ~ In name before ->
  getArgValue (before ++ name :: rest)%list name = List.hd_error rest.
Proof.
  intros Hdirect Hfirst. unfold getArgValue.
  rewrite (find_none _ _ Hdirect), (indexOf_first name before rest Hfirst).
  clear. induction before as [|a before IH]; [now destruct rest | exact IH].
Qed.

Lemma getArgValue_separated_witness :
  getArgValue ["--once"; "--root"; "/mnt/data"] "--root" = Some "/mnt/data".
Proof.
  apply (getArgValue_separated ["--once"] ["/mnt/data"] "--root");
    [repeat constructor | intros [H|[]]; discriminate H].
Defined.

End ArgsFacts.

(** ** The watcher of a session file *)

Section IngestFacts.

Import Text Ingest.

Variable parse : string -> Parsed.
Variable basename : string -> string.
Variable extractSessionId : string -> string.
Variable fromStart : bool.
Variable decode : string -> string.

#[local, warnings="-notation-for-abbreviation"]
Notation processEntry := (Ingest.processEntry parse basename).
#[local, warnings="-notation-for-abbreviation"]
Notation processLine := (Ingest.processLine parse basename).
#[local, warnings="-notation-for-abbreviation"]
Notation processLines := (Ingest.processLines parse basename).
#[local, warnings="-notation-for-abbreviation"]
Notation consume := (Ingest.consume parse basename decode).
#[local, warnings="-notation-for-abbreviation"]
Notation readNewLines := (Ingest.readNewLines parse basename decode).
#[local, warnings="-notation-for-abbreviation"]
Notation switchFile := (Ingest.switchFile extractSessionId fromStart).

(** Processing an entry neither reads nor writes the position in the
    file. *)
Lemma processEntry_set_reading (o : nat) (b : string) (entry : Entry) (st : State) :
  processEntry entry (set_reading o b st) = set_reading o b (processEntry entry st).
Proof.
  unfold Ingest.processEntry.
  cbn [set_reading contentSessionId cwd pendingCalls].
  repeat case_match; reflexivity.
Qed.

Lemma processLines_set_reading (o : nat) (b : string) (lines : list string) (st : State) :
  processLines lines (set_reading o b st)
  = (set_reading o b (fst (processLines lines st)), snd (processLines lines st)).
Proof.
  revert st. induction lines as [|line lines IH]; intros st; [reflexivity |].
  cbn [Ingest.processLines]. unfold Ingest.processLine.
  destruct (isBlank line); [apply IH |].
  destruct (parse line); [apply IH | reflexivity |].
  rewrite processEntry_set_reading. apply IH.
Qed.

Lemma processLines_app (xs ys : list string) (st : State) :
  processLines (xs ++ ys)%list st
  = if snd (processLines xs st) then processLines xs st
    else processLines ys (fst (processLines xs st)).
Proof.
  revert st. induction xs as [|x xs IH]; intros st; [reflexivity |].
  cbn [app Ingest.processLines].
  destruct (processLine x st) as [st'|]; [apply IH | reflexivity].
Qed.

Lemma processEntry_frame (entry : Entry) (st : State) :
  filePath (processEntry entry st) = filePath st
  /\ offset (processEntry entry st) = offset st
  /\ buffer (processEntry entry st) = buffer st
  /\ contentSessionId (processEntry entry st) = contentSessionId st.
Proof.
  unfold Ingest.processEntry. repeat case_match; repeat split; reflexivity.
Qed.

Lemma processLines_frame (lines : list string) (st : State) :
  filePath (fst (processLines lines st)) = filePath st
  /\ offset (fst (processLines lines st)) = offset st
  /\ buffer (fst (processLines lines st)) = buffer st
  /\ contentSessionId (fst (processLines lines st)) = contentSessionId st.
Proof.
  revert st. induction lines as [|line lines IH]; intros st; [repeat split |].
  cbn [Ingest.processLines]. unfold Ingest.processLine.
  destruct (isBlank line); [apply IH |].
  destruct (parse line) as [| |entry]; [apply IH | repeat split |].
  destruct (processEntry_frame entry st) as (Hf & Ho & Hb & Hc).
  destruct (IH (processEntry entry st)) as (Hf' & Ho' & Hb' & Hc').
  rewrite Hf', Ho', Hb', Hc'. repeat split; assumption.
Qed.

Lemma removelast_app_cons {A} (xs : list A) (y : A) (ys : list A) :
  removelast (xs ++ y :: ys)%list = (xs ++ removelast (y :: ys))%list.
Proof. apply removelast_app. discriminate. Qed.

Lemma last_app_cons {A} (xs : list A) (y : A) (ys : list A) (d : A) :
  List.last (xs ++ y :: ys)%list d = List.last (y :: ys) d.
Proof.
  induction xs as [|x xs IH]; [reflexivity |].
  cbn [app]. rewrite <- IH. destruct (xs ++ y :: ys)%list eqn:E; [|reflexivity].
  destruct xs; discriminate.
Qed.

Lemma last_Forall {A} (P : A -> Prop) (l : list A) (d : A) :
  List.Forall P l -> P d -> P (List.last l d).
Proof.
  induction l as [|x l IH]; intros Hl Hd; [exact Hd |].
  inversion Hl as [|? ? Hx Hrest]; subst.
  destruct l as [|y l]; [exact Hx |]. exact (IH Hrest Hd).
Qed.

(** The bytes of a file may arrive in two parts that decode on their own
    to what they decode to together: as long as no line of the first part
    makes [processLine] throw, reading the parts one after the other does
    what reading them at once does. *)
Lemma consume_append (size1 size2 : nat) (chunk1 chunk2 : string) (st : State) :
  decode (chunk1 ++ chunk2) = decode chunk1 ++ decode chunk2 ->
  snd (consume size1 chunk1 st) = false ->
  consume size2 chunk2 (fst (consume size1 chunk1 st))
  = consume size2 (chunk1 ++ chunk2) st.
Proof.
  unfold Ingest.consume. intros Hdecode Hok. rewrite Hdecode.
  rewrite processLines_set_reading in Hok. cbn [snd] in Hok.
  rewrite (processLines_set_reading size1). cbn [fst set_reading buffer].
  rewrite <- append_assoc,
    (split_append lineFeed (buffer st ++ decode chunk1) (decode chunk2)).
  destruct (split_cons lineFeed
              (List.last (split lineFeed (buffer st ++ decode chunk1)) ""
                 ++ decode chunk2))
    as (piece & pieces & Hrest).
  rewrite Hrest, removelast_app_cons, last_app_cons, processLines_app.
  rewrite !processLines_set_reading. cbn [fst snd].
  rewrite Hok, !processLines_set_reading. cbn [fst snd].
  reflexivity.
Qed.

Lemma consume_reading (size : nat) (chunk : string) (st : State) :
  filePath (fst (consume size chunk st)) = filePath st
  /\ offset (fst (consume size chunk st)) = size
  /\ lacks lineFeed (buffer (fst (consume size chunk st))) = true.
Proof.
  unfold Ingest.consume. rewrite processLines_set_reading.
  cbn [fst filePath offset buffer set_reading].
  split; [apply processLines_frame |]. split; [reflexivity |].
  apply (last_Forall (fun piece => lacks lineFeed piece = true));
    [apply split_pieces_lack | reflexivity].
Qed.

Lemma length_append (a b : string) :
  String.length (a ++ b) = (String.length a + String.length b)%nat.
Proof.
  induction a as [|c a IH]; [reflexivity |].
  rewrite append_cons. cbn [String.length]. rewrite IH. reflexivity.
Qed.

Lemma substring_all (a : string) : String.substring 0 (String.length a) a = a.
Proof.
  induction a as [|c a IH]; [reflexivity |].
  cbn [String.length String.substring]. rewrite IH. reflexivity.
Qed.

Lemma substring_append (o : nat) (a b : string) :
  (o <= String.length a)%nat ->
  String.substring o (String.length a + String.length b - o) (a ++ b)
  = String.substring o (String.length a - o) a ++ b.
Proof.
  revert o. induction a as [|c a IH]; intros o Ho.
  - cbn [String.length] in Ho. assert (o = 0%nat) as -> by lia.
    rewrite append_nil_l. cbn [String.length Nat.add]. rewrite Nat.sub_0_r.
    rewrite substring_all. destruct b; reflexivity.
  - cbn [String.length] in *. rewrite append_cons. destruct o as [|o].
    + cbn [Nat.sub Nat.add String.substring].
      specialize (IH 0%nat ltac:(lia)). rewrite !Nat.sub_0_r in IH.
      rewrite IH, append_cons. reflexivity.
    + cbn [Nat.sub Nat.add String.substring]. apply IH. lia.
Qed.

Lemma substring_drop (a b : string) :
  String.substring (String.length a) (String.length b) (a ++ b) = b.
Proof.
  induction a as [|c a IH]; [|exact IH].
  rewrite append_nil_l. cbn [String.length]. apply substring_all.
Qed.

Lemma readNewLines_from (content path : string) (st : State) :
  filePath st = Some path ->
  (offset st <= String.length content)%nat ->
  readNewLines (Some content) st
  = if (String.length content =? offset st)%nat then (st, false)
    else consume (String.length content)
           (String.substring (offset st) (String.length content - offset st) content) st.
Proof.
  intros Hpath Hoffset. unfold Ingest.readNewLines. rewrite Hpath.
  destruct (Nat.ltb_spec (String.length content) (offset st)) as [Hlt|_]; [lia |].
  reflexivity.
Qed.

(** X3.  After [readNewLines] has read the file, the offset is the size
    of the file and the text kept for the next read holds no line feed,
    whether or not a line has made [processLine] throw; reading the same
    file again then does nothing, so that the lines which followed a line
    that threw are never processed. *)
Theorem readNewLines_reading (content path : string) (st : State) :
  filePath st = Some path ->
  lacks lineFeed (buffer st) = true ->
  let st' := fst (readNewLines (Some content) st) in
  offset st' = String.length content
  /\ lacks lineFeed (buffer st') = true
  /\ readNewLines (Some content) st' = (st', false).
Proof.
  intros Hpath Hbuffer. cbv zeta.
  assert (Hread : filePath (fst (readNewLines (Some content) st)) = Some path
                  /\ offset (fst (readNewLines (Some content) st))
                     = String.length content
                  /\ lacks lineFeed (buffer (fst (readNewLines (Some content) st)))
                     = true).
  { unfold Ingest.readNewLines. rewrite Hpath.
    destruct (String.length content <? offset st)%nat.
    - cbn [offset set_reading].
      destruct (Nat.eqb_spec (String.length content) 0) as [Hempty|_].
      + cbn [fst filePath offset buffer set_reading lacks].
        split; [exact Hpath |]. split; [lia | reflexivity].
      + destruct (consume_reading (String.length content)
                    (String.substring 0 (String.length content - 0) content)
                    (set_reading 0 "" st)) as (Hfile & Hrest).
        split; [rewrite Hfile; exact Hpath | exact Hrest].
    - destruct (Nat.eqb_spec (String.length content) (offset st)) as [Hsame|_].
      + cbn [fst]. split; [exact Hpath |]. split; [lia | exact Hbuffer].
      + destruct (consume_reading (String.length content)
                    (String.substring (offset st)
                       (String.length content - offset st) content) st)
          as (Hfile & Hrest).
        split; [rewrite Hfile; exact Hpath | exact Hrest]. }
  destruct Hread as (Hfile & Hsize & Hkept).
  split; [exact Hsize |]. split; [exact Hkept |].
  unfold Ingest.readNewLines at 1. rewrite Hfile. cbv zeta.
  rewrite Hsize, Nat.ltb_irrefl. cbv iota. rewrite Hsize, Nat.eqb_refl.
  reflexivity.
Qed.

(** X4.  A file that only grows may be read at any moments at which the
    bytes read so far and the bytes that follow decode on their own to
    what they decode to together (the cut is not inside a character of
    several bytes): if reading [content] raises no exception, reading the
    longer file afterwards leaves the watcher where reading the longer
    file at once would have (same requests sent, same pending calls, same
    remainder). *)
Theorem readNewLines_appended (content more : string) (st : State) :
  (offset st <= String.length content)%nat ->
  (let chunk :=
     String.substring (offset st) (String.length content - offset st) content in
   decode (chunk ++ more) = decode chunk ++ decode more) ->
  snd (readNewLines (Some content) st) = false ->
  readNewLines (Some (content ++ more)) (fst (readNewLines (Some content) st))
  = readNewLines (Some (content ++ more)) st.
Proof.
  intros Hoffset Hdecode Hok. cbv zeta in Hdecode.
  destruct (filePath st) as [path|] eqn:Hpath;
    [|unfold Ingest.readNewLines; rewrite Hpath; cbn [fst]; rewrite Hpath; reflexivity].
  rewrite (readNewLines_from content path st Hpath Hoffset) in *.
  destruct (Nat.eqb_spec (String.length content) (offset st)) as [Heq|Hne];
    [reflexivity |].
  set (chunk := String.substring (offset st) (String.length content - offset st) content) in *.
  destruct (consume_reading (String.length content) chunk st) as (Hfile & Hsize & _).
  rewrite (readNewLines_from (content ++ more) path);
    [|rewrite Hfile; exact Hpath | rewrite Hsize, length_append; lia].
  rewrite (readNewLines_from (content ++ more) path st Hpath)
    by (rewrite length_append; lia).
  rewrite Hsize, length_append.
  destruct (Nat.eqb_spec (String.length content + String.length more) (offset st))
    as [Heq|_]; [lia |].
  rewrite (substring_append (offset st) content more Hoffset). fold chunk.
  destruct (Nat.eqb_spec (String.length content + String.length more) (String.length content))
    as [Hempty|Hmore].
  - assert (more = "") as -> by (destruct more; [reflexivity | cbn [String.length] in Hempty; lia]).
    rewrite append_nil_r, Nat.add_0_r. cbn [String.length].
    rewrite <- Hok. symmetry. apply surjective_pairing.
  - rewrite <- (consume_append (String.length content) _ chunk more st Hdecode Hok).
    replace (String.length content + String.length more - String.length content)%nat
      with (String.length more) by lia.
    rewrite substring_drop. reflexivity.
Qed.

(** X5.  A file that has become shorter than the offset is read again
    from its first byte, and the text kept from the longer file is
    dropped; if the file is now empty nothing is read. *)
Theorem readNewLines_truncated (content : string) (st : State) :
  (String.length content < offset st)%nat ->
  readNewLines (Some content) st
  = match filePath st with
    | None => (st, false)
    | Some _ =>
        if Text.nonEmpty content
        then consume (String.length content) content (set_reading 0 "" st)
        else (set_reading 0 "" st, false)
    end.
Proof.
  intros Hshort. unfold Ingest.readNewLines.
  destruct (filePath st); [|reflexivity].
  destruct (Nat.ltb_spec (String.length content) (offset st)) as [_|Hge]; [|lia].
  cbn [offset set_reading]. rewrite Nat.sub_0_r, substring_all.
  destruct content; reflexivity.
Qed.

Lemma lookup_size {A} (m : gmap string A) (i : string) (x : A) :
  m !! i = Some x -> size m = S (size (delete i m)).
Proof.
  intros Hm. rewrite <- (insert_delete_id m i x Hm) at 1.
  apply map_size_insert_None, lookup_delete_eq.
Qed.

Lemma observations_post (r : Post) (st : State) :
  observations (post r st)
  = (observations st + if isObservation r then 1 else 0)%nat.
Proof.
  unfold observations, post. cbn [posts].
  rewrite List.filter_app, length_app. cbn [List.filter].
  destruct (isObservation r); reflexivity.
Qed.

Lemma processEntry_pairs (entry : Entry) (st : State) :
  (observations (processEntry entry st) + size (pendingCalls (processEntry entry st))
   <= observations st + size (pendingCalls st)
      + if equals (e_type entry) "response_item"
           && equals (payloadField p_type entry) "function_call"
        then 1 else 0)%nat.
Proof.
  unfold Ingest.processEntry.
  destruct (equals (e_type entry) "turn_context"
            && bool_decide (is_Some (truthyString (payloadField p_cwd entry)))).
  { unfold observations. cbn [set_cwd posts pendingCalls]. lia. }
  destruct (equals (e_type entry) "event_msg"
            && equals (payloadField p_type entry) "user_message").
  { repeat case_match; try lia;
      rewrite observations_post; cbn [isObservation post pendingCalls]; lia. }
  destruct (equals (e_type entry) "response_item"
            && equals (payloadField p_type entry) "function_call").
  { case_match; [|lia]. unfold observations. cbn [set_pendingCalls posts pendingCalls].
    rewrite map_size_insert. case_match; unfold Datatypes.id; lia. }
  destruct (equals (e_type entry) "response_item"
            && equals (payloadField p_type entry) "function_call_output"); [|lia].
  destruct (truthyString (payloadField p_call_id entry)) as [callId|]; [|lia].
  destruct (pendingCalls st !! callId) as [pending|] eqn:Hpending; [|lia].
  destruct (truthyString (contentSessionId st)); [|lia].
  rewrite observations_post. cbn [isObservation post pendingCalls set_pendingCalls].
  unfold observations. cbn [set_pendingCalls posts].
  rewrite (lookup_size _ _ _ Hpending). lia.
Qed.

(** X6.  The watcher sends at most one observation for each function call
    it has read: over any lines, the observations sent and the calls still
    waiting for their output together grow by no more than the number of
    [function_call] lines. *)
Theorem observations_bounded_by_calls (lines : list string) (st : State) :
  (observations (fst (processLines lines st))
   + size (pendingCalls (fst (processLines lines st)))
   <= observations st + size (pendingCalls st) + functionCalls parse lines)%nat.
Proof.
  revert st. induction lines as [|line lines IH]; intros st.
  - cbn [Ingest.processLines fst]. lia.
  - unfold functionCalls in *. cbn [Ingest.processLines List.filter].
    unfold Ingest.processLine, isFunctionCall at 1.
    destruct (isBlank line); cbn [negb andb]; [apply IH |].
    destruct (parse line) as [| |entry]; [apply IH | cbn [fst]; lia |].
    specialize (IH (processEntry entry st)).
    pose proof (processEntry_pairs entry st) as Hstep.
    destruct (equals (e_type entry) "response_item"
              && equals (payloadField p_type entry) "function_call");
      cbn [length]; lia.
Qed.

(** X7.  A function call followed by its output sends one observation
    that carries the name and the arguments of the call, the output and
    the working directory, under the session of the file; the call is then
    forgotten, so that a second output with the same [call_id] sends
    nothing. *)
Theorem call_then_output (callId name sessionId : string)
    (arguments output again : option Json) (st : State) :
  Text.nonEmpty callId = true ->
  truthyString (contentSessionId st) = Some sessionId ->
  let st1 := processEntry (functionCallOutput callId output)
               (processEntry (functionCall callId name arguments) st) in
  posts st1
  = (posts st ++ [PostObservation sessionId
                    {| tool_name := Some name;
                       tool_input := toolInputOf parse arguments |}
                    output (cwd st)])%list
  /\ pendingCalls st1 = delete callId (pendingCalls st)
  /\ processEntry (functionCallOutput callId again) st1 = st1.
Proof.
  intros Hid Hsession. unfold Ingest.processEntry, functionCall, functionCallOutput.
  cbn [e_type e_payload payloadField p_type p_cwd p_call_id p_name p_arguments p_output
       equals String.eqb Ascii.eqb Bool.eqb andb truthyString].
  rewrite Hid.
  cbn [set_pendingCalls pendingCalls contentSessionId cwd].
  rewrite lookup_insert_eq, Hsession.
  cbn [post set_pendingCalls posts pendingCalls contentSessionId cwd].
  rewrite delete_insert_eq, lookup_delete_eq. repeat split; reflexivity.
Qed.

(** X8.  Before a session file has been chosen the watcher sends nothing,
    whatever lines it is given. *)
Theorem no_session_no_posts (lines : list string) (st : State) :
  truthyString (contentSessionId st) = None ->
  posts (fst (processLines lines st)) = posts st.
Proof.
  revert st. induction lines as [|line lines IH]; intros st Hnone; [reflexivity |].
  cbn [Ingest.processLines]. unfold Ingest.processLine.
  destruct (isBlank line); [exact (IH st Hnone) |].
  destruct (parse line) as [| |entry]; [exact (IH st Hnone) | reflexivity |].
  rewrite IH.
  - unfold Ingest.processEntry. rewrite Hnone. repeat case_match; reflexivity.
  - destruct (processEntry_frame entry st) as (_ & _ & _ & ->). exact Hnone.
Qed.

(** X9.  Switching to another file forgets the calls of the previous one:
    the output of a call made there is not reported. *)
Theorem switchFile_forgets_calls (path : string) (size : option nat)
    (entry : Entry) (st : State) :
  filePath st <> Some path ->
  equals (e_type entry) "response_item" = true ->
  equals (payloadField p_type entry) "function_call_output" = true ->
  processEntry entry (fst (switchFile path size st)) = fst (switchFile path size st).
Proof.
  intros Hother Htype Hpayload. unfold Ingest.switchFile.
  rewrite bool_decide_eq_false_2 by exact Hother.
  unfold Ingest.processEntry. rewrite Htype, Hpayload.
  destruct (e_type entry) as [type|]; [|discriminate].
  cbn [equals] in Htype. apply String.eqb_eq in Htype. subst type.
  destruct (payloadField p_type entry) as [ptype|]; [|discriminate].
  cbn [equals] in Hpayload. apply String.eqb_eq in Hpayload. subst ptype.
  cbn [equals String.eqb Ascii.eqb Bool.eqb andb].
  destruct (truthyString (payloadField p_call_id entry)) as [callId|]; [|reflexivity].
  destruct size as [n|]; cbn [fst pendingCalls set_reading]; rewrite lookup_empty; reflexivity.
Qed.

(** X10.  When [stat] throws inside [switchFile] the new file has already
    been selected but the offset is still that of the previous file; as
    the file is now the current one, later calls of [switchFile] for it
    return at once and never set the offset. *)
Theorem switchFile_stat_failure (path : string) (size : option nat) (st : State) :
  filePath st <> Some path ->
  let st1 := fst (switchFile path None st) in
  snd (switchFile path None st) = true
  /\ filePath st1 = Some path
  /\ offset st1 = offset st
  /\ switchFile path size st1 = (st1, false).
Proof.
  intros Hother. cbv zeta.
  remember (switchFile path None st) as failed eqn:Hfailed.
  unfold Ingest.switchFile in Hfailed.
  rewrite bool_decide_eq_false_2 in Hfailed by exact Hother. subst failed.
  cbn [fst snd filePath offset].
  repeat split. unfold Ingest.switchFile. cbn [filePath].
  rewrite bool_decide_eq_true_2 by reflexivity. reflexivity.
Qed.

End IngestFacts.

Section IngestWitnesses.

Import Text Ingest.

Lemma readNewLines_reading_witness :
  Ingest.readNewLines IngestSamples.parse IngestSamples.basename IngestSamples.decode
    (Some IngestSamples.poisoned)
    (fst (Ingest.readNewLines IngestSamples.parse IngestSamples.basename
            IngestSamples.decode (Some IngestSamples.poisoned) IngestSamples.watching))
  = (fst (Ingest.readNewLines IngestSamples.parse IngestSamples.basename
            IngestSamples.decode (Some IngestSamples.poisoned) IngestSamples.watching),
     false).
Proof.
  apply (readNewLines_reading IngestSamples.parse IngestSamples.basename
           IngestSamples.decode IngestSamples.poisoned
           "/sessions/rollout-1.jsonl" IngestSamples.watching);
    reflexivity.
Defined.

(** A read that ends between the two bytes of a character keeps two
    replacement characters where a single read keeps the character. *)
Example readNewLines_cut_inside_character :
  buffer (fst (Ingest.readNewLines IngestSamples.parse IngestSamples.basename
                 IngestSamples.lossy (Some IngestSamples.twoBytes)
                 (fst (Ingest.readNewLines IngestSamples.parse IngestSamples.basename
                         IngestSamples.lossy
                         (Some (String (ascii_of_nat 195) ""))
                         IngestSamples.watching)))) = "??"
  /\ buffer (fst (Ingest.readNewLines IngestSamples.parse IngestSamples.basename
                    IngestSamples.lossy (Some IngestSamples.twoBytes)
                    IngestSamples.watching)) = "e".
Proof. split; reflexivity. Qed.

(** The line [null] makes [processLine] throw: the call and its output
    that follow are not reported, then or later. *)
Example readNewLines_skips_after_throw :
  snd (Ingest.readNewLines IngestSamples.parse IngestSamples.basename
         IngestSamples.decode (Some IngestSamples.poisoned) IngestSamples.watching)
  = true
  /\ posts (fst (Ingest.readNewLines IngestSamples.parse IngestSamples.basename
                   IngestSamples.decode (Some IngestSamples.poisoned)
                   IngestSamples.watching)) = []
  /\ offset (fst (Ingest.readNewLines IngestSamples.parse IngestSamples.basename
                    IngestSamples.decode (Some IngestSamples.poisoned)
                    IngestSamples.watching)) = 17%nat.
Proof. repeat split. Qed.

Lemma readNewLines_appended_witness :
  Ingest.readNewLines IngestSamples.parse IngestSamples.basename IngestSamples.decode
    (Some (IngestSamples.firstLine ++ IngestSamples.moreLines))
    (fst (Ingest.readNewLines IngestSamples.parse IngestSamples.basename IngestSamples.decode
            (Some IngestSamples.firstLine) IngestSamples.watching))
  = Ingest.readNewLines IngestSamples.parse IngestSamples.basename IngestSamples.decode
      (Some (IngestSamples.firstLine ++ IngestSamples.moreLines))
      IngestSamples.watching.
Proof.
  apply (readNewLines_appended IngestSamples.parse IngestSamples.basename
           IngestSamples.decode IngestSamples.firstLine IngestSamples.moreLines
           IngestSamples.watching);
    [vm_compute; lia | reflexivity | reflexivity].
Defined.

Lemma readNewLines_truncated_witness :
  Ingest.readNewLines IngestSamples.parse IngestSamples.basename IngestSamples.decode
    (Some IngestSamples.firstLine) IngestSamples.farAhead
  = Ingest.readNewLines IngestSamples.parse IngestSamples.basename IngestSamples.decode
      (Some IngestSamples.firstLine) IngestSamples.watching.
Proof.
  rewrite (readNewLines_truncated IngestSamples.parse IngestSamples.basename
             IngestSamples.decode IngestSamples.firstLine IngestSamples.farAhead)
    by (vm_compute; lia).
  reflexivity.
Defined.

Lemma call_then_output_witness :
  posts (Ingest.processEntry IngestSamples.parse IngestSamples.basename
           (functionCallOutput "call_1" (Some (JString "README.md")))
           IngestSamples.called)
  = [PostObservation "codex-rollout-1.jsonl"
       {| tool_name := Some "shell"; tool_input := None |}
       (Some (JString "README.md")) None].
Proof.
  apply (call_then_output IngestSamples.parse IngestSamples.basename
           "call_1" "shell" "codex-rollout-1.jsonl" None
           (Some (JString "README.md")) None IngestSamples.watching);
    reflexivity.
Defined.

Lemma no_session_no_posts_witness :
  posts (fst (Ingest.processLines IngestSamples.parse IngestSamples.basename
                ["call"; "output"] initialState)) = [].
Proof.
  apply (no_session_no_posts IngestSamples.parse IngestSamples.basename ["call"; "output"] initialState). reflexivity.
Defined.

Lemma switchFile_forgets_calls_witness :
  posts (Ingest.processEntry IngestSamples.parse IngestSamples.basename
           (functionCallOutput "call_1" None)
           (fst (Ingest.switchFile IngestSamples.extractSessionId true
                   "/sessions/rollout-2.jsonl" (Some 0%nat) IngestSamples.called)))
  = [].
Proof.
  rewrite (switchFile_forgets_calls IngestSamples.parse IngestSamples.basename
             IngestSamples.extractSessionId true "/sessions/rollout-2.jsonl"
             (Some 0%nat) (functionCallOutput "call_1" None) IngestSamples.called);
    [reflexivity | intros H; vm_compute in H; discriminate H | reflexivity | reflexivity].
Defined.

Lemma switchFile_stat_failure_witness :
  offset (fst (Ingest.switchFile IngestSamples.extractSessionId false
                 "/sessions/rollout-2.jsonl" None IngestSamples.farAhead))
  = 100%nat.
Proof.
  apply (switchFile_stat_failure IngestSamples.extractSessionId false
           "/sessions/rollout-2.jsonl" None IngestSamples.farAhead).
  intros H. vm_compute in H. discriminate H.
Defined.

End IngestWitnesses.

(** ** The choice of the session file *)

Section ScanFacts.

Import Text Ingest.

Variable pathJoin : string -> string -> string.

#[local, warnings="-notation-for-abbreviation"]
Notation visit := (Ingest.visit pathJoin).
#[local, warnings="-notation-for-abbreviation"]
Notation rolloutsOf := (Ingest.rolloutsOf pathJoin).

Section NodeInduction.

Variable P : Node -> Prop.
Hypothesis file_case : forall name mtimeMs, P (File name mtimeMs).
Hypothesis directory_case :
  forall name nodes, List.Forall P nodes -> P (Directory name (Some nodes)).
Hypothesis unreadable_case : forall name, P (Directory name None).
Hypothesis special_case : forall name, P (Special name).

(** Induction on a tree of directories, with the property known of every
    entry of a directory. *)
Lemma Node_nested_ind (node : Node) : P node.
Proof.
  revert node. fix IH 1. intros [name mtimeMs|name [nodes|]|name].
  - apply file_case.
  - apply directory_case. induction nodes as [|n rest IHrest].
    + constructor.
    + constructor; [apply IH | exact IHrest].
  - apply unreadable_case.
  - apply special_case.
Qed.

End NodeInduction.

Lemma fold_visit (dir : string) (nodes : list Node) :
  List.Forall (fun node => forall dir latest,
            visit dir node latest = fold_left pick (rolloutsOf dir node) latest) nodes ->
  forall latest,
    fold_left (fun acc node => visit dir node acc) nodes latest
    = fold_left pick (flat_map (rolloutsOf dir) nodes) latest.
Proof.
  induction 1 as [|node nodes Hnode _ IH]; intros latest; [reflexivity |].
  cbn [fold_left flat_map]. rewrite fold_left_app, Hnode. apply IH.
Qed.

(** The scan compares the rollout files it can examine one by one, in the
    order in which it meets them. *)
Lemma visit_rollouts (node : Node) :
  forall dir latest,
    visit dir node latest = fold_left pick (rolloutsOf dir node) latest.
Proof.
  induction node as [name mtimeMs|name nodes IH|name|name] using Node_nested_ind;
    intros dir latest; cbn [Ingest.visit Ingest.rolloutsOf]; try reflexivity.
  - destruct (isCodexRollout name), mtimeMs; reflexivity.
  - apply fold_visit. exact IH.
Qed.

Lemma scan_rollouts (dir : string) (entries : list Node) (latest : Latest) :
  scan pathJoin dir entries latest = fold_left pick (rollouts pathJoin dir entries) latest.
Proof.
  unfold scan, rollouts. apply fold_visit.
  apply List.Forall_forall. intros node _. apply visit_rollouts.
Qed.

(** What the comparisons return: the first file whose time is the
    greatest, if that time is above the initial bound. *)
Lemma fold_pick (files : list (string * Z)) (latest : Latest) :
  let result := fold_left pick files latest in
  snd latest <= snd result
  /\ List.Forall (fun file => snd file <= snd result) files
  /\ (result = latest
      \/ exists before path after,
           files = (before ++ (path, snd result) :: after)%list
           /\ result = (Some path, snd result)
           /\ snd latest < snd result
           /\ List.Forall (fun file => snd file < snd result) before).
Proof.
  cbv zeta. revert latest.
  induction files as [|[path t] files IH]; intros latest; cbn [fold_left].
  - split; [lia |]. split; [constructor | left; reflexivity].
  - specialize (IH (pick latest (path, t))).
    destruct IH as (Hlow & Hall & Hwhich).
    assert (Hpick : (snd latest < t /\ pick latest (path, t) = (Some path, t))
                    \/ (t <= snd latest /\ pick latest (path, t) = latest)).
    { unfold pick. cbn [fst snd].
      destruct (Z.gtb_spec t (snd latest)); [left | right]; split; (lia || reflexivity). }
    destruct Hpick as [(Hgt & Hpick)|(Hle & Hpick)]; rewrite Hpick in *; cbn [snd] in *.
    + split; [lia |]. split; [constructor; [exact Hlow | exact Hall] |].
      right. destruct Hwhich as [Heq|(before & p & after & Hfiles & Hres & Hlt & Hbefore)].
      * exists [], path, files. rewrite Heq. cbn [fst snd app].
        repeat split; [exact Hgt | constructor].
      * exists ((path, t) :: before), p, after. rewrite Hfiles at 1.
        repeat split; [exact Hres | lia |].
        constructor; [cbn [snd]; lia | exact Hbefore].
    + split; [exact Hlow |]. split; [constructor; [cbn [snd]; lia | exact Hall] |].
      destruct Hwhich as [Heq|(before & p & after & Hfiles & Hres & Hlt & Hbefore)];
        [left; exact Heq |].
      right. exists ((path, t) :: before), p, after. rewrite Hfiles at 1.
      repeat split; [exact Hres | exact Hlt |].
      constructor; [cbn [snd]; lia | exact Hbefore].
Qed.

(** X11.  The file [findLatestFile] returns is a rollout file under the
    root, in a directory that can be read, whose modification time is
    positive and is the greatest of all such files; among files of that
    same time it is the first the scan meets. *)
Theorem findLatestFile_latest (rootDir path : string) (entries : list Node) :
  findLatestFile pathJoin rootDir (Some entries) = Some path ->
  exists t before after,
    rollouts pathJoin rootDir entries = (before ++ (path, t) :: after)%list
    /\ 0 < t
    /\ List.Forall (fun file => snd file < t) before
    /\ List.Forall (fun file => snd file <= t) after.
Proof.
  unfold findLatestFile. rewrite scan_rollouts. intros Hfound.
  destruct (fold_pick (rollouts pathJoin rootDir entries) (None, 0))
    as (_ & Hall & [Hnone|(before & p & after & Hfiles & Hres & Hlt & Hbefore)]).
  - rewrite Hnone in Hfound. discriminate.
  - rewrite Hres in Hfound. cbn [fst snd] in *. injection Hfound as ->.
    exists (snd (fold_left pick (rollouts pathJoin rootDir entries) (None, 0))), before, after.
    repeat split; [exact Hfiles | exact Hlt | exact Hbefore |].
    rewrite Hfiles in Hall at 1. apply List.Forall_app in Hall. destruct Hall as (_ & Hall).
    inversion Hall; assumption.
Qed.

(** X12.  [findLatestFile] returns null exactly when no rollout file that
    can be examined has a positive modification time: a file whose
    [mtimeMs] is 0 is never chosen. *)
Theorem findLatestFile_none (rootDir : string) (entries : list Node) :
  findLatestFile pathJoin rootDir (Some entries) = None
  <-> List.Forall (fun file => snd file <= 0) (rollouts pathJoin rootDir entries).
Proof.
  unfold findLatestFile. rewrite scan_rollouts.
  destruct (fold_pick (rollouts pathJoin rootDir entries) (None, 0))
    as (_ & Hall & [Hnone|(before & p & after & Hfiles & Hres & Hlt & Hbefore)]).
  - rewrite Hnone in *. cbn [fst snd] in *. split; [intros _; exact Hall | reflexivity].
  - rewrite Hres. cbn [fst snd] in *. split; [discriminate |].
    intros Hold. rewrite Hfiles in Hold. apply List.Forall_app in Hold.
    destruct Hold as (_ & Hold). inversion Hold as [|? ? Hp _]; subst.
    cbn [snd] in Hp. lia.
Qed.

End ScanFacts.

Lemma findLatestFile_latest_witness :
  exists t before after,
    Ingest.rollouts IngestSamples.pathJoin "/sessions" IngestSamples.tree
    = (before ++ ("/sessions/rollout-b.jsonl", t) :: after)%list
    /\ 0 < t
    /\ List.Forall (fun file => snd file < t) before
    /\ List.Forall (fun file => snd file <= t) after.
Proof.
  apply (findLatestFile_latest IngestSamples.pathJoin "/sessions"
           "/sessions/rollout-b.jsonl" IngestSamples.tree).
  reflexivity.
Defined.

(** ** The history sent to Codex *)

Section TruncationFacts.

Import History.

(** Where the loop stops: at the oldest message, or at the first message
    that does not fit. *)
Lemma truncateLoop_stops (N T : Z) (newestFirst truncated : list ConversationMessage) :
  let kept := truncateLoop N T newestFirst truncated (totalTokens truncated) in
  kept = (rev newestFirst ++ truncated)%list
  \/ exists newer m older,
       newestFirst = (newer ++ m :: older)%list
       /\ kept = (rev newer ++ truncated)%list
       /\ (N <= Z.of_nat (length kept)
           \/ T < totalTokens kept + estimateTokens (content m)).
Proof.
  cbv zeta. revert truncated.
  induction newestFirst as [|msg older IH]; intros truncated; cbn [truncateLoop]; cbv zeta.
  - left. reflexivity.
  - destruct (Z.geb_spec (Z.of_nat (length truncated)) N) as [Hfull|Hroom]; cbn [orb].
    + right. exists [], msg, older. repeat split. left. lia.
    + destruct (Z.gtb_spec (totalTokens truncated + estimateTokens (content msg)) T)
        as [Hover|Hfits]; cbv iota.
      * right. exists [], msg, older. repeat split. right. lia.
      * specialize (IH (msg :: truncated)).
        rewrite totalTokens_cons in IH.
        replace (estimateTokens (content msg) + totalTokens truncated)
          with (totalTokens truncated + estimateTokens (content msg)) in IH by lia.
        destruct IH as [Hall|(newer & m & older' & Holder & Hkept & Hstop)].
        -- left. rewrite Hall. cbn [rev]. rewrite <- app_assoc. reflexivity.
        -- right. exists (msg :: newer), m, older'. rewrite Hkept in *. rewrite Holder.
           cbn [rev app]. rewrite <- app_assoc. repeat split. exact Hstop.
Qed.

(** X13.  [truncateHistory] drops no more than it must: the newest
    message it leaves out would have made the kept messages reach the
    message limit or exceed the token limit. *)
Theorem truncateHistory_maximal (settings : Settings)
    (history evicted : list ConversationMessage) (m : ConversationMessage) :
  history = (evicted ++ m :: truncateHistory settings history)%list ->
  maxMessages settings <= Z.of_nat (length (truncateHistory settings history))
  \/ maxTokens settings
     < totalTokens (truncateHistory settings history) + estimateTokens (content m).
Proof.
  unfold truncateHistory.
  destruct ((Z.of_nat (length history) <=? maxMessages settings)
            && (totalTokens history <=? maxTokens settings)).
  - intros Hsame. apply (f_equal (@length _)) in Hsame.
    rewrite length_app in Hsame. cbn [length] in Hsame. lia.
  - pose proof (truncateLoop_stops (maxMessages settings) (maxTokens settings)
                  (rev history) []) as Hstops.
    cbv zeta in Hstops. change (totalTokens []) with 0 in Hstops.
    destruct Hstops as [Hall|(newer & m' & older & Hrev & Hkept & Hstop)].
    + rewrite Hall, rev_involutive, app_nil_r. intros Hsame.
      apply (f_equal (@length _)) in Hsame.
      rewrite length_app in Hsame. cbn [length] in Hsame. lia.
    + rewrite Hkept in *. rewrite app_nil_r in *. intros Hsplit.
      assert (Hhistory : history = (rev older ++ m' :: rev newer)%list).
      { rewrite <- (rev_involutive history), Hrev, rev_app_distr. cbn [rev].
        rewrite <- app_assoc. reflexivity. }
      rewrite Hhistory in Hsplit at 1.
      change (rev older ++ m' :: rev newer)%list
        with (rev older ++ [m'] ++ rev newer)%list in Hsplit.
      change (evicted ++ m :: rev newer)%list
        with (evicted ++ [m] ++ rev newer)%list in Hsplit.
      rewrite !app_assoc in Hsplit. apply app_inv_tail in Hsplit.
      apply app_inj_tail in Hsplit. destruct Hsplit as (_ & <-). exact Hstop.
Qed.

Lemma estimateTokens_nonneg (text : string) : 0 <= estimateTokens text.
Proof. unfold estimateTokens, CHARS_PER_TOKEN_ESTIMATE. apply Z.div_pos; lia. Qed.

Lemma totalTokens_app (a b : list ConversationMessage) :
  totalTokens (a ++ b) = totalTokens a + totalTokens b.
Proof.
  induction a as [|m a IH]; [reflexivity |].
  cbn [app]. rewrite !totalTokens_cons, IH. lia.
Qed.

Lemma totalTokens_nonneg (l : list ConversationMessage) : 0 <= totalTokens l.
Proof.
  induction l as [|m l IH]; [reflexivity |].
  rewrite totalTokens_cons. pose proof (estimateTokens_nonneg (content m)). lia.
Qed.

(** X14.  When the newest message alone is estimated above the token
    limit, nothing is kept: the history sent to the model is empty. *)
Theorem truncateHistory_oversize_newest (settings : Settings)
    (history : list ConversationMessage) (m : ConversationMessage) :
  maxTokens settings < estimateTokens (content m) ->
  truncateHistory settings (history ++ [m]) = [].
Proof.
  intros Hover. unfold truncateHistory.
  destruct (Z.leb_spec (totalTokens (history ++ [m])) (maxTokens settings)) as [Hfits|_].
  - rewrite totalTokens_app, totalTokens_cons in Hfits.
    change (totalTokens []) with 0 in Hfits.
    pose proof (totalTokens_nonneg history). lia.
  - rewrite andb_false_r, rev_app_distr. cbn [rev app truncateLoop length].
    destruct (Z.gtb_spec (0 + estimateTokens (content m)) (maxTokens settings));
      [rewrite orb_true_r; reflexivity | lia].
Qed.

End TruncationFacts.

Lemma truncateHistory_maximal_witness :
  History.maxMessages Samples.sampleSettings
  <= Z.of_nat (length (History.truncateHistory Samples.sampleSettings Samples.sampleHistory))
  \/ History.maxTokens Samples.sampleSettings
     < History.totalTokens (History.truncateHistory Samples.sampleSettings Samples.sampleHistory)
       + History.estimateTokens "first prompt".
Proof.
  apply (truncateHistory_maximal Samples.sampleSettings Samples.sampleHistory []
           {| role := user; content := "first prompt" |}).
  reflexivity.
Defined.

Lemma truncateHistory_oversize_newest_witness :
  History.truncateHistory Fixtures.tightSettings
    (Samples.sampleHistory ++ [ {| role := user; content := "second answer" |} ]) = [].
Proof.
  apply (truncateHistory_oversize_newest Fixtures.tightSettings Samples.sampleHistory
           {| role := user; content := "second answer" |}).
  vm_compute. reflexivity.
Defined.

(** ** The choice of the agent and the classification of errors *)

Section ClassificationFacts.

Import Worker.

(** X15.  [getActiveAgent] never returns a provider that is not
    available: it returns the Gemini agent only when Gemini is available,
    the OpenRouter agent only when OpenRouter is available, and the Claude
    SDK agent when neither is, whatever provider the settings name. *)
Theorem getActiveAgent_available (env : Env) :
  (getActiveAgent env = GeminiAgent -> isGeminiAvailable env = true)
  /\ (getActiveAgent env = OpenRouterAgent -> isOpenRouterAvailable env = true)
  /\ (isGeminiAvailable env = false -> isOpenRouterAvailable env = false ->
      getActiveAgent env = SDKAgent).
Proof.
  unfold getActiveAgent.
  destruct (String.eqb (CLAUDE_MEM_PROVIDER env) "openrouter"),
           (String.eqb (CLAUDE_MEM_PROVIDER env) "gemini"),
           (String.eqb (CLAUDE_MEM_PROVIDER env) "auto"),
           (isOpenRouterAvailable env), (isGeminiAvailable env);
    repeat split; intros; congruence.
Qed.

(** X16.  A generator never starts on an aborted controller: after the
    synchronous part of [startSessionProcessor] the session holds a
    controller that is not aborted, the one it had if that was not
    aborted and a new one otherwise, and its promise is attached. *)
Theorem beginGenerator_live_controller (env : Env) (l : loc) (source : string)
    (w : World) (session : ActiveSession) :
  heap (store w) !! l = Some session ->
  exists session',
    heap (store (fst (beginGenerator env l source w))) !! l = Some session'
    /\ aborted (abortController session') = false
    /\ generatorPromise session' = true
    /\ (aborted (abortController session) = false ->
        abortController session' = abortController session)
    /\ (aborted (abortController session) = true ->
        controllerId (abortController session') = nextController (store w)).
Proof.
  intros Hl. unfold beginGenerator. rewrite Hl.
  destruct (aborted (abortController session)) eqn:Haborted.
  - destruct (newAbortController_spec l w session Hl) as (Hnew & _).
    cbv zeta in Hnew. cbn [fst onStore store emit].
    rewrite updateSession_lookup, Hnew. cbn [fmap option_fmap option_map].
    eexists. split; [reflexivity |]. cbn. repeat split; intros; congruence.
  - cbn [fst onStore store emit].
    rewrite updateSession_lookup, Hl. cbn [fmap option_fmap option_map].
    eexists. split; [reflexivity |]. cbn. repeat split; intros; congruence.
Qed.

(** X17.  The fatal test of the error handler reads the [message] of
    whatever was thrown, [Error] or not.  A thrown value without a
    message is never taken for a fatal configuration error, whatever its
    text, and unless it reads as a terminated session the promise is
    rejected with it; a thrown object that is not an [Error] is fatal
    exactly when its message holds a fatal pattern, as an [Error] with
    that message is, while the test for a terminated session reads its
    [String(error)]. *)
Theorem thrown_value_fatal_only_by_message (agents : Agents) (env : Env) (l : loc)
    (w : World) :
  (forall repr,
      fst (fst (onGeneratorError agents env l (Js.Thrown repr) w)) = false
      /\ (isSessionTerminatedError (Js.Thrown repr) = false ->
          snd (fst (onGeneratorError agents env l (Js.Thrown repr) w))
          = Rejected (Js.Thrown repr)))
  /\ (forall name message repr,
        fst (fst (onGeneratorError agents env l (Js.ThrownObject message repr) w))
        = isUnrecoverableError (Js.Error name message)
        /\ (isUnrecoverableError (Js.Error name message) = true ->
            onGeneratorError agents env l (Js.ThrownObject message repr) w
            = (true, Resolved, w))
        /\ isSessionTerminatedError (Js.ThrownObject message repr)
           = isSessionTerminatedError (Js.Thrown repr)).
Proof.
  split.
  - intros repr. unfold onGeneratorError. cbn [Js.messageOrEmpty].
    change (Js.someIncludes unrecoverablePatterns "") with false. cbv iota.
    destruct (isSessionTerminatedError (Js.Thrown repr)).
    + split; [reflexivity | discriminate].
    + destruct (heap (store w) !! l); split; reflexivity.
  - intros name message repr.
    unfold onGeneratorError, isUnrecoverableError. cbn [Js.messageOrEmpty].
    split; [|split; [|reflexivity]].
    + destruct (Js.someIncludes unrecoverablePatterns message); [reflexivity |].
      destruct (isSessionTerminatedError (Js.ThrownObject message repr));
        [reflexivity |].
      destruct (heap (store w) !! l); reflexivity.
    + intros ->. reflexivity.
Qed.

Lemma prefix_append (p s post : string) :
  String.prefix p s = true -> String.prefix p (s ++ post) = true.
Proof.
  revert s. induction p as [|c p IH]; intros s Hp; [now destruct (s ++ post) |].
  destruct s as [|d s]; [discriminate |].
  rewrite append_cons. cbn [String.prefix] in *.
  destruct (ascii_dec c d); [apply IH; exact Hp | discriminate].
Qed.

Lemma includes_append_r (s pat post : string) :
  Js.includes s pat = true -> Js.includes (s ++ post) pat = true.
Proof.
  induction s as [|c s IH]; cbn [Js.includes]; intros H.
  - rewrite orb_false_r in H. rewrite append_nil_l.
    destruct pat; [now destruct post | discriminate].
  - rewrite append_cons. cbn [Js.includes].
    apply orb_true_iff in H. apply orb_true_iff. destruct H as [H|H].
    + left. rewrite <- append_cons. apply prefix_append. exact H.
    + right. apply IH. exact H.
Qed.

Lemma includes_append_l (pre s pat : string) :
  Js.includes s pat = true -> Js.includes (pre ++ s) pat = true.
Proof.
  intros H. induction pre as [|c pre IH]; [exact H |].
  rewrite append_cons. cbn [Js.includes]. rewrite IH. apply orb_true_r.
Qed.

Lemma includes_wrapped (pre s post pat : string) :
  Js.includes s pat = true -> Js.includes (pre ++ s ++ post) pat = true.
Proof. intros H. apply includes_append_l, includes_append_r, H. Qed.

Lemma toLowerCase_append (a b : string) :
  Js.toLowerCase (a ++ b) = Js.toLowerCase a ++ Js.toLowerCase b.
Proof.
  induction a as [|c a IH]; [reflexivity |].
  rewrite append_cons. cbn [Js.toLowerCase]. rewrite IH, append_cons. reflexivity.
Qed.

(** X18.  The two tests of the error handler look for their patterns
    anywhere in the message and ignore the name of the error: a message
    that is fatal, or that tells a terminated session, stays so when it is
    wrapped in a longer message. *)
Theorem error_classification_survives_wrapping
    (name name' message pre post : string) :
  (isUnrecoverableError (Js.Error name message) = true ->
   isUnrecoverableError (Js.Error name' (pre ++ message ++ post)) = true)
  /\ (isSessionTerminatedError (Js.Error name message) = true ->
      isSessionTerminatedError (Js.Error name' (pre ++ message ++ post)) = true).
Proof.
  split.
  - unfold isUnrecoverableError, Js.someIncludes. cbn [Js.messageOrEmpty].
    intros H. apply existsb_exists in H. destruct H as (pattern & Hin & Hinc).
    apply existsb_exists. exists pattern. split; [exact Hin |].
    apply includes_wrapped. exact Hinc.
  - unfold isSessionTerminatedError. cbn [Js.messageOrString].
    rewrite !toLowerCase_append. intros H.
    repeat (apply orb_true_iff in H; destruct H as [H|H]);
      repeat (apply orb_true_iff; ((right; apply includes_wrapped; exact H) || left));
      apply includes_wrapped; exact H.
Qed.

End ClassificationFacts.

Lemma getActiveAgent_available_witness :
  Worker.getActiveAgent Samples.claudeOnly = Worker.SDKAgent.
Proof.
  apply (getActiveAgent_available Samples.claudeOnly); reflexivity.
Defined.

Lemma beginGenerator_live_controller_witness :
  exists session',
    heap (Worker.store
            (fst (Worker.beginGenerator Samples.claudeOnly 0%nat "init" Samples.world7)))
      !! 0%nat = Some session'
    /\ aborted (abortController session') = false
    /\ generatorPromise session' = true
    /\ (aborted (abortController Samples.session7) = false ->
        abortController session' = abortController Samples.session7)
    /\ (aborted (abortController Samples.session7) = true ->
        controllerId (abortController session')
        = nextController (Worker.store Samples.world7)).
Proof.
  apply (beginGenerator_live_controller Samples.claudeOnly 0%nat "init"
           Samples.world7 Samples.session7).
  reflexivity.
Defined.

Lemma thrown_value_fatal_only_by_message_witness :
  snd (fst (Worker.onGeneratorError Samples.quietAgents Samples.claudeOnly 0%nat
              (Js.Thrown "spawn failed") Samples.world7))
  = Worker.Rejected (Js.Thrown "spawn failed")
  /\ Worker.onGeneratorError Samples.quietAgents Samples.claudeOnly 0%nat
       (Js.ThrownObject "spawn failed" "[object Object]") Samples.world7
     = (true, Worker.Resolved, Samples.world7).
Proof.
  destruct (thrown_value_fatal_only_by_message Samples.quietAgents
              Samples.claudeOnly 0%nat Samples.world7) as (Hbare & Hobject).
  split.
  - apply (Hbare "spawn failed"). reflexivity.
  - apply (Hobject "Error" "spawn failed" "[object Object]"). reflexivity.
Defined.

Lemma error_classification_survives_wrapping_witness :
  Worker.isUnrecoverableError
    (Js.Error "Error" ("Codex CLI failed: " ++ "spawn codex ENOENT" ++ "")) = true.
Proof.
  apply (proj1 (error_classification_survives_wrapping
                  "Error" "Error" "spawn codex ENOENT" "Codex CLI failed: " "")).
  reflexivity.
Defined.

(** ** The recovery pass and a failed start *)

Section RecoveryPassFacts.

Import Worker Recovery.

Lemma recoverSessions_counts (env : Env) (sessionLimit : Z) (ids : list Z) :
  forall (result : RecoveryResult) (gs : list (loc * AgentKind)) (w : World),
    let '(result', gs', _) := recoverSessions env sessionLimit ids result gs w in
    sessionsStarted result' - sessionsStarted result
    = Z.of_nat (length (startedSessionIds result'))
      - Z.of_nat (length (startedSessionIds result))
    /\ sessionsStarted result' - sessionsStarted result
       = Z.of_nat (length gs') - Z.of_nat (length gs)
    /\ sessionsStarted result <= sessionsStarted result'
    /\ sessionsStarted result' <= Z.max (sessionsStarted result) sessionLimit
    /\ sessionsSkipped result <= sessionsSkipped result'
    /\ (sessionsStarted result' - sessionsStarted result)
       + (sessionsSkipped result' - sessionsSkipped result)
       <= Z.of_nat (length ids)
    /\ totalPendingSessions result' = totalPendingSessions result.
Proof.
  induction ids as [|sid ids IH]; intros result gs w; cbn [recoverSessions].
  - repeat split; cbn [length]; lia.
  - destruct (Z.geb_spec (sessionsStarted result) sessionLimit) as [Hfull|Hroom].
    { repeat split; cbn [length]; lia. }
    destruct (hasGenerator (store w) sid).
    { specialize (IH (skipped result) gs w).
      destruct (recoverSessions env sessionLimit ids (skipped result) gs w)
        as ((result' & gs') & w').
      cbn [skipped sessionsStarted sessionsSkipped startedSessionIds
           totalPendingSessions length] in *.
      repeat split; lia. }
    destruct (Stores.initializeSession sid (store w)) as [(l & st)|].
    2:{ specialize (IH (skipped result) gs w).
        destruct (recoverSessions env sessionLimit ids (skipped result) gs w)
          as ((result' & gs') & w').
        cbn [skipped sessionsStarted sessionsSkipped startedSessionIds
             totalPendingSessions length] in *.
        repeat split; lia. }
    destruct (beginGenerator env l "startup-recovery" {| store := st; log := log w |})
      as (w1 & agent).
    specialize (IH (started sid result) (gs ++ [(l, agent)])%list w1).
    destruct (recoverSessions env sessionLimit ids (started sid result)
                (gs ++ [(l, agent)])%list w1) as ((result' & gs') & w').
    cbn [started sessionsStarted sessionsSkipped startedSessionIds
         totalPendingSessions] in *.
    rewrite !length_app in IH. cbn [length] in *.
    repeat split; lia.
Qed.

(** X19.  The result of [processPendingQueues] adds up: the sessions
    started are as many as the identifiers reported and as the generators
    begun, never more than the limit, and started and skipped sessions
    together are never more than the sessions with pending work. *)
Theorem processPendingQueues_bounds (env : Env) (sessionLimit : Z) (w : World) :
  let result := fst (fst (processPendingQueues env sessionLimit w)) in
  let started := snd (fst (processPendingQueues env sessionLimit w)) in
  sessionsStarted result = Z.of_nat (length (startedSessionIds result))
  /\ length started = length (startedSessionIds result)
  /\ 0 <= sessionsStarted result <= Z.max 0 sessionLimit
  /\ 0 <= sessionsSkipped result
  /\ sessionsStarted result + sessionsSkipped result
     <= Z.of_nat (totalPendingSessions result).
Proof.
  cbv zeta. unfold processPendingQueues.
  set (w1 := failStaleSessions w).
  set (ids := Stores.getSessionsWithPendingMessages (store w1)).
  set (result0 := {| totalPendingSessions := length ids; sessionsStarted := 0;
                     sessionsSkipped := 0; startedSessionIds := [] |}).
  pose proof (recoverSessions_counts env sessionLimit ids result0 [] w1) as H.
  destruct (recoverSessions env sessionLimit ids result0 [] w1) as ((result & gs) & w').
  cbn [fst snd]. subst result0.
  cbn [sessionsStarted sessionsSkipped startedSessionIds totalPendingSessions length] in H.
  destruct H as (Hids & Hgs & Hlow & Hhigh & Hskip & Hsum & Htotal).
  rewrite Htotal. repeat split; lia.
Qed.

Lemma failed_not_stale (threshold at_epoch : Z) (r : SdkSession) :
  isStaleSession threshold (failSession at_epoch r) = false.
Proof. reflexivity. Qed.

Lemma inIds_map_id (threshold : Z) (rows : list SdkSession) (r : SdkSession) :
  In r rows -> isStaleSession threshold r = true ->
  inIds (map id (List.filter (isStaleSession threshold) rows)) (id r) = true.
Proof.
  intros Hin Hstale. unfold inIds. apply existsb_exists. exists (id r).
  split; [|apply Z.eqb_refl].
  apply in_map. apply List.filter_In. split; assumption.
Qed.

Lemma filter_nil_Forall {A} (f : A -> bool) (l : list A) :
  List.Forall (fun x => f x = false) l -> List.filter f l = [].
Proof.
  induction 1 as [|x l Hx _ IH]; [reflexivity |].
  cbn [List.filter]. rewrite Hx. exact IH.
Qed.

(** X20.  After the clean-up of stale sessions none is left that is
    stale: a second clean-up at the same time changes neither table and
    reports nothing. *)
Theorem failStaleSessions_idempotent (w : World) :
  staleSessionIds (store (failStaleSessions w)) = []
  /\ failStaleSessions (failStaleSessions w) = failStaleSessions w.
Proof.
  assert (Hnone : staleSessionIds (store (failStaleSessions w)) = []).
  { unfold failStaleSessions.
    destruct (0 <? length (staleSessionIds (store w)))%nat eqn:Hany.
    - unfold staleSessionIds at 1. cbn [emit store set_pending_messages
        set_sdk_sessions sdk_sessions now].
      rewrite filter_nil_Forall; [reflexivity |].
      apply List.Forall_forall. intros r' Hin.
      apply in_map_iff in Hin. destruct Hin as (r & <- & Hin).
      destruct (inIds (staleSessionIds (store w)) (id r)) eqn:Hid.
      + apply failed_not_stale.
      + destruct (isStaleSession (now (store w) - STALE_SESSION_THRESHOLD_MS) r) eqn:Hstale;
          [|reflexivity].
        unfold staleSessionIds in Hid.
        rewrite (inIds_map_id _ _ r Hin Hstale) in Hid. discriminate.
    - apply Nat.ltb_ge in Hany.
      destruct (staleSessionIds (store w)); [reflexivity | cbn [length] in Hany; lia]. }
  split; [exact Hnone |].
  unfold failStaleSessions at 1. rewrite Hnone. reflexivity.
Qed.

End RecoveryPassFacts.

Section FailedStartFacts.

Import Worker Recovery Conditions.

Variable agents : Agents.
Variable env : Env.
Variable handler : RouteHandler.

Lemma existsb_snoc {A} (f : A -> bool) (l : list A) (x : A) :
  existsb f (l ++ [x]) = existsb f l || f x.
Proof. rewrite existsb_app. cbn [existsb]. rewrite orb_false_r. reflexivity. Qed.

Lemma step_notServing (i : Input) (s : Server) :
  notServing s ->
  phase (step agents env handler i s) <> Initialized ->
  notServing (step agents env handler i s).
Proof.
  intros (Hflag & Hgens & Hlog) Hphase. destruct i as [ok| | |n]; cbn [step] in *.
  - unfold resumeInitialization in *.
    destruct (phase s) eqn:Hp; destruct ok; cbn [withPhase phase] in *;
      try (repeat split; assumption); try contradiction.
    + destruct (Stores.resetStaleProcessingMessages 0 (store (world s))) as (n & st).
      repeat split; [exact Hflag | exact Hgens |].
      cbn [withPhase world emit log]. rewrite existsb_snoc, Hlog. reflexivity.
    + exfalso. apply Hphase.
      destruct (processPendingQueues env 50 _) as ((r & gs) & w'). reflexivity.
  - unfold guardApiRequest. rewrite Hflag. repeat split; assumption.
  - repeat split; assumption.
  - unfold settleNth. rewrite Hgens. cbn. repeat split; assumption.
Qed.

Lemma phase_Initialized_stays (i : Input) (s : Server) :
  phase s = Initialized -> phase (step agents env handler i s) = Initialized.
Proof.
  intros Hp. destruct i as [ok| | |n]; cbn [step].
  - unfold resumeInitialization. rewrite Hp. exact Hp.
  - unfold guardApiRequest, runRoute.
    destruct (initializationCompleteFlag s); [|exact Hp].
    destruct (handler _). exact Hp.
  - exact Hp.
  - unfold settleNth. destruct (generators s !! n) as [(l & agent)|]; [|exact Hp].
    destruct (settleGenerator agents env l agent (world s)) as ((? & ?) & ?). exact Hp.
Qed.

Lemma run_notServing (inputs : list Input) (s : Server) :
  notServing s ->
  phase (run agents env handler inputs s) <> Initialized ->
  notServing (run agents env handler inputs s).
Proof.
  revert s. induction inputs as [|i inputs IH]; intros s Hs Hphase; [exact Hs |].
  unfold run in *. cbn [fold_left] in *.
  apply IH; [|exact Hphase].
  apply step_notServing; [exact Hs |].
  intros Hinit. apply Hphase. clear - Hinit.
  revert Hinit. generalize (step agents env handler i s). 
  induction inputs as [|j inputs IH]; intros s' Hinit; [exact Hinit |].
  cbn [fold_left]. apply IH. apply phase_Initialized_stays. exact Hinit.
Qed.

Lemma failed_step (i : Input) (s : Server) :
  phase s = InitializationFailed -> notServing s ->
  world (step agents env handler i s) = world s
  /\ phase (step agents env handler i s) = InitializationFailed.
Proof.
  intros Hp (Hflag & Hgens & _). destruct i as [ok| | |n]; cbn [step].
  - unfold resumeInitialization. rewrite Hp. split; [reflexivity | exact Hp].
  - unfold guardApiRequest. rewrite Hflag. split; [reflexivity | exact Hp].
  - split; [reflexivity | exact Hp].
  - unfold settleNth. rewrite Hgens. split; [reflexivity | exact Hp].
Qed.

(** X21.  When [initializeBackground] fails, the worker serves nothing
    behind the guard of [/api]: the guard stays closed, no route handler
    and no processor has run, and whatever requests, timeouts and
    resolutions follow, the store and the log stay as they are. *)
Theorem failed_initialization_serves_nothing
    (sessionRows : list SdkSession) (messageRows : list PendingMessage)
    (at_epoch : Z) (inputs later : list Input) :
  let failed := run agents env handler inputs (atStart sessionRows messageRows at_epoch) in
  phase failed = InitializationFailed ->
  initializationCompleteFlag failed = false
  /\ existsb isProcessorEvent (log (world failed)) = false
  /\ world (run agents env handler later failed) = world failed
  /\ phase (run agents env handler later failed) = InitializationFailed.
Proof.
  cbv zeta. intros Hfailed.
  remember (run agents env handler inputs (atStart sessionRows messageRows at_epoch))
    as failed eqn:Hrun.
  assert (Hquiet : notServing failed).
  { rewrite Hrun. apply run_notServing; [repeat split |].
    rewrite <- Hrun, Hfailed. discriminate. }
  split; [apply Hquiet |]. split; [apply Hquiet |].
  clear Hrun. revert failed Hfailed Hquiet.
  induction later as [|i later IH]; intros s Hp Hs; [split; [reflexivity | exact Hp] |].
  unfold run in *. cbn [fold_left].
  destruct (failed_step i s Hp Hs) as (Hw & Hp').
  assert (Hs' : notServing (step agents env handler i s)).
  { apply step_notServing; [exact Hs | rewrite Hp'; discriminate]. }
  destruct (IH _ Hp' Hs') as (Hw2 & Hp2). rewrite Hw2, Hw. split; [reflexivity | exact Hp2].
Qed.

End FailedStartFacts.

Lemma failed_initialization_serves_nothing_witness :
  Recovery.world
    (Recovery.run Samples.quietAgents Samples.claudeOnly Samples.idleRoute
       [Recovery.ApiRequest; Recovery.GuardTimeout]
       (Recovery.run Samples.quietAgents Samples.claudeOnly Samples.idleRoute
          Fixtures.databaseFails
          (Recovery.atStart Samples.crashedRows Samples.crashedMessages 5000)))
  = Recovery.world
      (Recovery.run Samples.quietAgents Samples.claudeOnly Samples.idleRoute
         Fixtures.databaseFails
         (Recovery.atStart Samples.crashedRows Samples.crashedMessages 5000)).
Proof.
  apply (failed_initialization_serves_nothing
           Samples.quietAgents Samples.claudeOnly Samples.idleRoute
           Samples.crashedRows Samples.crashedMessages 5000
           Fixtures.databaseFails [Recovery.ApiRequest; Recovery.GuardTimeout]).
  reflexivity.
Defined.

(** ** Starting the worker daemon *)

Section StartupFacts.

Import Startup.

(** X22.  On Windows, after a start that has spawned the daemon and
    failed, the lock file bears the time of the attempt; while less than
    two minutes have passed, a call that finds no worker and a free port
    returns false without spawning and leaves the lock as it is, and once
    two minutes have passed it spawns again. *)
Theorem spawn_cooldown_on_windows (host : Host) (first second : Probes)
    (now1 now2 : Z) (lock : LockFile) :
  win32 host = true ->
  dataDirWritable host = true ->
  spawned (snd (ensureWorkerStarted host first now1 lock)) = true ->
  fst (fst (ensureWorkerStarted host first now1 lock)) = false ->
  healthyAtOnce second = false ->
  portInUse second = false ->
  let lock1 := snd (fst (ensureWorkerStarted host first now1 lock)) in
  lock1 = Present (Some now1)
  /\ (now2 - now1 < WINDOWS_SPAWN_COOLDOWN_MS ->
      ensureWorkerStarted host second now2 lock1 = (false, lock1, []))
  /\ (WINDOWS_SPAWN_COOLDOWN_MS <= now2 - now1 ->
      spawned (snd (ensureWorkerStarted host second now2 lock1)) = true).
Proof.
  intros Hwin Hwrite Hspawned Hfailed Hdown Hfree. cbv zeta.
  assert (Hlock : snd (fst (ensureWorkerStarted host first now1 lock))
                  = Present (Some now1)).
  { revert Hspawned Hfailed. unfold ensureWorkerStarted, markWorkerSpawnAttempted.
    rewrite Hwin, Hwrite. cbn [negb].
    destruct (healthyAtOnce first), (versionMatches first), (portFreed first),
             (portInUse first), (healthyWhileInUse first),
             (shouldSkipSpawnOnWindows host now1 lock), (spawnDaemon first),
             (healthyAfterSpawn first);
      cbn; intros; congruence. }
  rewrite Hlock. split; [reflexivity |].
  unfold ensureWorkerStarted, shouldSkipSpawnOnWindows, markWorkerSpawnAttempted.
  rewrite Hdown, Hfree, Hwin, Hwrite. cbn [andb negb].
  split; intros Htime.
  - destruct (Z.ltb_spec (now2 - now1) WINDOWS_SPAWN_COOLDOWN_MS); [reflexivity | lia].
  - destruct (Z.ltb_spec (now2 - now1) WINDOWS_SPAWN_COOLDOWN_MS); [lia |].
    destruct (spawnDaemon second), (healthyAfterSpawn second); reflexivity.
Qed.

(** X23.  [ensureWorkerStarted] returns true only on a health check
    that has succeeded: the first one together with a matching version
    (nothing is done then), the one made while the port is in use
    (nothing is spawned), or the one that follows the spawn, after which
    the lock of that attempt is cleared. *)
Theorem ensureWorkerStarted_true_only_if_healthy (host : Host) (probes : Probes)
    (now : Z) (lock : LockFile) :
  fst (fst (ensureWorkerStarted host probes now lock)) = true ->
  let actions := snd (ensureWorkerStarted host probes now lock) in
  (healthyAtOnce probes = true /\ versionMatches probes = true /\ actions = [])
  \/ (portInUse probes = true /\ healthyWhileInUse probes = true
      /\ spawned actions = false)
  \/ (portInUse probes = false /\ healthyAfterSpawn probes = true
      /\ spawned actions = true
      /\ snd (fst (ensureWorkerStarted host probes now lock))
         = clearWorkerSpawnAttempted host (markWorkerSpawnAttempted host now lock)).
Proof.
  unfold ensureWorkerStarted.
  destruct (healthyAtOnce probes), (versionMatches probes), (portFreed probes),
           (portInUse probes), (healthyWhileInUse probes),
           (shouldSkipSpawnOnWindows host now lock), (spawnDaemon probes),
           (healthyAfterSpawn probes);
    cbn; intros H; try discriminate H; tauto.
Qed.

(** X24.  Off Windows the lock file is neither read nor written: the
    result and the actions do not depend on it and it is left as it
    is. *)
Theorem spawn_lock_only_on_windows (host : Host) (probes : Probes) (now : Z)
    (lock : LockFile) :
  win32 host = false ->
  ensureWorkerStarted host probes now lock
  = (fst (fst (ensureWorkerStarted host probes now Absent)), lock,
     snd (ensureWorkerStarted host probes now Absent)).
Proof.
  intros Hwin.
  unfold ensureWorkerStarted, shouldSkipSpawnOnWindows, markWorkerSpawnAttempted,
    clearWorkerSpawnAttempted.
  rewrite Hwin. cbn [negb].
  destruct (healthyAtOnce probes), (versionMatches probes), (portFreed probes),
           (portInUse probes), (spawnDaemon probes), (healthyAfterSpawn probes);
    reflexivity.
Qed.

End StartupFacts.

Lemma spawn_cooldown_on_windows_witness :
  Startup.ensureWorkerStarted StartupSamples.windows StartupSamples.neverHealthy
    61000 (Startup.Present (Some 1000))
  = (false, Startup.Present (Some 1000), []).
Proof.
  destruct (spawn_cooldown_on_windows StartupSamples.windows
              StartupSamples.neverHealthy StartupSamples.neverHealthy
              1000 61000 Startup.Absent
              eq_refl eq_refl eq_refl eq_refl eq_refl eq_refl) as (_ & Hskip & _).
  apply Hskip. reflexivity.
Defined.

Lemma ensureWorkerStarted_true_only_if_healthy_witness :
  Startup.healthyAfterSpawn StartupSamples.startsWell = true.
Proof.
  destruct (ensureWorkerStarted_true_only_if_healthy StartupSamples.linux
              StartupSamples.startsWell 1000 Startup.Absent eq_refl)
    as [(H & _)|[(H & _)|(_ & H & _)]]; [discriminate H | discriminate H | exact H].
Defined.

Lemma spawn_lock_only_on_windows_witness :
  snd (fst (Startup.ensureWorkerStarted StartupSamples.linux
              StartupSamples.neverHealthy 1000 (Startup.Present (Some 900))))
  = Startup.Present (Some 900).
Proof.
  rewrite (spawn_lock_only_on_windows StartupSamples.linux
             StartupSamples.neverHealthy 1000 (Startup.Present (Some 900)) eq_refl).
  reflexivity.
Defined.

(** ** The Codex executable *)

Section ExecutableFacts.

Import Executable.

Variable fs : FileSystem.
Variable proc : Process.

Lemma truthyString_Some (v : option string) (s : string) :
  Ingest.truthyString v = Some s -> v = Some s.
Proof.
  destruct v as [t|]; [|discriminate]. cbn [Ingest.truthyString].
  destruct (Text.nonEmpty t); [congruence | discriminate].
Qed.

Lemma firstCandidate_exists (excludeDir : option string) (dirs : list string)
    (candidate : string) :
  firstCandidate fs proc excludeDir dirs = Some candidate ->
  existsSync fs candidate = true
  /\ exists dir, In dir dirs
       /\ candidate = join fs dir (executableName proc)
       /\ excluded fs excludeDir dir = false.
Proof.
  induction dirs as [|dir dirs IH]; cbn [firstCandidate]; [discriminate |].
  destruct (excluded fs excludeDir dir) eqn:Hex.
  - intros H. destruct (IH H) as (He & d & Hin & Hc & Hd).
    split; [exact He |]. exists d. split; [right; exact Hin | split; assumption].
  - destruct (existsSync fs (join fs dir (executableName proc))) eqn:Hexists.
    + intros [= <-]. split; [exact Hexists |]. exists dir.
      split; [left; reflexivity | split; [reflexivity | exact Hex]].
    + intros H. destruct (IH H) as (He & d & Hin & Hc & Hd).
      split; [exact He |]. exists d. split; [right; exact Hin | split; assumption].
Qed.

(** X25.  The executable [resolveCodexExecutable] returns exists: it is
    the configured path, or, when none is configured, the Codex binary of
    a directory of [PATH]. *)
Theorem resolveCodexExecutable_exists (configured : option string) (codexPath : string) :
  resolveCodexExecutable fs proc configured = Some codexPath ->
  existsSync fs codexPath = true
  /\ (Ingest.truthyString configured = Some codexPath
      \/ (Ingest.truthyString configured = None
          /\ exists dir, In dir (pathDirectories proc)
               /\ codexPath = join fs dir (executableName proc))).
Proof.
  unfold resolveCodexExecutable, findCodexOnPath.
  destruct (Ingest.truthyString configured) as [path|] eqn:Hconfigured.
  - destruct (existsSync fs path) eqn:Hexists; [|discriminate].
    intros [= <-]. split; [exact Hexists | left; reflexivity].
  - destruct (Ingest.truthyString (firstCandidate fs proc None (pathDirectories proc)))
      as [found|] eqn:Hfound; [|discriminate].
    apply truthyString_Some, firstCandidate_exists in Hfound.
    destruct Hfound as (Hexists & dir & Hin & Hfound & _).
    assert (Hgood : existsSync fs found = true
                    /\ (None = Some found
                        \/ (@None string = None
                            /\ exists dir, In dir (pathDirectories proc)
                                 /\ found = join fs dir (executableName proc)))).
    { split; [exact Hexists | right; split; [reflexivity |]]. exists dir. tauto. }
    destruct (isWrapperCodex fs found); [|intros [= <-]; exact Hgood].
    destruct (Ingest.truthyString
                (firstCandidate fs proc (Some (dirname fs found)) (pathDirectories proc)))
      as [alt|] eqn:Halt; [|intros [= <-]; exact Hgood].
    destruct (negb (String.eqb alt found)); [|intros [= <-]; exact Hgood].
    intros [= <-].
    apply truthyString_Some, firstCandidate_exists in Halt.
    destruct Halt as (Hexists' & dir' & Hin' & Halt & _).
    split; [exact Hexists' | right; split; [reflexivity |]]. exists dir'. tauto.
Qed.

(** X26.  [findCodexExecutable] and [isCodexAvailable] agree: the path
    that the agent uses is the one [resolveCodexExecutable] gives, so it
    is found only when Codex is reported available, and the search throws
    only when nothing, or an empty path, is resolved. *)
Theorem findCodexExecutable_agrees (configured : option string) :
  match findCodexExecutable fs proc configured with
  | inr codexPath =>
      resolveCodexExecutable fs proc configured = Some codexPath
      /\ isCodexAvailable fs proc configured = true
  | inl _ =>
      resolveCodexExecutable fs proc configured = None
      \/ resolveCodexExecutable fs proc configured = Some ""
  end.
Proof.
  unfold findCodexExecutable, isCodexAvailable, resolveCodexExecutable.
  destruct (Ingest.truthyString configured) as [path|] eqn:Hconfigured.
  - destruct (existsSync fs path); cbn [negb]; [split; reflexivity | left; reflexivity].
  - match goal with
    | |- context [Ingest.truthyString ?r] =>
        destruct r as [resolved|] eqn:Hresolved; cbn [Ingest.truthyString]
    end; [|left; reflexivity].
    destruct resolved as [|c resolved]; cbn [Text.nonEmpty];
      [right; reflexivity | split; reflexivity].
Qed.

(** X27.  When the first Codex on [PATH] is the wrapper script of the
    plugin and another Codex is found outside the directory of the
    wrapper, that one is used: it is the binary of a directory of [PATH]
    that does not resolve to the directory of the wrapper. *)
Theorem wrapper_is_passed_over (found alt : string) :
  Ingest.truthyString (findCodexOnPath fs proc None) = Some found ->
  isWrapperCodex fs found = true ->
  Ingest.truthyString (findCodexOnPath fs proc (Some (dirname fs found))) = Some alt ->
  alt <> found ->
  resolveCodexExecutable fs proc None = Some alt
  /\ exists dir, In dir (pathDirectories proc)
       /\ alt = join fs dir (executableName proc)
       /\ (Text.nonEmpty (dirname fs found) = true ->
           resolve fs dir <> resolve fs (dirname fs found)).
Proof.
  intros Hfound Hwrapper Halt Hother.
  unfold resolveCodexExecutable. cbn [Ingest.truthyString].
  rewrite Hfound, Hwrapper, Halt.
  replace (String.eqb alt found) with false
    by (symmetry; apply String.eqb_neq; exact Hother).
  split; [reflexivity |].
  apply truthyString_Some in Halt. unfold findCodexOnPath in Halt.
  apply firstCandidate_exists in Halt.
  destruct Halt as (_ & dir & Hin & Halt & Hexcluded).
  exists dir. split; [exact Hin |]. split; [exact Halt |].
  intros Hdir. unfold excluded in Hexcluded. cbn [Ingest.truthyString] in Hexcluded.
  rewrite Hdir in Hexcluded. apply String.eqb_neq. exact Hexcluded.
Qed.

(** X28.  The home directory handed to Codex holds a [.codex] directory
    whenever one of the three candidates does ([HOME], [/home/USER],
    [/home/ubuntu], in this order); it is [HOME] without one only when
    none of them has one. *)
Theorem resolveCodexHome_prefers_codex (home : string) :
  resolveCodexHome fs proc = Some home ->
  hasCodex fs home = true
  \/ (home = "/home/ubuntu" /\ existsSync fs "/home/ubuntu/.codex" = true)
  \/ (Ingest.truthyString (HOME proc) = Some home
      /\ existsSync fs "/home/ubuntu/.codex" = false
      /\ forall name, Ingest.truthyString (USER proc) = Some name ->
           hasCodex fs (join fs "/home" name) = false).
Proof.
  unfold resolveCodexHome.
  destruct (Ingest.truthyString (HOME proc)) as [envHome|] eqn:Henv.
  - destruct (hasCodex fs envHome) eqn:Hhas; [intros [= <-]; left; exact Hhas |].
    destruct (Ingest.truthyString (USER proc)) as [name|].
    + destruct (hasCodex fs (join fs "/home" name)) eqn:Huser;
        [intros [= <-]; left; exact Huser |].
      destruct (existsSync fs "/home/ubuntu/.codex") eqn:Hubuntu; intros [= <-].
      * right. left. split; reflexivity.
      * right. right. split; [reflexivity |]. split; [reflexivity |].
        intros n [= <-]. exact Huser.
    + destruct (existsSync fs "/home/ubuntu/.codex") eqn:Hubuntu; intros [= <-].
      * right. left. split; reflexivity.
      * right. right. split; [reflexivity |]. split; [reflexivity |]. discriminate.
  - destruct (Ingest.truthyString (USER proc)) as [name|].
    + destruct (hasCodex fs (join fs "/home" name)) eqn:Huser;
        [intros [= <-]; left; exact Huser |].
      destruct (existsSync fs "/home/ubuntu/.codex") eqn:Hubuntu; [|discriminate].
      intros [= <-]. right. left. split; reflexivity.
    + destruct (existsSync fs "/home/ubuntu/.codex") eqn:Hubuntu; [|discriminate].
      intros [= <-]. right. left. split; reflexivity.
Qed.

End ExecutableFacts.

Lemma resolveCodexExecutable_exists_witness :
  Executable.existsSync ExecutableSamples.wrapped "/usr/bin/codex" = true.
Proof.
  apply (resolveCodexExecutable_exists ExecutableSamples.wrapped
           ExecutableSamples.shell None "/usr/bin/codex").
  reflexivity.
Defined.

Lemma wrapper_is_passed_over_witness :
  Executable.resolveCodexExecutable ExecutableSamples.wrapped ExecutableSamples.shell None
  = Some "/usr/bin/codex".
Proof.
  apply (wrapper_is_passed_over ExecutableSamples.wrapped ExecutableSamples.shell
           "/plugin/bin/codex" "/usr/bin/codex");
    [reflexivity | reflexivity | reflexivity | discriminate].
Defined.

Lemma resolveCodexHome_prefers_codex_witness :
  Executable.hasCodex ExecutableSamples.wrapped "/root" = true
  \/ ("/root" = "/home/ubuntu"
      /\ Executable.existsSync ExecutableSamples.wrapped "/home/ubuntu/.codex" = true)
  \/ (Ingest.truthyString (Executable.HOME ExecutableSamples.shell) = Some "/root"
      /\ Executable.existsSync ExecutableSamples.wrapped "/home/ubuntu/.codex" = false
      /\ forall name,
           Ingest.truthyString (Executable.USER ExecutableSamples.shell) = Some name ->
           Executable.hasCodex ExecutableSamples.wrapped
             (Executable.join ExecutableSamples.wrapped "/home" name) = false).
Proof.
  apply (resolveCodexHome_prefers_codex ExecutableSamples.wrapped
           ExecutableSamples.shell "/root").
  reflexivity.
Defined.

(** ** The settings file *)

Section SettingsFileFacts.

Import SettingsDefaultsManager SettingsFile.

Variable defaults : string -> string.

(** On a flat file of strings the settings are those of the model used
    for the limits of the Codex agent. *)
Lemma loadFromFile_refines (writable : bool) (env : object) (settings : object)
    (key : string) :
  key <> "env" ->
  fst (loadFromFile defaults writable env (flatFile settings)) key
  = VString <$> SettingsDefaultsManager.loadFromFile defaults (Some settings) env key.
Proof.
  intros Hkey. apply String.eqb_neq in Hkey.
  unfold flatFile, loadFromFile.
  match goal with
  | |- context [nestedEnv ?v] => change (nestedEnv v) with (@None Value)
  end.
  cbn [fst].
  unfold applyEnvOverrides, mergeWithDefaults, SettingsDefaultsManager.loadFromFile.
  change (existsb (String.eqb key) DEFAULT_KEYS) with (isDefaultKey key).
  unfold property. rewrite Hkey.
  destruct (isDefaultKey key); [|reflexivity].
  destruct (env key); [reflexivity |].
  destruct (settings key); reflexivity.
Qed.



(** A file nested twice is migrated twice: the first load does not see
    the mode that the second load returns. *)
Example loadFromFile_nested_twice :
  let first :=
    loadFromFile SettingsSamples.defaults true SettingsSamples.noEnv
      SettingsSamples.nestedTwice in
  let second :=
    loadFromFile SettingsSamples.defaults true SettingsSamples.noEnv (snd first) in
  fst first "CLAUDE_MEM_MODE" = Some (VString "code")
  /\ snd first = SettingsSamples.oldSchema
  /\ fst second "CLAUDE_MEM_MODE" = Some (VString "email").
Proof. repeat split. Qed.

(** X30.  The settings object has the keys of [DEFAULTS] and no other;
    the value of a key is the environment variable of that name if it is
    set, else the value of the file (flat, or under [env] in the nested
    schema) if the file can be read and has one, else the default. *)
Theorem loadFromFile_priority (writable : bool) (env : object) (file : File)
    (key : string) :
  fst (loadFromFile defaults writable env file) key
  = if isDefaultKey key then
      Some (match env key, contentOf file with
            | Some fromEnv, _ => VString fromEnv
            | None, Some settings =>
                default (VString (defaults key)) (property settings key)
            | None, None => VString (defaults key)
            end)
    else None.
Proof.
  destruct file as [| |settings]; cbn [loadFromFile fst contentOf].
  - unfold applyEnvOverrides, getAllDefaults.
    destruct (isDefaultKey key); [|reflexivity]. destruct (env key); reflexivity.
  - unfold applyEnvOverrides, getAllDefaults.
    destruct (isDefaultKey key); [|reflexivity]. destruct (env key); reflexivity.
  - destruct (nestedEnv settings) as [flatSettings|]; cbn [fst];
      unfold applyEnvOverrides, mergeWithDefaults;
      (destruct (isDefaultKey key); [|reflexivity]);
      (destruct (env key); [reflexivity |]).
    + destruct (property flatSettings key); reflexivity.
    + destruct (property settings key); reflexivity.
Qed.

End SettingsFileFacts.

